(** * Vaer weather tool server: a shallow embedding and its verified properties

    The TypeScript sources embedded here are
    - [src/domain/error-handler.ts], [src/domain/response-builder.ts],
      [src/domain/cache-parser.ts], [src/domain/coverage-validator.ts];
    - [src/tools/marine-conditions.ts], [src/tools/assess-marine-trip.ts],
      [src/tools/location-forecast.ts], [src/tools/assess-outdoor-activity.ts];
    - [src/places/matcher.ts].

    Conventions of the embedding.
    - A JavaScript [number] that carries a measurement or a score is a
      rational ([Q]); decimal literals denote the rational they spell.  A
      [number] that the code only ever uses as an integer (HTTP status,
      array index, row id, parsed header) is a [Z].  NaN and the infinities
      are represented by [option] where the code can produce them.
    - [undefined] and [null] are [None].
    - A JavaScript string is a [string]; header values are taken to be ASCII.
    - Logging calls have no influence on any returned value and are left out.
    - A [Date] is the instant it denotes, in milliseconds since the epoch. *)

From Stdlib Require Import ZArith QArith Qround Qminmax Qabs Lqa.
From Stdlib Require Import Bool List String Ascii Lia DecimalString.
From Stdlib Require Import Sorted Permutation.
Import ListNotations.

Set Implicit Arguments.

(* ================================================================== *)
(** * Part I: the embedding                                            *)
(* ================================================================== *)

(** ** JavaScript primitives used by the sources *)
Module Js.

Local Open Scope string_scope.

(** Truthiness of a string: every string but the empty one. *)
Definition truthy_string (s : string) : bool :=
  negb (String.eqb s "").

(** Truthiness of an optional string ([string | null | undefined]). *)
Definition truthy_opt_string (o : option string) : bool :=
  match o with
  | Some s => truthy_string s
  | None => false
  end.

(** [a || b] on optional strings, as in [x || undefined] and [x || 'dflt']. *)
Definition or_else (o : option string) (d : option string) : option string :=
  if truthy_opt_string o then o else d.

(** [String.prototype.toUpperCase] on ASCII text. *)
Definition upper_ascii (c : ascii) : ascii :=
  let n := nat_of_ascii c in
  if (97 <=? n)%nat && (n <=? 122)%nat then ascii_of_nat (n - 32) else c.

Fixpoint toUpperCase (s : string) : string :=
  match s with
  | EmptyString => EmptyString
  | String c r => String (upper_ascii c) (toUpperCase r)
  end.

(** [`${n}`] for an integer-valued number. *)
Definition Z_to_string (n : Z) : string :=
  NilZero.string_of_int (Z.to_int n).

(** White space skipped by [parseInt] (the ASCII part of StrWhiteSpaceChar). *)
Definition is_space (c : ascii) : bool :=
  let n := nat_of_ascii c in
  (n =? 32)%nat || ((9 <=? n)%nat && (n <=? 13)%nat).

Definition digit_of (c : ascii) : option Z :=
  let n := nat_of_ascii c in
  if (48 <=? n)%nat && (n <=? 57)%nat then Some (Z.of_nat (n - 48)) else None.

Fixpoint skip_spaces (s : string) : string :=
  match s with
  | String c r => if is_space c then skip_spaces r else s
  | EmptyString => EmptyString
  end.

(** The longest run of leading decimal digits, accumulated left to right;
    [None] when the run is empty. *)
Fixpoint leading_digits (s : string) (acc : option Z) : option Z :=
  match s with
  | String c r =>
      match digit_of c with
      | Some d =>
          leading_digits r (Some (match acc with
                                  | Some a => 10 * a + d
                                  | None => d
                                  end)%Z)
      | None => acc
      end
  | EmptyString => acc
  end.

(** [parseInt(s, 10)]: leading white space is skipped, one sign is accepted,
    then the longest prefix of decimal digits is read and whatever follows
    is ignored.  [None] is NaN. *)
Definition parseInt10 (s : string) : option Z :=
  match skip_spaces s with
  | String "-" r => option_map Z.opp (leading_digits r None)
  | String "+" r => leading_digits r None
  | t => leading_digits t None
  end.

(** The value of a string that spells a non-negative integer: one or more
    decimal digits and nothing else. *)
Fixpoint digits_value (s : string) (acc : Z) : option Z :=
  match s with
  | EmptyString => Some acc
  | String c r =>
      match digit_of c with
      | Some d => digits_value r (10 * acc + d)%Z
      | None => None
      end
  end.

Definition natural_numeral (s : string) : option Z :=
  match s with
  | EmptyString => None
  | _ => digits_value s 0
  end.

(** [Math.round]: the nearest integer, a tie going upwards. *)
Definition Math_round (x : Q) : Z := Qfloor (x + (1 # 2)).

(** The number a decimal stands for in the program: the double nearest to
    it, a tie going to the even significand.  Written for the normal range
    of doubles, which holds every magnitude the tools print. *)
Definition round_half_even (y : Q) : Z :=
  let f := Qfloor y in
  match (y - inject_Z f ?= 1 # 2)%Q with
  | Lt => f
  | Gt => (f + 1)%Z
  | Eq => if Z.even f then f else (f + 1)%Z
  end.

Definition nearest_double (x : Q) : Q :=
  match Qnum x with
  | Z0 => 0
  | _ =>
      let a := Qabs x in
      let e0 := (Z.log2 (Qnum a) - Z.log2 (Zpos (Qden a)))%Z in
      let e := if Qle_bool (Qpower 2 e0) a then e0 else (e0 - 1)%Z in
      let ulp := Qpower 2 (e - 52) in
      let d := Qred (inject_Z (round_half_even (a / ulp)) * ulp) in
      if Qlt_le_dec x 0 then - d else d
  end.

Fixpoint zeros (n : nat) : string :=
  match n with
  | O => ""
  | S n' => "0" ++ zeros n'
  end.

(** [x.toFixed(k)]: the multiple of [10^-k] nearest to the double [x], the
    larger one on a tie, with the sign of [x] in front and exactly [k]
    decimals.  So 0.85, whose double lies below it, prints as 0.8 with one
    decimal, and 0.25 as 0.3. *)
Definition toFixed (k : nat) (x : Q) : string :=
  let p := (10 ^ Z.of_nat k)%Z in
  let n := Qfloor (Qabs (nearest_double x) * inject_Z p + (1 # 2)) in
  let whole := Z_to_string (n / p) in
  let decimals := Z_to_string (n mod p) in
  let body :=
    match k with
    | O => whole
    | _ => whole ++ "." ++ zeros (k - String.length decimals) ++ decimals
    end in
  if Qlt_le_dec x 0 then "-" ++ body else body.

(** [xs.join(sep)]. *)
Fixpoint join (sep : string) (xs : list string) : string :=
  match xs with
  | [] => ""
  | [x] => x
  | x :: r => x ++ sep ++ join sep r
  end.

(** [Math.max(...xs)]; the maximum of no numbers is minus infinity, [None]. *)
Definition Math_max (xs : list Z) : option Z :=
  match xs with
  | [] => None
  | x :: r => Some (fold_left Z.max r x)
  end.

(** [m >= k] where [m] may be minus infinity. *)
Definition geb_inf (m : option Z) (k : Z) : bool :=
  match m with
  | Some v => (k <=? v)%Z
  | None => false
  end.

(** [xs.slice(0, e)] for an integer [e]; a negative [e] counts from the end. *)
Definition slice0 (A : Type) (xs : list A) (e : Z) : list A :=
  if (e <? 0)%Z
  then firstn (Z.to_nat (Z.max 0 (Z.of_nat (List.length xs) + e))) xs
  else firstn (Z.to_nat e) xs.

(** [xs.sort(cmp)]: the sort is stable, so with a comparator that induces a
    weak order it is insertion of each element after the elements that do
    not compare greater. *)
Fixpoint sort_insert (A : Type) (cmp : A -> A -> Z) (x : A) (xs : list A)
  : list A :=
  match xs with
  | [] => [x]
  | y :: r => if (0 <? cmp y x)%Z then x :: y :: r
              else y :: sort_insert cmp x r
  end.

Definition Array_sort (A : Type) (cmp : A -> A -> Z) (xs : list A) : list A :=
  fold_left (fun acc x => sort_insert cmp x acc) xs [].

(** Comparisons of numbers, as booleans. *)
Definition Qgeb (a b : Q) : bool := Qle_bool b a.
Definition Qleb (a b : Q) : bool := Qle_bool a b.
Definition Qltb (a b : Q) : bool := negb (Qle_bool b a).
Definition Qeqb (a b : Q) : bool := Qeq_bool a b.

End Js.

(** ** [src/domain/types.ts] and [src/domain/error-handler.ts] *)
Module ErrorHandler.

Import Js.
Local Open Scope string_scope.

Inductive ErrorCode : Type :=
| INVALID_INPUT
| OUT_OF_COVERAGE
| RATE_LIMITED
| MET_API_UNAVAILABLE
| INTERNAL_ERROR.

Definition ErrorCode_eqb (a b : ErrorCode) : bool :=
  match a, b with
  | INVALID_INPUT, INVALID_INPUT
  | OUT_OF_COVERAGE, OUT_OF_COVERAGE
  | RATE_LIMITED, RATE_LIMITED
  | MET_API_UNAVAILABLE, MET_API_UNAVAILABLE
  | INTERNAL_ERROR, INTERNAL_ERROR => true
  | _, _ => false
  end.

(** [WeatherError['details']]: the named fields and the open-ended rest. *)
Record ErrorDetails : Type := mkDetails {
  upstreamStatus : option Z;
  requestId : option string;
  retryAfterSeconds : option Z;
  location : option (Q * Q);
  otherKeys : list (string * string)
}.

Definition noDetails : ErrorDetails :=
  mkDetails None None None None [].

Record WeatherError : Type := mkWeatherError {
  code : ErrorCode;
  message : string;
  retryable : bool;
  details : option ErrorDetails
}.

(** Response headers, read through [headers.get(name)]. *)
Definition Headers : Type := string -> option string.

Definition mapHttpStatusToErrorCode (status : Z) : ErrorCode :=
  if (status =? 400)%Z || (status =? 404)%Z then INVALID_INPUT
  else if (status =? 403)%Z then INTERNAL_ERROR
  else if (status =? 429)%Z || (status =? 503)%Z then RATE_LIMITED
  else if (500 <=? status)%Z then MET_API_UNAVAILABLE
  else INTERNAL_ERROR.

Definition createWeatherError
  (code : ErrorCode) (message : string) (details : option ErrorDetails)
  : WeatherError :=
  let retryable :=
    ErrorCode_eqb code RATE_LIMITED || ErrorCode_eqb code MET_API_UNAVAILABLE in
  mkWeatherError code message retryable details.

Definition handleHttpError
  (status : Z) (statusText : string) (headers : option Headers)
  (requestId : option string) : WeatherError :=
  let code := mapHttpStatusToErrorCode status in
  let message :=
    match code with
    | INVALID_INPUT => "Invalid input parameters: " ++ statusText
    | RATE_LIMITED => "Rate limit exceeded. Please try again later."
    | MET_API_UNAVAILABLE => "MET Weather API is currently unavailable."
    | INTERNAL_ERROR =>
        if (status =? 403)%Z
        then "Configuration error: User-Agent or Terms of Service issue."
        else "An internal error occurred."
    | OUT_OF_COVERAGE => "Unexpected error: " ++ statusText
    end in
  let d0 := mkDetails (Some status) None None None [] in
  let d1 :=
    if truthy_opt_string requestId
    then mkDetails (upstreamStatus d0) requestId (retryAfterSeconds d0)
                   (location d0) (otherKeys d0)
    else d0 in
  let d2 :=
    match code, headers with
    | RATE_LIMITED, Some h =>
        match h "Retry-After" with
        | Some retryAfter =>
            if truthy_string retryAfter then
              match parseInt10 retryAfter with
              | Some seconds =>
                  mkDetails (upstreamStatus d1) (ErrorHandler.requestId d1)
                            (Some seconds) (location d1) (otherKeys d1)
              | None => d1
              end
            else d1
        | None => d1
        end
    | _, _ => d1
    end in
  createWeatherError code message (Some d2).

Definition handleNetworkError (errorMessage : string)
  (requestId : option string) : WeatherError :=
  createWeatherError MET_API_UNAVAILABLE
    "Unable to reach MET Weather API. Please try again later."
    (Some (mkDetails None requestId None None
             [("networkError", errorMessage)])).

Definition createOutOfCoverageError (message : string) (loc : Q * Q)
  : WeatherError :=
  createWeatherError OUT_OF_COVERAGE message
    (Some (mkDetails None None None (Some loc) [])).

End ErrorHandler.

(** ** [src/domain/response-builder.ts] *)
Module ResponseBuilder.

Import Js ErrorHandler.
Local Open Scope string_scope.

(** The [structuredContent] of an envelope: a tool's payload, or
    [{ error }]. *)
Inductive Structured (T : Type) : Type :=
| Payload (data : T)
| ErrorPayload (error : WeatherError).

Arguments ErrorPayload {T} error.

Record TextBlock : Type := mkText { text : string }.

Record CallToolResult (T : Type) : Type := mkResult {
  content : list TextBlock;
  structuredContent : Structured T;
  isError : option bool
}.

Definition buildToolResponse (T : Type) (structured : T)
  (textSummary : string) : CallToolResult T :=
  mkResult [mkText textSummary] (Payload structured) None.

(** [error.details?.retryAfterSeconds] as a field read. *)
Definition retryAfterField (error : WeatherError) : option Z :=
  match details error with
  | Some d => retryAfterSeconds d
  | None => None
  end.

(** The same read under the truthiness test of the conditional: a number
    is truthy unless it is zero. *)
Definition truthy_retryAfter (error : WeatherError) : option Z :=
  match retryAfterField error with
  | Some n => if (n =? 0)%Z then None else Some n
  | None => None
  end.

Definition retrySuffix (n : Z) : string :=
  " Retry after " ++ Z_to_string n ++ " seconds.".

Definition buildErrorResponse (T : Type) (error : WeatherError)
  : CallToolResult T :=
  let textSummary :=
    match truthy_retryAfter error with
    | Some n => message error ++ retrySuffix n
    | None => message error
    end in
  mkResult [mkText textSummary] (ErrorPayload error) (Some true).

(** The truthiness test [if (result.isError)]. *)
Definition isError_truthy (T : Type) (r : CallToolResult T) : bool :=
  match isError r with
  | Some b => b
  | None => false
  end.

End ResponseBuilder.

(** ** [src/domain/cache-parser.ts] and [src/domain/attribution.ts] *)
Module CacheParser.

Import Js ErrorHandler.
Local Open Scope string_scope.

Inductive CacheStatus : Type := HIT | MISS | EXPIRED | BYPASS.

Record CacheMetadata : Type := mkCache {
  cached : bool;
  ageSeconds : option Z;
  status : option CacheStatus
}.

(** [['HIT', 'MISS', 'EXPIRED', 'BYPASS'].includes(value)], with the member
    that was found. *)
Definition knownStatus (value : string) : option CacheStatus :=
  if String.eqb value "HIT" then Some HIT
  else if String.eqb value "MISS" then Some MISS
  else if String.eqb value "EXPIRED" then Some EXPIRED
  else if String.eqb value "BYPASS" then Some BYPASS
  else None.

Definition parseCacheHeaders (headers : Headers) : CacheMetadata :=
  let proxyCacheHeader := headers "X-Proxy-Cache" in
  let ageHeader := headers "Age" in
  let '(cached, status) :=
    match proxyCacheHeader with
    | Some h =>
        if truthy_string h then
          let value := toUpperCase h in
          (String.eqb value "HIT" || String.eqb value "EXPIRED",
           knownStatus value)
        else (false, None)
    | None => (false, None)
    end in
  let ageSeconds :=
    match ageHeader with
    | Some a =>
        if truthy_string a then
          match parseInt10 a with
          | Some parsed => if (0 <=? parsed)%Z then Some parsed else None
          | None => None
          end
        else None
    | None => None
    end in
  mkCache cached ageSeconds status.

Record SourceMetadata : Type := mkSource {
  provider : string;
  product : string;
  licenseUri : string;
  creditLine : string;
  source_cached : bool;
  source_ageSeconds : option Z
}.

Definition MET_LICENSE_URI : string := "https://api.met.no/doc/License".
Definition MET_CREDIT_LINE : string :=
  "Data from MET Norway Weather API (https://api.met.no/)".

Definition buildSourceMetadata (product : string) (cache : CacheMetadata)
  : SourceMetadata :=
  mkSource "MET Norway" product MET_LICENSE_URI MET_CREDIT_LINE
           (cached cache) (ageSeconds cache).

End CacheParser.

(** ** [src/domain/coverage-validator.ts] *)
Module Coverage.

Import Js.

Definition isNordic (lat lon : Q) : bool :=
  Qgeb lat 55 && Qleb lat 72 && Qgeb lon 4 && Qleb lon 32.

Definition isNorway (lat lon : Q) : bool :=
  Qgeb lat 58 && Qleb lat 71 && Qgeb lon 4 && Qleb lon 31.

Definition isCoastalNorway (lat lon : Q) : bool :=
  let isOsloFjord :=
    Qgeb lat 59 && Qleb lat 60.5 && Qgeb lon 10 && Qleb lon 11.5 in
  let isWesternCoast :=
    Qgeb lat 58 && Qleb lat 63 && Qgeb lon 4.5 && Qleb lon 8 in
  isOsloFjord || isWesternCoast.

End Coverage.

(** ** [src/domain/schemas/common.ts]: the shapes the tools receive *)
Module Schemas.

Local Open Scope string_scope.

Record Coordinate : Type := mkCoordinate {
  lat : Q;
  lon : Q;
  altitude : option Q
}.

Inductive TimeWindowPreset : Type :=
| next_24h | next_48h | next_7d | full_available.

Definition presetName (p : TimeWindowPreset) : string :=
  match p with
  | next_24h => "next_24h"
  | next_48h => "next_48h"
  | next_7d => "next_7d"
  | full_available => "full_available"
  end.

Inductive WindowKind : Type := absolute | relative.

(** [TimeWindow]: every field is optional; [from] and [to] are the strings
    the caller sent. *)
Record TimeWindow : Type := mkTimeWindow {
  kind : option WindowKind;
  from : option string;
  to : option string;
  preset : option TimeWindowPreset
}.

(** [{ from, to }] after resolution.  The code stores the two instants as
    their [toISOString()] renderings and reads them back with [new Date];
    the embedding keeps the instants (milliseconds since the epoch). *)
Record ResolvedTimeWindow : Type := mkResolved {
  resolved_from : Z;
  resolved_to : Z
}.

Definition hoursMs (h : Z) : Z := (h * 60 * 60 * 1000)%Z.

End Schemas.

(** ** [src/tools/location-forecast.ts]: time-window resolution *)
Module LocationForecast.

Import Schemas.

(** [now] is the value of [new Date()] read at entry.  The function has no
    [throw]: every path returns a window. *)
Definition resolveTimeWindow (timeWindow : option TimeWindow) (now : Z)
  : ResolvedTimeWindow :=
  match timeWindow with
  | Some tw =>
      match preset tw with
      | Some preset =>
          let hours :=
            match preset with
            | next_24h => 24
            | next_48h => 48
            | next_7d => 7 * 24
            | full_available => 10 * 24
            end%Z in
          mkResolved now (now + hoursMs hours)
      | None => mkResolved now (now + hoursMs 48)
      end
  | None => mkResolved now (now + hoursMs 48)
  end.

End LocationForecast.

(** ** [src/tools/marine-conditions.ts] *)
Module Marine.

Import Js ErrorHandler ResponseBuilder CacheParser Coverage Schemas.
Local Open Scope string_scope.

Inductive VesselType : Type := kayak | small_sailboat | motorboat | ship.

Definition vesselName (v : VesselType) : string :=
  match v with
  | kayak => "kayak"
  | small_sailboat => "small_sailboat"
  | motorboat => "motorboat"
  | ship => "ship"
  end.

Inductive RiskLevel : Type := low | moderate | high | extreme.

Definition riskName (r : RiskLevel) : string :=
  match r with
  | low => "low"
  | moderate => "moderate"
  | high => "high"
  | extreme => "extreme"
  end.

Record MarineConditionsInput : Type := mkMarineInput {
  in_location : Coordinate;
  in_timeWindow : option TimeWindow;
  in_vesselType : VesselType;
  in_language : string
}.

Record MarineConditionsPoint : Type := mkMarinePoint {
  time : string;
  wave_height : Q;
  wave_direction : Q;
  water_temperature : Q;
  water_speed : Q;
  water_direction : Q;
  risk_level : RiskLevel;
  risk_notes : option string
}.

Record MarineConditionsOutput : Type := mkMarineOutput {
  source : SourceMetadata;
  out_location : Q * Q;
  out_timeWindow : ResolvedTimeWindow;
  out_vesselType : VesselType;
  hours : list MarineConditionsPoint
}.

(** One [MetOceanforecastData] entry: [time] and [data.instant.details]. *)
Record MetOceanforecastData : Type := mkOceanEntry {
  entry_time : string;
  sea_surface_wave_from_direction : option Q;
  sea_surface_wave_height : option Q;
  sea_water_speed : option Q;
  sea_water_temperature : option Q;
  sea_water_to_direction : option Q
}.

Record Bound : Type := mkBound { wave : Q; current : Q }.

Record VesselThresholds : Type := mkThresholds {
  lowBound : Bound;
  moderateBound : Bound;
  highBound : Bound
}.

Definition RISK_THRESHOLDS (v : VesselType) : VesselThresholds :=
  match v with
  | kayak =>
      mkThresholds (mkBound 0.3 0.5) (mkBound 0.5 1.0) (mkBound 0.8 1.5)
  | small_sailboat =>
      mkThresholds (mkBound 0.5 1.0) (mkBound 1.0 2.0) (mkBound 1.5 3.0)
  | motorboat =>
      mkThresholds (mkBound 0.8 1.5) (mkBound 1.5 2.5) (mkBound 2.0 4.0)
  | ship =>
      mkThresholds (mkBound 2.0 3.0) (mkBound 3.5 5.0) (mkBound 5.0 7.0)
  end.

Record RiskAssessment : Type := mkAssessment {
  level : RiskLevel;
  notes : option string
}.

Definition assessRiskLevel (waveHeight waterSpeed : Q) (vesselType : VesselType)
  : RiskAssessment :=
  let thresholds := RISK_THRESHOLDS vesselType in
  if Qgeb waveHeight (wave (highBound thresholds))
     || Qgeb waterSpeed (current (highBound thresholds))
  then
    let n1 :=
      if Qgeb waveHeight (wave (highBound thresholds))
      then ["High wave conditions (" ++ toFixed 1 waveHeight ++ "m)"]
      else [] in
    let n2 :=
      if Qgeb waterSpeed (current (highBound thresholds))
      then ["Strong currents (" ++ toFixed 1 waterSpeed ++ "m/s)"]
      else [] in
    mkAssessment high (Some (join "; " (n1 ++ n2)))
  else if Qgeb waveHeight (wave (moderateBound thresholds))
          || Qgeb waterSpeed (current (moderateBound thresholds))
  then
    let n1 :=
      if Qgeb waveHeight (wave (moderateBound thresholds))
      then ["Moderate wave conditions (" ++ toFixed 1 waveHeight ++ "m)"]
      else [] in
    let n2 :=
      if Qgeb waterSpeed (current (moderateBound thresholds))
      then ["Moderate currents (" ++ toFixed 1 waterSpeed ++ "m/s)"]
      else [] in
    mkAssessment moderate (Some (join "; " (n1 ++ n2)))
  else if Qgeb waveHeight (wave (lowBound thresholds))
          || Qgeb waterSpeed (current (lowBound thresholds))
  then mkAssessment low
         (Some "Generally favorable conditions with minor hazards")
  else mkAssessment low (Some "Calm conditions, ideal for sailing").

(** [x ?? 0]. *)
Definition orZero (x : option Q) : Q :=
  match x with
  | Some v => v
  | None => 0
  end.

Section WithDateParser.

(** [new Date(s).getTime()] for a string received from upstream; [None] is
    an invalid date, whose comparisons are all false. *)
Variable Date_parse : string -> option Z.

Definition outsideWindow (t : string) (timeWindow : ResolvedTimeWindow)
  : bool :=
  match Date_parse t with
  | Some ms =>
      (ms <? resolved_from timeWindow)%Z || (resolved_to timeWindow <? ms)%Z
  | None => false
  end.

Definition transformEntry (vesselType : VesselType)
  (entry : MetOceanforecastData) : MarineConditionsPoint :=
  let waveHeight := orZero (sea_surface_wave_height entry) in
  let waterSpeed := orZero (sea_water_speed entry) in
  let a := assessRiskLevel waveHeight waterSpeed vesselType in
  mkMarinePoint (entry_time entry) waveHeight
    (orZero (sea_surface_wave_from_direction entry))
    (orZero (sea_water_temperature entry))
    waterSpeed
    (orZero (sea_water_to_direction entry))
    (level a) (notes a).

Fixpoint transformMetResponse (timeseries : list MetOceanforecastData)
  (timeWindow : ResolvedTimeWindow) (vesselType : VesselType)
  : list MarineConditionsPoint :=
  match timeseries with
  | [] => []
  | entry :: rest =>
      if outsideWindow (entry_time entry) timeWindow
      then transformMetResponse rest timeWindow vesselType
      else transformEntry vesselType entry
             :: transformMetResponse rest timeWindow vesselType
  end.

Definition riskOrder (r : RiskLevel) : Z :=
  match r with
  | low => 0
  | moderate => 1
  | high => 2
  | extreme => 3
  end.

Definition coordText (location : Coordinate) : string :=
  toFixed 2 (lat location) ++ "°N, " ++ toFixed 2 (lon location) ++ "°E".

Definition generateSummary (location : Coordinate) (vesselType : VesselType)
  (hours : list MarineConditionsPoint) : string :=
  match hours with
  | [] => "No marine conditions data available for "
            ++ coordText location ++ "."
  | currentPoint :: rest =>
      let highestRiskPoint :=
        fold_left
          (fun worst point =>
             if (riskOrder (risk_level worst) <? riskOrder (risk_level point))%Z
             then point else worst)
          rest currentPoint in
      let s1 :=
        "Marine conditions for " ++ vesselName vesselType ++ " at "
          ++ coordText location ++ ":
" in
      let s2 :=
        "Current: " ++ toFixed 1 (wave_height currentPoint) ++ "m waves, "
          ++ toFixed 1 (water_temperature currentPoint) ++ "°C water temp, "
          ++ riskName (risk_level currentPoint) ++ " risk.
" in
      let s3 :=
        if String.eqb (riskName (risk_level highestRiskPoint))
                      (riskName (risk_level currentPoint))
        then ""
        else "Peak risk: " ++ riskName (risk_level highestRiskPoint)
               ++ " conditions expected.
" in
      let s4 :=
        match risk_notes currentPoint with
        | Some n => n
        | None => ""
        end in
      s1 ++ s2 ++ s3 ++ s4
  end.

(** The marine tool's own resolution: only [next_24h] differs from the
    48-hour default.  [preset] is compared as a string. *)
Definition resolveTimeWindow (timeWindow : option TimeWindow) (now : Z)
  : ResolvedTimeWindow :=
  match timeWindow with
  | Some tw =>
      match option_map presetName (preset tw) with
      | Some p =>
          if truthy_string p then
            if String.eqb p "next_24h"
            then mkResolved now (now + hoursMs 24)
            else if String.eqb p "next_48h"
            then mkResolved now (now + hoursMs 48)
            else mkResolved now (now + hoursMs 48)
          else mkResolved now (now + hoursMs 48)
      | None => mkResolved now (now + hoursMs 48)
      end
  | None => mkResolved now (now + hoursMs 48)
  end.

(** What [proxyClient.fetch] does for the ocean forecast of a position: it
    throws a [WeatherError] or returns the time series with the cache
    metadata of the response. *)
Definition OceanFetch : Type :=
  Q -> Q -> WeatherError + (list MetOceanforecastData * CacheMetadata).

Definition coverageMessage : string :=
  "Marine conditions are only available for coastal Norway (Oslo Fjord 59-60.5°N, 10-11.5°E and Western Coast 58-63°N, 4.5-8°E).".

Definition handleMarineConditions (fetch : OceanFetch) (now : Z)
  (input : MarineConditionsInput) : CallToolResult MarineConditionsOutput :=
  let loc := in_location input in
  if negb (isCoastalNorway (lat loc) (lon loc)) then
    buildErrorResponse _
      (createOutOfCoverageError coverageMessage (lat loc, lon loc))
  else
    let timeWindow := resolveTimeWindow (in_timeWindow input) now in
    match fetch (lat loc) (lon loc) with
    | inl error => buildErrorResponse _ error
    | inr (timeseries, cache) =>
        let hours :=
          transformMetResponse timeseries timeWindow (in_vesselType input) in
        let sourceMetadata := buildSourceMetadata "Oceanforecast 2.0" cache in
        let output :=
          mkMarineOutput
            (mkSource "MET Norway" "Oceanforecast 2.0"
               (licenseUri sourceMetadata) (creditLine sourceMetadata)
               (source_cached sourceMetadata)
               (source_ageSeconds sourceMetadata))
            (lat loc, lon loc) timeWindow (in_vesselType input) hours in
        buildToolResponse output
          (generateSummary loc (in_vesselType input) hours)
    end.

End WithDateParser.

End Marine.

(** ** [src/tools/assess-marine-trip.ts] *)
Module MarineTrip.

Import Js ErrorHandler ResponseBuilder.
Local Open Scope string_scope.

Record Waypoint : Type := mkWaypoint {
  lat : Q;
  lon : Q;
  name : option string
}.

Inductive TripRiskLevel : Type := safe | caution | dangerous | extreme.

Definition tripRiskName (r : TripRiskLevel) : string :=
  match r with
  | safe => "safe"
  | caution => "caution"
  | dangerous => "dangerous"
  | extreme => "extreme"
  end.

Record AssessMarineTripInput : Type := mkTripInput {
  route : list Waypoint;
  vesselType : Marine.VesselType;
  timeWindow : option Schemas.TimeWindow;
  language : string
}.

Record RiskHotspot : Type := mkHotspot {
  location : Waypoint;
  time : string;
  risk_level : Marine.RiskLevel;
  wave_height : Q;
  water_speed : Q;
  reason : string
}.

Record WaypointAssessment : Type := mkWaypointAssessment {
  waypoint : Waypoint;
  max_risk : Marine.RiskLevel;
  hours_assessed : Z;
  high_risk_hours : Z
}.

Record AssessMarineTripOutput : Type := mkTripOutput {
  out_route : list Waypoint;
  out_vesselType : Marine.VesselType;
  out_timeWindow : Schemas.ResolvedTimeWindow;
  overall_risk : TripRiskLevel;
  waypoint_assessments : list WaypointAssessment;
  hotspots : list RiskHotspot;
  recommendation : string;
  summary : string
}.

Definition riskToNumeric (risk : Marine.RiskLevel) : Z :=
  match risk with
  | Marine.low => 0
  | Marine.moderate => 1
  | Marine.high => 2
  | Marine.extreme => 3
  end.

Definition numericToRisk (value : Z) : Marine.RiskLevel :=
  if (3 <=? value)%Z then Marine.extreme
  else if (2 <=? value)%Z then Marine.high
  else if (1 <=? value)%Z then Marine.moderate
  else Marine.low.

Definition aggregateTripRisk (waypointAssessments : list WaypointAssessment)
  : TripRiskLevel :=
  let maxRisk :=
    Math_max (map (fun w => riskToNumeric (max_risk w)) waypointAssessments) in
  let highRiskWaypoints :=
    Z.of_nat
      (List.length
         (filter (fun w => (2 <=? riskToNumeric (max_risk w))%Z)
                 waypointAssessments)) in
  if geb_inf maxRisk 3 then extreme
  else if geb_inf maxRisk 2 then
    if (2 <=? highRiskWaypoints)%Z then dangerous else caution
  else if geb_inf maxRisk 1 then caution
  else safe.

Definition generateRecommendation (tripRisk : TripRiskLevel)
  (vesselType : Marine.VesselType) (hotspots : list RiskHotspot) : string :=
  match tripRisk with
  | safe =>
      "Safe to proceed with " ++ Marine.vesselName vesselType
        ++ ". Conditions are favorable along the route."
  | caution =>
      "Exercise caution. Moderate conditions expected at some points along the route. Monitor weather closely."
  | dangerous =>
      "Not recommended for " ++ Marine.vesselName vesselType
        ++ ". High-risk conditions detected along the route. Consider postponing or choosing an alternative route."
  | extreme =>
      "DANGER: Extreme conditions detected. Do not proceed. Trip is unsafe for "
        ++ Marine.vesselName vesselType ++ "."
  end.

(** [xs[i]] for an integer index: [undefined] out of range. *)
Definition at_index (A : Type) (xs : list A) (i : Z) : option A :=
  if (i <? 0)%Z then None else nth_error xs (Z.to_nat i).

(** The values [1, 2, ..., maxSamples - 2] taken by the loop variable. *)
Definition intermediateSteps (maxSamples : Z) : list Z :=
  map Z.of_nat (seq 1 (Z.to_nat (maxSamples - 2))).

(** The array index read at step [i] of the loop on a route of [len]
    waypoints. *)
Definition sampleIndex (len maxSamples i : Z) : Z :=
  let step := inject_Z (len - 1) / inject_Z (maxSamples - 1) in
  Math_round (inject_Z i * step).

(** The entries of the result are what the array reads gave, so an entry
    may be [undefined] ([None]). *)
Definition sampleWaypoints (A : Type) (route : list A) (maxSamples : Z)
  : list (option A) :=
  let len := Z.of_nat (List.length route) in
  if (len <=? maxSamples)%Z then map Some route
  else
    ([at_index route 0]
      ++ map (fun i => at_index route (sampleIndex len maxSamples i))
             (intermediateSteps maxSamples)
      ++ [at_index route (len - 1)])%list.

(** One pass of the inner loop over the hours of a waypoint. *)
Record HourScan : Type := mkScan {
  scan_maxRisk : Marine.RiskLevel;
  scan_highRiskHours : Z;
  scan_hotspots : list RiskHotspot
}.

Definition scanHour (wp : Waypoint) (st : HourScan)
  (hour : Marine.MarineConditionsPoint) : HourScan :=
  let hourRiskNumeric := riskToNumeric (Marine.risk_level hour) in
  let maxRisk :=
    if (riskToNumeric (scan_maxRisk st) <? hourRiskNumeric)%Z
    then Marine.risk_level hour else scan_maxRisk st in
  let highRiskHours :=
    if (2 <=? hourRiskNumeric)%Z
    then (scan_highRiskHours st + 1)%Z else scan_highRiskHours st in
  let hotspots :=
    if (2 <=? hourRiskNumeric)%Z
    then (scan_hotspots st
           ++ [mkHotspot wp (Marine.time hour) (Marine.risk_level hour)
                 (Marine.wave_height hour) (Marine.water_speed hour)
                 (match or_else (Marine.risk_notes hour)
                                (Some "High risk conditions") with
                  | Some r => r
                  | None => ""
                  end)])%list
    else scan_hotspots st in
  mkScan maxRisk highRiskHours hotspots.

(** The marine tool as the trip tool sees it: the [k]-th call of a run may
    observe its own clock and upstream state. *)
Definition MarineTool : Type :=
  nat -> Marine.MarineConditionsInput
  -> CallToolResult Marine.MarineConditionsOutput.

Definition TripPayload : Type :=
  (Marine.MarineConditionsOutput + AssessMarineTripOutput)%type.

(** An envelope of the marine tool handed back unchanged. *)
Definition passThrough (r : CallToolResult Marine.MarineConditionsOutput)
  : CallToolResult TripPayload :=
  mkResult (content r)
    (match structuredContent r with
     | Payload d => Payload (inl d)
     | ErrorPayload e => ErrorPayload e
     end)
    (isError r).

Definition unexpected (what : string) : CallToolResult TripPayload :=
  buildErrorResponse _
    (createWeatherError INTERNAL_ERROR
       "An unexpected error occurred while assessing marine trip risk."
       (Some (mkDetails None None None None [("error", what)]))).

(** The loop over the sampled waypoints: it stops at the first envelope
    flagged as an error and otherwise accumulates assessments and
    hotspots. *)
Fixpoint assessWaypoints (marine : MarineTool) (input : AssessMarineTripInput)
  (k : nat) (sampled : list (option Waypoint))
  (waypointAssessments : list WaypointAssessment)
  (allHotspots : list RiskHotspot)
  : CallToolResult TripPayload
    + (list WaypointAssessment * list RiskHotspot) :=
  match sampled with
  | [] => inr (waypointAssessments, allHotspots)
  | None :: _ =>
      inl (unexpected "Cannot read properties of undefined (reading 'lat')")
  | Some wp :: rest =>
      let marineInput :=
        Marine.mkMarineInput
          (Schemas.mkCoordinate (lat wp) (lon wp) None)
          (timeWindow input) (vesselType input) (language input) in
      let marineResult := marine k marineInput in
      if isError_truthy marineResult then inl (passThrough marineResult)
      else
        match structuredContent marineResult with
        | ErrorPayload _ =>
            inl (unexpected "marineOutput.hours is not iterable")
        | Payload marineOutput =>
            let st :=
              fold_left (scanHour wp) (Marine.hours marineOutput)
                        (mkScan Marine.low 0 allHotspots) in
            assessWaypoints marine input (S k) rest
              (waypointAssessments
                 ++ [mkWaypointAssessment wp (scan_maxRisk st)
                       (Z.of_nat (List.length (Marine.hours marineOutput)))
                       (scan_highRiskHours st)])%list
              (scan_hotspots st)
        end
  end.

Section WithLocale.

(** [new Date(t).toLocaleString('en-US', { month, day, hour })]. *)
Variable formatHotspotTime : string -> string.

Definition hotspotLine (hotspot : RiskHotspot) : string :=
  let timeStr := formatHotspotTime (time hotspot) in
  let locationStr :=
    if truthy_opt_string (name (location hotspot))
    then match name (location hotspot) with
         | Some n => n
         | None => ""
         end
    else toFixed 2 (lat (location hotspot)) ++ "°N, "
           ++ toFixed 2 (lon (location hotspot)) ++ "°E" in
  "- " ++ locationStr ++ " at " ++ timeStr ++ ": "
    ++ Marine.riskName (risk_level hotspot) ++ " risk ("
    ++ reason hotspot ++ ")
".

Definition generateSummary (route : list Waypoint)
  (vesselType : Marine.VesselType) (overallRisk : TripRiskLevel)
  (waypointAssessments : list WaypointAssessment)
  (hotspots : list RiskHotspot) : string :=
  let s1 :=
    "Marine trip risk assessment for " ++ Marine.vesselName vesselType ++ ":
" in
  let s2 :=
    "Route: " ++ Z_to_string (Z.of_nat (List.length route)) ++ " waypoints, "
      ++ Z_to_string (Z.of_nat (List.length waypointAssessments))
      ++ " assessed.
" in
  let s3 :=
    "Overall risk: " ++ toUpperCase (tripRiskName overallRisk) ++ "
" in
  let s4 :=
    match hotspots with
    | [] => "
No significant risk hotspots detected."
    | _ =>
        "
Risk hotspots (" ++ Z_to_string (Z.of_nat (List.length hotspots)) ++ "):
"
          ++ String.concat "" (map hotspotLine (firstn 3 hotspots))
    end in
  s1 ++ s2 ++ s3 ++ s4.

(** [nowFrom] and [nowTo] are the clock readings taken while the output is
    assembled. *)
Definition handleAssessMarineTrip (marine : MarineTool) (nowFrom nowTo : Z)
  (input : AssessMarineTripInput) : CallToolResult TripPayload :=
  let sampledWaypoints := sampleWaypoints (route input) 5 in
  match assessWaypoints marine input 0 sampledWaypoints [] [] with
  | inl early => early
  | inr (waypointAssessments, collected) =>
      let overallRisk := aggregateTripRisk waypointAssessments in
      let allHotspots :=
        Array_sort
          (fun a b =>
             (riskToNumeric (risk_level b) - riskToNumeric (risk_level a))%Z)
          collected in
      let recommendation :=
        generateRecommendation overallRisk (vesselType input) allHotspots in
      let text :=
        generateSummary (route input) (vesselType input) overallRisk
                        waypointAssessments allHotspots in
      let output :=
        mkTripOutput (route input) (vesselType input)
          (Schemas.mkResolved nowFrom (nowTo + Schemas.hoursMs 48))
          overallRisk waypointAssessments allHotspots recommendation text in
      buildToolResponse (inr output : TripPayload) text
  end.

End WithLocale.

End MarineTrip.

(** ** [src/tools/assess-outdoor-activity.ts] *)
Module Activity.

Import Js.
Local Open Scope string_scope.

(** [Exclude<ActivityTypeType, 'custom'>], the keys of the built-in table. *)
Inductive BuiltinActivity : Type :=
| running | cycling | hiking | kids_playground | commuting.

Inductive ActivityType : Type :=
| builtin (a : BuiltinActivity)
| custom.

Inductive ComfortScore : Type := good | ok | poor.

Record Preferences : Type := mkPreferences {
  pref_minTemp : option Q;
  pref_maxTemp : option Q;
  pref_maxWind : option Q;
  pref_avoidRain : option bool;
  pref_avoidHeavyRain : option bool
}.

Record ActivityThresholds : Type := mkActivityThresholds {
  minTemp : Q;
  maxTemp : Q;
  maxWind : Q;
  avoidHeavyRain : bool
}.

Definition ACTIVITY_THRESHOLDS (a : BuiltinActivity) : ActivityThresholds :=
  match a with
  | running => mkActivityThresholds 5 20 10 true
  | cycling => mkActivityThresholds 8 25 12 true
  | hiking => mkActivityThresholds 5 25 15 false
  | kids_playground => mkActivityThresholds 10 28 8 true
  | commuting => mkActivityThresholds (-10) 35 20 false
  end.

(** [x ?? d]. *)
Definition orDefault (A : Type) (x : option A) (d : A) : A :=
  match x with
  | Some v => v
  | None => d
  end.

Definition getThresholds (activity : ActivityType)
  (customPreferences : option Preferences) : ActivityThresholds :=
  let baseThresholds :=
    match activity with
    | custom =>
        mkActivityThresholds
          (orDefault (match customPreferences with
                      | Some p => pref_minTemp p | None => None end) 5)
          (orDefault (match customPreferences with
                      | Some p => pref_maxTemp p | None => None end) 25)
          (orDefault (match customPreferences with
                      | Some p => pref_maxWind p | None => None end) 15)
          (orDefault (match customPreferences with
                      | Some p => pref_avoidHeavyRain p | None => None end)
                     false)
    | builtin a => ACTIVITY_THRESHOLDS a
    end in
  match customPreferences with
  | Some p =>
      mkActivityThresholds
        (orDefault (pref_minTemp p) (minTemp baseThresholds))
        (orDefault (pref_maxTemp p) (maxTemp baseThresholds))
        (orDefault (pref_maxWind p) (maxWind baseThresholds))
        (orDefault (pref_avoidHeavyRain p) (avoidHeavyRain baseThresholds))
  | None => baseThresholds
  end.

Record ComfortAssessment : Type := mkComfort {
  score : ComfortScore;
  temperature_ok : bool;
  wind_ok : bool;
  precipitation_ok : bool;
  reason : string
}.

Definition assessComfort (temperature windSpeed precipitationRate : Q)
  (thresholds : ActivityThresholds) (avoidAllRain : bool)
  : ComfortAssessment :=
  let temperature_ok :=
    Qgeb temperature (minTemp thresholds)
    && Qleb temperature (maxTemp thresholds) in
  let wind_ok := Qleb windSpeed (maxWind thresholds) in
  let precipitation_ok :=
    if avoidAllRain then Qeqb precipitationRate 0
    else if avoidHeavyRain thresholds then Qltb precipitationRate 2.5
    else true in
  let issueCount :=
    List.length
      (filter (fun ok => negb ok) [temperature_ok; wind_ok; precipitation_ok])
  in
  let score :=
    if (issueCount =? 0)%nat then good
    else if (issueCount =? 1)%nat then ok
    else poor in
  let i1 :=
    if negb temperature_ok then
      if Qltb temperature (minTemp thresholds)
      then ["too cold (" ++ toFixed 1 temperature ++ "°C)"]
      else ["too hot (" ++ toFixed 1 temperature ++ "°C)"]
    else [] in
  let i2 :=
    if negb wind_ok then ["windy (" ++ toFixed 1 windSpeed ++ " m/s)"]
    else [] in
  let i3 :=
    if negb precipitation_ok then
      if avoidAllRain then ["raining"] else ["heavy rain"]
    else [] in
  let issues := (i1 ++ i2 ++ i3)%list in
  let reason :=
    match issues with
    | [] => "Ideal conditions"
    | _ => "Conditions: " ++ join ", " issues
    end in
  mkComfort score temperature_ok wind_ok precipitation_ok reason.

(** The fields of a forecast hour that the scorer reads. *)
Record ForecastHour : Type := mkForecastHour {
  time : string;
  air_temperature : Q;
  wind_speed : Q;
  precipitation_rate : option Q
}.

Record ComfortSlot : Type := mkSlot {
  slot_time : string;
  slot_score : ComfortScore;
  slot_temperature : Q;
  slot_wind_speed : Q;
  slot_precipitation_rate : Q;
  slot_temperature_ok : bool;
  slot_wind_ok : bool;
  slot_precipitation_ok : bool;
  slot_reason : string
}.

Record AssessOutdoorActivityInput : Type := mkActivityInput {
  activity : ActivityType;
  preferences : option Preferences
}.

(** The body of the loop "Score each hour" of the handler. *)
Definition scoreHour (thresholds : ActivityThresholds) (avoidAllRain : bool)
  (hour : ForecastHour) : ComfortSlot :=
  let assessment :=
    assessComfort (air_temperature hour) (wind_speed hour)
                  (orDefault (precipitation_rate hour) 0)
                  thresholds avoidAllRain in
  mkSlot (time hour) (score assessment) (air_temperature hour)
         (wind_speed hour) (orDefault (precipitation_rate hour) 0)
         (temperature_ok assessment) (wind_ok assessment)
         (precipitation_ok assessment) (reason assessment).

(** The slots the handler computes from the hours of a successful
    forecast. *)
Definition scoreSlots (input : AssessOutdoorActivityInput)
  (hours : list ForecastHour) : list ComfortSlot :=
  let thresholds := getThresholds (activity input) (preferences input) in
  let avoidAllRain :=
    orDefault (match preferences input with
               | Some p => pref_avoidRain p
               | None => None
               end) false in
  map (scoreHour thresholds avoidAllRain) hours.

Record BestWindow : Type := mkWindow {
  window_from : string;
  window_to : string;
  duration_hours : Z
}.

(** [currentWindow]: the run of good slots being read. *)
Record CurrentWindow : Type := mkCurrent {
  current_from : string;
  current_to : string;
  current_count : Z
}.

(** [if (currentWindow && currentWindow.count >= 2) windows.push(...)]. *)
Definition closeWindow (windows : list BestWindow)
  (currentWindow : option CurrentWindow) : list BestWindow :=
  match currentWindow with
  | Some w =>
      if (2 <=? current_count w)%Z
      then (windows
            ++ [mkWindow (current_from w) (current_to w) (current_count w)])%list
      else windows
  | None => windows
  end.

Definition isGood (s : ComfortScore) : bool :=
  match s with
  | good => true
  | _ => false
  end.

(** One iteration of the loop of [identifyBestWindows]. *)
Definition windowStep (st : list BestWindow * option CurrentWindow)
  (slot : ComfortSlot) : list BestWindow * option CurrentWindow :=
  let '(windows, currentWindow) := st in
  if isGood (slot_score slot) then
    match currentWindow with
    | None =>
        (windows, Some (mkCurrent (slot_time slot) (slot_time slot) 1))
    | Some w =>
        (windows,
         Some (mkCurrent (current_from w) (slot_time slot)
                 (current_count w + 1)))
    end
  else (closeWindow windows currentWindow, None).

Definition identifyBestWindows (slots : list ComfortSlot)
  : list BestWindow :=
  let '(windows, currentWindow) := fold_left windowStep slots ([], None) in
  closeWindow windows currentWindow.

End Activity.

(** ** [src/places/types.ts] and [src/places/matcher.ts] *)
Module Places.

Import Js.
Local Open Scope string_scope.

Record PlaceRecord : Type := mkPlace {
  id : Z;
  ssr_id : string;
  primary_name : string;
  alt_names : option string;
  lat : Q;
  lon : Q;
  place_class : option string;
  municipality_code : option string;
  municipality_name : option string;
  county_name : option string;
  population : option Z;
  is_county_seat : Z;
  is_municipality_seat : Z;
  importance_score : option Q
}.

Inductive MatchType : Type := exact_primary | exact_alt | prefix | fuzzy.

(** [PlaceCandidate]: a record with its match metadata. *)
Record PlaceCandidate : Type := mkCandidate {
  record : PlaceRecord;
  matchType : MatchType;
  ftsRank : option Q
}.

Record PlaceMatch : Type := mkMatch {
  match_id : string;
  match_name : string;
  match_alt_names : option (list string);
  match_lat : Q;
  match_lon : Q;
  match_municipality_name : option string;
  match_municipality_code : option string;
  match_county_name : option string;
  match_place_class : option string;
  confidence : Q;
  match_source : string
}.

Record ResolveOptions : Type := mkOptions {
  query : string;
  limit : Z;
  preferredPlaceClasses : option (list string);
  preferredMunicipalityCode : option string
}.

(** The three lookups of [PlacesDB]; a full-text row carries its
    [fts_rank]. *)
Record PlacesDB : Type := mkDB {
  findExactPrimary : string -> list PlaceRecord;
  findExactAlt : string -> list PlaceRecord;
  findFTS : string -> Z -> list (PlaceRecord * Q)
}.

Definition seen_has (seen : list Z) (i : Z) : bool :=
  existsb (Z.eqb i) seen.

(** One of the three loops of [mergeCandidates]: rows whose id was already
    seen are dropped, the others are appended in order. *)
Fixpoint pushUnseen (R : Type) (rowId : R -> Z) (mk : R -> PlaceCandidate)
  (rows : list R) (seen : list Z) (candidates : list PlaceCandidate)
  : list Z * list PlaceCandidate :=
  match rows with
  | [] => (seen, candidates)
  | r :: rest =>
      if seen_has seen (rowId r)
      then pushUnseen rowId mk rest seen candidates
      else pushUnseen rowId mk rest (rowId r :: seen)
             (candidates ++ [mk r])%list
  end.

Definition mergeCandidates (exactPrimary exactAlt : list PlaceRecord)
  (ftsResults : list (PlaceRecord * Q)) : list PlaceCandidate :=
  let '(seen1, c1) :=
    pushUnseen id (fun r => mkCandidate r exact_primary None)
               exactPrimary [] [] in
  let '(seen2, c2) :=
    pushUnseen id (fun r => mkCandidate r exact_alt None)
               exactAlt seen1 c1 in
  let '(_, c3) :=
    pushUnseen (fun row => id (fst row))
      (fun row =>
         let matchType := if Qltb (snd row) 0 then prefix else fuzzy in
         mkCandidate (fst row) matchType (Some (Qabs (snd row))))
      ftsResults seen2 c2 in
  c3.

Definition includes (xs : list string) (x : string) : bool :=
  existsb (String.eqb x) xs.

Definition inMunicipality (code : string) (c : PlaceCandidate) : Z :=
  match municipality_code (record c) with
  | Some m => if String.eqb m code then 1 else 0
  | None => 0
  end%Z.

Definition applyFilters (candidates : list PlaceCandidate)
  (options : ResolveOptions) : list PlaceCandidate :=
  let filtered1 :=
    match preferredPlaceClasses options with
    | Some classes =>
        if (0 <? List.length classes)%nat then
          let preferred :=
            filter
              (fun c =>
                 match place_class (record c) with
                 | Some pc => truthy_string pc && includes classes pc
                 | None => false
                 end)
              candidates in
          if (0 <? List.length preferred)%nat then preferred else candidates
        else candidates
    | None => candidates
    end in
  let filtered2 :=
    match preferredMunicipalityCode options with
    | Some code =>
        if truthy_string code then
          Array_sort
            (fun a b => (inMunicipality code b - inMunicipality code a)%Z)
            filtered1
        else filtered1
    | None => filtered1
    end in
  slice0 filtered2 (limit options * 2).

Section WithJson.

(** [JSON.parse] on the [alt_names] column; [None] when it throws. *)
Variable JSON_parse : string -> option (list string).

(** The score of the candidate at position [index]. *)
Definition confidenceOf (candidate : PlaceCandidate) (index : Z) : Q :=
  let c0 :=
    match matchType candidate with
    | exact_primary => 1.0
    | exact_alt => 0.85
    | prefix => 0.70
    | fuzzy =>
        0.40 + Qmin 0.30 (match ftsRank candidate with
                          | Some r => r
                          | None => 0
                          end / 100)
    end in
  let c1 :=
    if (is_county_seat (record candidate) =? 1)%Z then c0 + 0.05 else c0 in
  let c2 :=
    if (is_municipality_seat (record candidate) =? 1)%Z
    then c1 + 0.03 else c1 in
  let c3 :=
    match importance_score (record candidate) with
    | Some s => if Qltb 0 s then c2 + Qmin 0.05 (s / 10) else c2
    | None => c2
    end in
  let c4 := c3 - inject_Z index * 0.01 in
  Qmax 0.0 (Qmin 1.0 c4).

Definition toMatch (candidate : PlaceCandidate) (index : Z) : PlaceMatch :=
  let r := record candidate in
  let altNames :=
    match alt_names r with
    | Some a => if truthy_string a then JSON_parse a else None
    | None => None
    end in
  mkMatch (ssr_id r) (primary_name r) altNames (lat r) (lon r)
    (or_else (municipality_name r) None)
    (or_else (municipality_code r) None)
    (or_else (county_name r) None)
    (or_else (place_class r) None)
    (confidenceOf candidate index)
    "SSR/Stedsnavn".

(** [candidates.map((candidate, index) => ...)], from position [index]. *)
Fixpoint mapWithIndex (candidates : list PlaceCandidate) (index : Z)
  : list PlaceMatch :=
  match candidates with
  | [] => []
  | c :: rest => toMatch c index :: mapWithIndex rest (index + 1)
  end.

Definition assignConfidence (candidates : list PlaceCandidate)
  (_query : string) : list PlaceMatch :=
  mapWithIndex candidates 0.

(** [normalizeNorwegian]: lower-casing, trimming, white-space collapsing
    and the country-suffix rule; it only decides which string the store is
    asked for. *)
Variable normalizeNorwegian : string -> string.

Definition resolveName (db : PlacesDB) (options : ResolveOptions)
  : list PlaceMatch :=
  let normalized := normalizeNorwegian (query options) in
  let exactPrimary := findExactPrimary db normalized in
  let exactAlt := findExactAlt db normalized in
  let ftsResults := findFTS db normalized (limit options * 3) in
  let candidates := mergeCandidates exactPrimary exactAlt ftsResults in
  let filtered := applyFilters candidates options in
  let scored := assignConfidence filtered (query options) in
  slice0 scored (limit options).

End WithJson.

End Places.

(** ** The specification's side of the time-window rule

    These definitions follow the words of the specification ("both must be
    valid RFC-3339 UTC timestamps with from < to"); no function of the
    sources computes them.  They are what the behaviour of
    [resolveTimeWindow] is compared with. *)
Module WindowSpec.

Import Js.
Local Open Scope string_scope.
Local Open Scope Z_scope.

Definition number (s : string) : option Z := natural_numeral s.

Definition is_leap (y : Z) : bool :=
  ((y mod 4 =? 0) && negb (y mod 100 =? 0)) || (y mod 400 =? 0).

Definition days_in_month (y m : Z) : Z :=
  if m =? 2 then (if is_leap y then 29 else 28)
  else if (m =? 4) || (m =? 6) || (m =? 9) || (m =? 11) then 30
  else 31.

(** Days from 1970-01-01 to the civil date [y-m-d]. *)
Definition days_from_civil (y m d : Z) : Z :=
  let y' := if m <=? 2 then y - 1 else y in
  let era := y' / 400 in
  let yoe := y' - era * 400 in
  let mp := (m + 9) mod 12 in
  let doy := (153 * mp + 2) / 5 + d - 1 in
  let doe := yoe * 365 + yoe / 4 - yoe / 100 + doy in
  era * 146097 + doe - 719468.

(** The fraction of a second, in milliseconds: [""] or ["." digits]. *)
Definition fraction_ms (s : string) : option Z :=
  match s with
  | EmptyString => Some 0
  | String "." r =>
      match number r with
      | Some _ => number (substring 0 3 (r ++ "000"))
      | None => None
      end
  | _ => None
  end.

(** [YYYY-MM-DDTHH:MM:SS(.fff)Z] to milliseconds since the epoch; [None]
    when the string is not a timestamp of this shape. *)
Definition parseUtcTimestamp (s : string) : option Z :=
  let n := String.length s in
  if (n <? 20)%nat then None
  else if negb (String.eqb (substring 4 1 s) "-"
                && String.eqb (substring 7 1 s) "-"
                && String.eqb (toUpperCase (substring 10 1 s)) "T"
                && String.eqb (substring 13 1 s) ":"
                && String.eqb (substring 16 1 s) ":"
                && String.eqb (toUpperCase (substring (n - 1) 1 s)) "Z")
  then None
  else
    match number (substring 0 4 s), number (substring 5 2 s),
          number (substring 8 2 s), number (substring 11 2 s),
          number (substring 14 2 s), number (substring 17 2 s),
          fraction_ms (substring 19 (n - 20) s) with
    | Some y, Some mo, Some d, Some h, Some mi, Some sec, Some ms =>
        if (1 <=? mo) && (mo <=? 12) && (1 <=? d)
           && (d <=? days_in_month y mo)
           && (h <=? 23) && (mi <=? 59) && (sec <=? 59)
        then Some ((((days_from_civil y mo d * 24 + h) * 60 + mi) * 60 + sec)
                   * 1000 + ms)
        else None
    | _, _, _, _, _, _, _ => None
    end.

(** "Both are valid RFC-3339 UTC timestamps with from < to". *)
Definition validAbsoluteWindow (from to : string) : bool :=
  match parseUtcTimestamp from, parseUtcTimestamp to with
  | Some a, Some b => a <? b
  | _, _ => false
  end.

End WindowSpec.

(** ** [src/tools/nowcast.ts] *)
Module Nowcast.

Import Js ErrorHandler ResponseBuilder CacheParser Coverage Schemas.
Local Open Scope string_scope.

Inductive PrecipitationIntensity : Type := none | light | moderate | heavy.

Definition intensityName (c : PrecipitationIntensity) : string :=
  match c with
  | none => "none"
  | light => "light"
  | moderate => "moderate"
  | heavy => "heavy"
  end.

Record NowcastInput : Type := mkNowcastInput {
  in_location : Coordinate;
  in_language : string
}.

Record NowcastPoint : Type := mkNowcastPoint {
  time : string;
  air_temperature : option Q;
  air_temperature_unit : option string;
  precipitation_rate : option Q;
  precipitation_unit : option string;
  precipitation_intensity_class : PrecipitationIntensity;
  symbol_code : string
}.

Record NowcastOutput : Type := mkNowcastOutput {
  source : SourceMetadata;
  out_location : Q * Q;
  out_timeWindow : ResolvedTimeWindow;
  hours : list NowcastPoint
}.

(** [next_1_hours]: [summary?.symbol_code] and [details?.precipitation_rate]
    (the [details] object also has a [precipitation_amount], never read). *)
Record MetNowcastNext1Hours : Type := mkNext1Hours {
  summary_symbol_code : option string;
  details_precipitation_rate : option Q
}.

Record MetNowcastTimeseries : Type := mkNowcastEntry {
  entry_time : string;
  instant_air_temperature : option Q;
  instant_precipitation_rate : option Q;
  next_1_hours : option MetNowcastNext1Hours
}.

(** [!precipitationRate] holds of [undefined] and of zero. *)
Definition classifyPrecipitation (precipitationRate : option Q)
  : PrecipitationIntensity :=
  match precipitationRate with
  | None => none
  | Some r =>
      if Qeqb r 0 then none
      else if Qltb r 2.5 then light
      else if Qltb r 10 then moderate
      else heavy
  end.

Section WithDateParser.

Variable Date_parse : string -> option Z.

(** [time > twoHoursLater]; false when [time] is an invalid date. *)
Definition beyondTwoHours (t : string) (now : Z) : bool :=
  match Date_parse t with
  | Some ms => (now + 2 * 60 * 60 * 1000 <? ms)%Z
  | None => false
  end.

Definition transformEntry (entry : MetNowcastTimeseries) : NowcastPoint :=
  let precipitationRate :=
    match match next_1_hours entry with
          | Some n => details_precipitation_rate n
          | None => None
          end with
    | Some r => Some r
    | None => instant_precipitation_rate entry
    end in
  let symbolCode :=
    match match next_1_hours entry with
          | Some n => summary_symbol_code n
          | None => None
          end with
    | Some c => c
    | None => "unknown"
    end in
  mkNowcastPoint (entry_time entry) (instant_air_temperature entry)
    (match instant_air_temperature entry with
     | Some _ => Some "C"
     | None => None
     end)
    precipitationRate
    (match precipitationRate with
     | Some _ => Some "mm/h"
     | None => None
     end)
    (classifyPrecipitation precipitationRate) symbolCode.

(** [now] is the clock reading taken inside the function. *)
Fixpoint transformMetResponse (timeseries : list MetNowcastTimeseries)
  (now : Z) : list NowcastPoint :=
  match timeseries with
  | [] => []
  | entry :: rest =>
      if beyondTwoHours (entry_time entry) now
      then transformMetResponse rest now
      else transformEntry entry :: transformMetResponse rest now
  end.

Definition coordText (location : Coordinate) : string :=
  toFixed 2 (lat location) ++ "°N, " ++ toFixed 2 (lon location) ++ "°E".

(** [s.charAt(0).toUpperCase() + s.slice(1)]. *)
Definition capitalize (s : string) : string :=
  match s with
  | EmptyString => EmptyString
  | String c r => String (upper_ascii c) r
  end.

Definition isClass (c : PrecipitationIntensity) (p : NowcastPoint) : bool :=
  String.eqb (intensityName (precipitation_intensity_class p))
             (intensityName c).

(** [nowSummary] is the value of [Date.now()] read in the function;
    [minutesUntil] is NaN, printed as such, when the time of the first
    point with precipitation is no date. *)
Definition generateSummary (location : Coordinate) (hours : list NowcastPoint)
  (nowSummary : Z) : string :=
  match hours with
  | [] => "No nowcast data available for " ++ coordText location ++ "."
  | _ =>
      let precipitationPoints :=
        filter (fun h => negb (isClass none h)) hours in
      match precipitationPoints with
      | [] =>
          "No precipitation expected in the next 2 hours at "
            ++ coordText location ++ "."
      | firstPoint :: _ =>
          let hasHeavy := existsb (isClass heavy) precipitationPoints in
          let hasModerate := existsb (isClass moderate) precipitationPoints in
          let intensityDescription :=
            if hasHeavy then "heavy"
            else if hasModerate then "moderate" else "light" in
          let minutesUntil :=
            match Date_parse (time firstPoint) with
            | Some startTime =>
                Some (Math_round
                        (inject_Z (startTime - nowSummary)
                         / inject_Z (1000 * 60)))
            | None => None
            end in
          let count :=
            Z_to_string (Z.of_nat (List.length precipitationPoints)) in
          match minutesUntil with
          | Some m =>
              if (m <=? 0)%Z then
                capitalize intensityDescription
                  ++ " precipitation ongoing or starting soon at "
                  ++ coordText location
                  ++ ". Expected to continue for next " ++ count
                  ++ " intervals."
              else
                capitalize intensityDescription
                  ++ " precipitation expected in " ++ Z_to_string m
                  ++ " minutes at " ++ coordText location
                  ++ ". Duration: " ++ count ++ " intervals."
          | None =>
              capitalize intensityDescription
                ++ " precipitation expected in NaN minutes at "
                ++ coordText location
                ++ ". Duration: " ++ count ++ " intervals."
          end
      end
  end.

Definition NowcastFetch : Type :=
  Q -> Q -> WeatherError + (list MetNowcastTimeseries * CacheMetadata).

Definition coverageMessage : string :=
  "Nowcast is only available for the Nordic region (roughly 55-72°N, 4-32°E). For global forecasts, use weather.get_location_forecast instead.".

(** The three clock readings of a call: inside [transformMetResponse], in
    the handler, and inside [generateSummary]. *)
Definition handleNowcast (fetch : NowcastFetch)
  (nowTransform nowHandler nowSummary : Z) (input : NowcastInput)
  : CallToolResult NowcastOutput :=
  let loc := in_location input in
  if negb (isNordic (lat loc) (lon loc)) then
    buildErrorResponse _
      (createOutOfCoverageError coverageMessage (lat loc, lon loc))
  else
    match fetch (lat loc) (lon loc) with
    | inl error => buildErrorResponse _ error
    | inr (timeseries, cache) =>
        let hours := transformMetResponse timeseries nowTransform in
        let sourceMetadata := buildSourceMetadata "Nowcast 2.0" cache in
        let output :=
          mkNowcastOutput
            (mkSource "MET Norway" "Nowcast 2.0"
               (licenseUri sourceMetadata) (creditLine sourceMetadata)
               (source_cached sourceMetadata)
               (source_ageSeconds sourceMetadata))
            (lat loc, lon loc)
            (mkResolved nowHandler (nowHandler + 2 * 60 * 60 * 1000))
            hours in
        buildToolResponse output (generateSummary loc hours nowSummary)
    end.

End WithDateParser.

End Nowcast.

(** ** [src/tools/air-quality.ts]: classification and transformation *)
Module AirQuality.

Import Js Schemas.
Local Open Scope string_scope.

Inductive AQICategory : Type := good | fair | moderate | poor | very_poor.

Record Pollutant : Type := mkPollutant {
  value : Q;
  unit : string
}.

Record AirQualityPoint : Type := mkAirPoint {
  time : string;
  aqi : AQICategory;
  aqi_numeric : option Q;
  dominant_pollutant : option string;
  pm25 : option Pollutant;
  pm10 : option Pollutant;
  no2 : option Pollutant;
  o3 : option Pollutant;
  advice : option string
}.

(** [MetAirQualityData['variables']]: the [value] of each variable that is
    present. *)
Record Variables : Type := mkVariables {
  AQI : option Q;
  AQI_no2 : option Q;
  AQI_o3 : option Q;
  AQI_pm10 : option Q;
  AQI_pm25 : option Q;
  pm25_concentration : option Q;
  pm10_concentration : option Q;
  no2_concentration : option Q;
  o3_concentration : option Q
}.

Record MetAirQualityData : Type := mkAirEntry {
  entry_time : string;
  variables : Variables
}.

Definition mapAQIToCategory (aqi : Q) : AQICategory :=
  if Qleb aqi 1 then good
  else if Qleb aqi 2 then fair
  else if Qleb aqi 3 then moderate
  else if Qleb aqi 4 then poor
  else very_poor.

(** The sign of a number, which is all a comparator's result is used for. *)
Definition Qsign (x : Q) : Z :=
  match (0 ?= x)%Q with
  | Lt => 1
  | Eq => 0
  | Gt => -1
  end.

Definition orZero (x : option Q) : Q :=
  match x with
  | Some v => v
  | None => 0
  end.

Definition getDominantPollutant (variables : Variables) : option string :=
  let pollutants :=
    [("PM2.5", AQI_pm25 variables); ("PM10", AQI_pm10 variables);
     ("NO2", AQI_no2 variables); ("O3", AQI_o3 variables)] in
  let sorted :=
    Array_sort
      (fun a b => Qsign (orZero (snd b) - orZero (snd a)))
      (filter (fun p => match snd p with Some _ => true | None => false end)
              pollutants) in
  match sorted with
  | p :: _ => Some (fst p)
  | [] => None
  end.

Definition generateAdvice (category : AQICategory) : string :=
  match category with
  | good => "Air quality is satisfactory. No health implications."
  | fair =>
      "Air quality is acceptable. Unusually sensitive individuals may experience minor symptoms."
  | moderate =>
      "Sensitive groups (children, elderly, respiratory conditions) should reduce prolonged outdoor activities."
  | poor =>
      "Everyone may begin to experience health effects. Sensitive groups should avoid outdoor activities."
  | very_poor =>
      "Health alert: everyone may experience serious health effects. Avoid outdoor activities."
  end.

Definition concentration (c : option Q) : option Pollutant :=
  match c with
  | Some v => Some (mkPollutant v "µg/m³")
  | None => None
  end.

Section WithDateParser.

Variable Date_parse : string -> option Z.

(** [fromTime && time < fromTime], [toTime && time > toTime]. *)
Definition outsideWindow (t : string) (timeWindow : option ResolvedTimeWindow)
  : bool :=
  match timeWindow, Date_parse t with
  | Some w, Some ms => (ms <? resolved_from w)%Z || (resolved_to w <? ms)%Z
  | _, _ => false
  end.

Fixpoint transformMetResponse (entries : list MetAirQualityData)
  (timeWindow : option ResolvedTimeWindow) : list AirQualityPoint :=
  match entries with
  | [] => []
  | entry :: rest =>
      if outsideWindow (entry_time entry) timeWindow
      then transformMetResponse rest timeWindow
      else
        match AQI (variables entry) with
        | None => transformMetResponse rest timeWindow
        | Some aqiNumeric =>
            let category := mapAQIToCategory aqiNumeric in
            mkAirPoint (entry_time entry) category (Some aqiNumeric)
              (getDominantPollutant (variables entry))
              (concentration (pm25_concentration (variables entry)))
              (concentration (pm10_concentration (variables entry)))
              (concentration (no2_concentration (variables entry)))
              (concentration (o3_concentration (variables entry)))
              (Some (generateAdvice category))
              :: transformMetResponse rest timeWindow
        end
  end.


End WithDateParser.

End AirQuality.

(** ** [src/tools/places-resolve.ts] *)
Module PlacesResolve.

Import Js Places.
Local Open Scope string_scope.

Record PlaceResolveInput : Type := mkResolveInput {
  input_query : string;
  input_limit : Z;
  input_preferredPlaceClasses : option (list string);
  input_preferredMunicipalityCode : option string;
  input_language : string
}.

Record PlaceSource : Type := mkPlaceSource {
  provider : string;
  product : string;
  licenseUri : string;
  creditLine : string;
  cached : bool;
  ageSeconds : Z
}.

Record PlaceResolveOutput : Type := mkResolveOutput {
  out_query : string;
  matches : list PlaceMatch;
  source : PlaceSource
}.

(** The tool's answer: one text block, the payload when there is one, and
    the [isError] mark when it is set. *)
Record ToolResponse : Type := mkToolResponse {
  text : string;
  structuredContent : option PlaceResolveOutput;
  isError : option bool
}.

Definition dquote : string := String (ascii_of_nat 34) EmptyString.
Definition LF : string := String (ascii_of_nat 10) EmptyString.

Definition truthy_opt (s : option string) : option string :=
  match s with
  | Some x => if truthy_string x then Some x else None
  | None => None
  end.

(** [xs.filter(Boolean)]. *)
Definition filterBoolean (xs : list (option string)) : list string :=
  flat_map (fun s => match truthy_opt s with
                     | Some x => [x]
                     | None => []
                     end) xs.

Definition coordinates (m : PlaceMatch) : string :=
  toFixed 4 (match_lat m) ++ "°N, " ++ toFixed 4 (match_lon m) ++ "°E".

Definition percent (m : PlaceMatch) : string :=
  toFixed 0 (confidence m * 100) ++ "%".

(** The loop over [others], from position [i]. *)
Fixpoint otherLines (others : list PlaceMatch) (i : Z) : string :=
  match others with
  | [] => ""
  | m :: rest =>
      Z_to_string (i + 2) ++ ". " ++ match_name m
      ++ match truthy_opt (match_municipality_name m) with
         | Some mn => " (" ++ mn ++ ")"
         | None => ""
         end
      ++ " - " ++ coordinates m
      ++ " [" ++ percent m ++ "]" ++ LF
      ++ otherLines rest (i + 1)
  end.

Definition generateSummary (query : string) (matches : list PlaceMatch)
  (language : string) : string :=
  match matches with
  | [] =>
      "No Norwegian places found matching " ++ dquote ++ query ++ dquote
      ++ ". Try a different spelling or nearby location."
  | topMatch :: rest =>
      if (List.length matches =? 1)%nat && Qgeb (confidence topMatch) 0.8
      then
        let location :=
          join ", " (filterBoolean [match_municipality_name topMatch;
                                    match_county_name topMatch]) in
        "Resolved " ++ dquote ++ query ++ dquote ++ " to "
        ++ match_name topMatch
        ++ (if truthy_string location then " (" ++ location ++ ")" else "")
        ++ " at coordinates " ++ coordinates topMatch
        ++ " (confidence: " ++ percent topMatch ++ ")."
      else
        let others := firstn 2 rest in
        "Found " ++ Z_to_string (Z.of_nat (List.length matches))
        ++ " places matching " ++ dquote ++ query ++ dquote ++ ":" ++ LF ++ LF
        ++ "1. " ++ match_name topMatch
        ++ match truthy_opt (match_municipality_name topMatch) with
           | Some mn =>
               " (" ++ mn
               ++ match truthy_opt (match_county_name topMatch) with
                  | Some cn => ", " ++ cn
                  | None => ""
                  end
               ++ ")"
           | None => ""
           end
        ++ " - " ++ coordinates topMatch
        ++ " [confidence: " ++ percent topMatch ++ "]" ++ LF
        ++ otherLines others 0
        ++ (if (3 <? List.length matches)%nat
            then LF ++ "...and "
                 ++ Z_to_string (Z.of_nat (List.length matches) - 3)
                 ++ " more."
            else "")
        ++ LF
        ++ "Please specify which location you mean, or use coordinates directly."
  end.

Section WithStore.

Variable JSON_parse : string -> option (list string).
Variable normalizeNorwegian : string -> string.

(** The handler, for a store whose lookups answer; the text of the failure
    branch of a throwing store is not modelled. *)
Definition handlePlaceResolve (input : PlaceResolveInput)
  (placesDB : PlacesDB) : ToolResponse :=
  let matches :=
    resolveName JSON_parse normalizeNorwegian placesDB
      (mkOptions (input_query input) (input_limit input)
         (input_preferredPlaceClasses input)
         (input_preferredMunicipalityCode input)) in
  if (List.length matches =? 0)%nat then
    mkToolResponse
      ("No Norwegian places found matching " ++ dquote ++ input_query input
       ++ dquote ++ ". Try:" ++ LF ++ "- Different spelling" ++ LF
       ++ "- Nearby larger town" ++ LF ++ "- Direct coordinates (lat/lon)")
      None (Some true)
  else
    let structuredContent :=
      mkResolveOutput (input_query input)
        (map (fun m =>
                mkMatch (match_id m) (match_name m) (match_alt_names m)
                  (match_lat m) (match_lon m) (match_municipality_name m)
                  (match_municipality_code m) (match_county_name m)
                  (match_place_class m) (confidence m) (match_source m))
             matches)
        (mkPlaceSource "Kartverket"
           "Stedsnavn (Norwegian Place Names Register)"
           "places://license/ssr"
           "Place name data from Kartverket Stedsnavn" true 0) in
    let textSummary :=
      generateSummary (input_query input)
        (PlacesResolve.matches structuredContent) (input_language input) in
    mkToolResponse textSummary (Some structuredContent) None.

End WithStore.

End PlacesResolve.

(** ** [src/domain/metrics.ts] *)
Module Metrics.

Import Js.
Local Open Scope string_scope.
Local Open Scope Z_scope.

(** A [Map] with string keys: its entries in insertion order. *)
Definition Map (V : Type) : Type := list (string * V).

Fixpoint Map_get (V : Type) (m : Map V) (k : string) : option V :=
  match m with
  | [] => None
  | (k', v) :: r => if String.eqb k' k then Some v else Map_get r k
  end.

Definition Map_has (V : Type) (m : Map V) (k : string) : bool :=
  match Map_get m k with
  | Some _ => true
  | None => false
  end.

(** [m.set(k, v)]: an existing key keeps its place. *)
Fixpoint Map_set (V : Type) (m : Map V) (k : string) (v : V) : Map V :=
  match m with
  | [] => [(k, v)]
  | (k', v') :: r =>
      if String.eqb k' k then (k', v) :: r else (k', v') :: Map_set r k v
  end.

Record LatencyMetric : Type := mkLatency {
  sum : Z;
  count : Z
}.

(** The collector; a [{ count }] object is its number.  The metric objects
    held by the maps are updated in place, which is the entry of the map
    being replaced. *)
Record MetricsCollector : Type := mkMetrics {
  toolCalls : Map (Map Z);
  latencies : Map LatencyMetric;
  cacheStatuses : Map Z
}.

Definition empty : MetricsCollector := mkMetrics [] [] [].

(** [if (!m.has(k)) m.set(k, { count: 0 }); m.get(k)!.count++]. *)
Definition increment (m : Map Z) (k : string) : Map Z :=
  let m1 := if Map_has m k then m else Map_set m k 0 in
  match Map_get m1 k with
  | Some c => Map_set m1 k (c + 1)
  | None => m1
  end.

Definition incrementToolCall (toolName outcome : string)
  (s : MetricsCollector) : MetricsCollector :=
  let calls1 :=
    if Map_has (toolCalls s) toolName then toolCalls s
    else Map_set (toolCalls s) toolName [] in
  match Map_get calls1 toolName with
  | Some outcomeMap =>
      mkMetrics (Map_set calls1 toolName (increment outcomeMap outcome))
                (latencies s) (cacheStatuses s)
  | None => mkMetrics calls1 (latencies s) (cacheStatuses s)
  end.

Definition recordLatency (toolName : string) (latencyMs : Z)
  (s : MetricsCollector) : MetricsCollector :=
  let lat1 :=
    if Map_has (latencies s) toolName then latencies s
    else Map_set (latencies s) toolName (mkLatency 0 0) in
  match Map_get lat1 toolName with
  | Some metric =>
      mkMetrics (toolCalls s)
                (Map_set lat1 toolName
                   (mkLatency (sum metric + latencyMs) (count metric + 1)))
                (cacheStatuses s)
  | None => mkMetrics (toolCalls s) lat1 (cacheStatuses s)
  end.

Definition incrementCacheStatus (status : string) (s : MetricsCollector)
  : MetricsCollector :=
  mkMetrics (toolCalls s) (latencies s) (increment (cacheStatuses s) status).

(** [x || 0]. *)
Definition orZero (x : option Z) : Z :=
  match x with
  | Some v => v
  | None => 0
  end.

(** The [cacheHitRatio] of [getMetrics]. *)
Definition cacheHitRatio (s : MetricsCollector) : Q :=
  let hits := orZero (Map_get (cacheStatuses s) "HIT") in
  let misses := orZero (Map_get (cacheStatuses s) "MISS") in
  let total := hits + misses in
  if 0 <? total then (inject_Z hits / inject_Z total)%Q else 0%Q.

End Metrics.

(** ** [src/domain/tool-wrapper.ts] *)
Module ToolWrapper.

Import Js ResponseBuilder Metrics.
Local Open Scope string_scope.

Section WithPayload.

Variable T : Type.

(** What the wrapper reads of a payload: [source.cached] when the payload
    has a [source] and its [cached] is a boolean. *)
Variable cachedOf : T -> option bool.

Definition extractCacheStatus (structuredContent : Structured T)
  : option string :=
  match structuredContent with
  | Payload data =>
      match cachedOf data with
      | Some true => Some "HIT"
      | Some false => Some "MISS"
      | None => None
      end
  | ErrorPayload _ => None
  end.

(** One wrapped call: what the handler did ([None] when it threw), the
    measured latency, and the collector before; the result is the
    collector after and what the caller gets ([None]: the error is thrown
    again). *)
Definition wrapTool (toolName : string)
  (handled : option (CallToolResult T)) (latencyMs : Z)
  (s : MetricsCollector) : MetricsCollector * option (CallToolResult T) :=
  match handled with
  | Some result =>
      let outcome := if isError_truthy result then "error" else "success" in
      let s1 := incrementToolCall toolName outcome s in
      let s2 := recordLatency toolName latencyMs s1 in
      let s3 :=
        if negb (isError_truthy result) then
          match extractCacheStatus (structuredContent result) with
          | Some cacheStatus => incrementCacheStatus cacheStatus s2
          | None => s2
          end
        else s2 in
      (s3, Some result)
  | None =>
      (recordLatency toolName latencyMs
         (incrementToolCall toolName "error" s), None)
  end.

End WithPayload.

End ToolWrapper.

(** ** Vocabulary of the properties

    Predicates and reference functions written after the wording of the
    specification; the sources contain no counterpart of them.  The
    properties of Part II compare the embedded code with them. *)
Module Spec.

Import Js.

(** The six numbers of a vessel's row of the threshold table, as
    [(wave, current)] for low, moderate and high. *)
Definition boundsAre (t : Marine.VesselThresholds)
  (lowWave lowCurrent modWave modCurrent highWave highCurrent : Q) : Prop :=
  (Marine.wave (Marine.lowBound t) == lowWave
   /\ Marine.current (Marine.lowBound t) == lowCurrent
   /\ Marine.wave (Marine.moderateBound t) == modWave
   /\ Marine.current (Marine.moderateBound t) == modCurrent
   /\ Marine.wave (Marine.highBound t) == highWave
   /\ Marine.current (Marine.highBound t) == highCurrent)%Q.

(** The trip verdict, clause by clause as the specification lists it. *)
Definition maxIs (r : Marine.RiskLevel) (w : MarineTrip.WaypointAssessment)
  : bool :=
  match MarineTrip.max_risk w, r with
  | Marine.low, Marine.low
  | Marine.moderate, Marine.moderate
  | Marine.high, Marine.high
  | Marine.extreme, Marine.extreme => true
  | _, _ => false
  end.

Definition maxAtLeastHigh (w : MarineTrip.WaypointAssessment) : bool :=
  maxIs Marine.high w || maxIs Marine.extreme w.

Definition tripVerdict (ws : list MarineTrip.WaypointAssessment)
  : MarineTrip.TripRiskLevel :=
  if existsb (maxIs Marine.extreme) ws then MarineTrip.extreme
  else if (2 <=? List.length (filter maxAtLeastHigh ws))%nat
  then MarineTrip.dangerous
  else if existsb (maxIs Marine.high) ws then MarineTrip.caution
  else if existsb (maxIs Marine.moderate) ws then MarineTrip.caution
  else MarineTrip.safe.

(** A marine tool whose successful envelopes hold no extreme hour. *)
Definition neverExtreme (marine : MarineTrip.MarineTool) : Prop :=
  forall k input out,
    ResponseBuilder.structuredContent (marine k input)
    = ResponseBuilder.Payload out ->
    forall p, In p (Marine.hours out) ->
              Marine.risk_level p <> Marine.extreme.

(** A scan of the hours of a waypoint that has met no extreme level. *)
Definition calmScan (st : MarineTrip.HourScan) : Prop :=
  MarineTrip.scan_maxRisk st <> Marine.extreme
  /\ forall h, In h (MarineTrip.scan_hotspots st) ->
               MarineTrip.risk_level h <> Marine.extreme.

(** The number of comfort dimensions a slot violates. *)
Definition violations (slot : Activity.ComfortSlot) : nat :=
  ((if Activity.slot_temperature_ok slot then 0 else 1)
   + (if Activity.slot_wind_ok slot then 0 else 1)
   + (if Activity.slot_precipitation_ok slot then 0 else 1))%nat.

(** "Ordering non-increasing in confidence". *)
Fixpoint nonIncreasing (l : list Q) : Prop :=
  match l with
  | x :: (y :: _) as r => (y <= x)%Q /\ nonIncreasing r
  | _ => True
  end.

(** The verdicts in increasing order of severity. *)
Definition tripRank (r : MarineTrip.TripRiskLevel) : Z :=
  match r with
  | MarineTrip.safe => 0
  | MarineTrip.caution => 1
  | MarineTrip.dangerous => 2
  | MarineTrip.extreme => 3
  end.

(** An hour whose level is high or above. *)
Definition isHighHour (h : Marine.MarineConditionsPoint) : bool :=
  (2 <=? MarineTrip.riskToNumeric (Marine.risk_level h))%Z.

Definition totalHighRiskHours (ws : list MarineTrip.WaypointAssessment) : Z :=
  fold_right (fun w acc => (MarineTrip.high_risk_hours w + acc)%Z) 0%Z ws.

(** The input the trip tool hands to the marine tool for a waypoint. *)
Definition marineInputFor (input : MarineTrip.AssessMarineTripInput)
  (wp : MarineTrip.Waypoint) : Marine.MarineConditionsInput :=
  Marine.mkMarineInput
    (Schemas.mkCoordinate (MarineTrip.lat wp) (MarineTrip.lon wp) None)
    (MarineTrip.timeWindow input) (MarineTrip.vesselType input)
    (MarineTrip.language input).

(** [a] summarises the hours the [k]-th marine call returned for [wp]. *)
Definition assessmentOf (marine : MarineTrip.MarineTool)
  (input : MarineTrip.AssessMarineTripInput) (k : nat)
  (wp : MarineTrip.Waypoint) (a : MarineTrip.WaypointAssessment) : Prop :=
  exists out,
    ResponseBuilder.structuredContent (marine k (marineInputFor input wp))
    = ResponseBuilder.Payload out
    /\ MarineTrip.waypoint a = wp
    /\ MarineTrip.hours_assessed a
       = Z.of_nat (List.length (Marine.hours out))
    /\ MarineTrip.high_risk_hours a
       = Z.of_nat (List.length (filter isHighHour (Marine.hours out)))
    /\ (forall h, In h (Marine.hours out) ->
          (MarineTrip.riskToNumeric (Marine.risk_level h)
           <= MarineTrip.riskToNumeric (MarineTrip.max_risk a))%Z)
    /\ (MarineTrip.max_risk a = Marine.low
        \/ exists h, In h (Marine.hours out)
                     /\ Marine.risk_level h = MarineTrip.max_risk a).

(** The assessments, one per sampled waypoint and in the same order, each
    from the marine call of its position. *)
Fixpoint assessedFrom (marine : MarineTrip.MarineTool)
  (input : MarineTrip.AssessMarineTripInput) (k : nat)
  (sampled : list (option MarineTrip.Waypoint))
  (ws : list MarineTrip.WaypointAssessment) : Prop :=
  match sampled, ws with
  | [], [] => True
  | Some wp :: sampled', a :: ws' =>
      assessmentOf marine input k wp a
      /\ assessedFrom marine input (S k) sampled' ws'
  | _, _ => False
  end.

(** The store id of a candidate. *)
Definition candidateId (c : Places.PlaceCandidate) : Z :=
  Places.id (Places.record c).

(** A candidate of the municipality [code]. *)
Definition inPreferredMunicipality (code : string) (c : Places.PlaceCandidate)
  : bool :=
  match Places.municipality_code (Places.record c) with
  | Some m => String.eqb m code
  | None => false
  end.

(** A candidate whose place class is one of [classes]. *)
Definition hasPreferredClass (classes : list string)
  (c : Places.PlaceCandidate) : bool :=
  match Places.place_class (Places.record c) with
  | Some pc => negb (String.eqb pc "") && existsb (String.eqb pc) classes
  | None => false
  end.

(** The candidates left by a class preference: those of a preferred class
    when there is one, all of them otherwise. *)
Definition classSelected (classes : option (list string))
  (candidates : list Places.PlaceCandidate) : list Places.PlaceCandidate :=
  match classes with
  | Some preferred =>
      match filter (hasPreferredClass preferred) candidates with
      | [] => candidates
      | selected => selected
      end
  | None => candidates
  end.

(** The candidates with those of the preferred municipality moved to the
    front, the order being kept otherwise. *)
Definition municipalityFirst (code : option string)
  (candidates : list Places.PlaceCandidate) : list Places.PlaceCandidate :=
  match code with
  | Some m =>
      if String.eqb m "" then candidates
      else (filter (inPreferredMunicipality m) candidates
            ++ filter (fun c => negb (inPreferredMunicipality m c))
                      candidates)%list
  | None => candidates
  end.

(** [xs] is [ys] with some elements left out, the order kept. *)
Inductive subsequence (A : Type) : list A -> list A -> Prop :=
| subsequence_nil : subsequence [] []
| subsequence_skip (y : A) (xs ys : list A) :
    subsequence xs ys -> subsequence xs (y :: ys)
| subsequence_keep (x : A) (xs ys : list A) :
    subsequence xs ys -> subsequence (x :: xs) (x :: ys).

(** The hours covered by a list of windows. *)
Definition totalDuration (ws : list Activity.BestWindow) : Z :=
  fold_right (fun w acc => (Activity.duration_hours w + acc)%Z) 0%Z ws.

Definition goodSlots (slots : list Activity.ComfortSlot) : Z :=
  Z.of_nat
    (List.length
       (filter (fun s => Activity.isGood (Activity.slot_score s)) slots)).

(** What the loop of [identifyBestWindows] maintains over the slots read
    so far. *)
Definition windowsInvariant (slots : list Activity.ComfortSlot)
  (st : list Activity.BestWindow * option Activity.CurrentWindow) : Prop :=
  (forall w, In w (fst st) -> (2 <= Activity.duration_hours w)%Z)
  /\ (totalDuration (fst st)
      + match snd st with
        | Some c => Activity.current_count c
        | None => 0
        end
      <= goodSlots slots)%Z
  /\ match snd st with
     | Some c => (1 <= Activity.current_count c)%Z
     | None => True
     end.

(** The air-quality categories from best to worst. *)
Definition aqiRank (c : AirQuality.AQICategory) : Z :=
  match c with
  | AirQuality.good => 0
  | AirQuality.fair => 1
  | AirQuality.moderate => 2
  | AirQuality.poor => 3
  | AirQuality.very_poor => 4
  end.

(** The pollutants that have a sub-index, in the order the code lists
    them, each with its sub-index. *)
Definition definedPollutants (v : AirQuality.Variables)
  : list (string * Q) :=
  let entry (name : string) (x : option Q) :=
    match x with
    | Some q => [(name, q)]
    | None => []
    end in
  (entry "PM2.5"%string (AirQuality.AQI_pm25 v)
   ++ entry "PM10"%string (AirQuality.AQI_pm10 v)
   ++ entry "NO2"%string (AirQuality.AQI_no2 v)
   ++ entry "O3"%string (AirQuality.AQI_o3 v))%list.

(** The running choice of a left-to-right scan for the largest key, an
    earlier element winning a tie. *)
Definition pickLarger (A : Type) (key : A -> Q) (best : option A) (x : A)
  : option A :=
  match best with
  | None => Some x
  | Some h => if Js.Qltb (key h) (key x) then Some x else Some h
  end.

(** Hotspots in order of decreasing level. *)
Definition byDecreasingRisk (a b : MarineTrip.RiskHotspot) : Prop :=
  (MarineTrip.riskToNumeric (MarineTrip.risk_level b)
   <= MarineTrip.riskToNumeric (MarineTrip.risk_level a))%Z.

(** A wrapped call as the collector sees it: the tool, what the handler
    did, and the measured latency. *)
Record Call (T : Type) : Type := mkCall {
  call_tool : string;
  call_handled : option (ResponseBuilder.CallToolResult T);
  call_latency : Z
}.

(** The collector after a sequence of wrapped calls. *)
Definition runCalls (T : Type) (cachedOf : T -> option bool)
  (calls : list (Call T)) (s : Metrics.MetricsCollector)
  : Metrics.MetricsCollector :=
  fold_left
    (fun s c =>
       fst (ToolWrapper.wrapTool cachedOf (call_tool c) (call_handled c)
              (call_latency c) s))
    calls s.

(** The reading of [mcp_tool_calls_total{tool_name, outcome}]. *)
Definition callCount (s : Metrics.MetricsCollector) (tool outcome : string)
  : Z :=
  match Metrics.Map_get (Metrics.toolCalls s) tool with
  | Some m => Metrics.orZero (Metrics.Map_get m outcome)
  | None => 0
  end.

(** The reading of [mcp_tool_latency_ms_count{tool_name}], and the sum
    behind the average. *)
Definition latencyCount (s : Metrics.MetricsCollector) (tool : string) : Z :=
  match Metrics.Map_get (Metrics.latencies s) tool with
  | Some l => Metrics.count l
  | None => 0
  end.

Definition latencySum (s : Metrics.MetricsCollector) (tool : string) : Z :=
  match Metrics.Map_get (Metrics.latencies s) tool with
  | Some l => Metrics.sum l
  | None => 0
  end.

Definition callsTo (T : Type) (tool : string) (calls : list (Call T))
  : list (Call T) :=
  filter (fun c => String.eqb (call_tool c) tool) calls.

Definition totalLatency (T : Type) (calls : list (Call T)) : Z :=
  fold_right (fun c acc => (call_latency c + acc)%Z) 0%Z calls.

End Spec.

(** ** Example data *)
Module Examples.

Import Places.
Local Open Scope string_scope.

(** A store in which two places carry the queried alternative name: a
    town, and a smaller county seat. *)
Definition vikTown : PlaceRecord :=
  mkPlace 1 "ssr-1" "Vik" (Some "[]") 61 6 (Some "town") (Some "4640")
          (Some "Vik") (Some "Vestland") (Some 2700%Z) 0 0 (Some 1).

Definition vikSeat : PlaceRecord :=
  mkPlace 2 "ssr-2" "Vikøyri" (Some "[]") 61 6 (Some "village")
          (Some "4640") (Some "Vik") (Some "Vestland") (Some 1200%Z) 1 0
          (Some (9 # 10)).

Definition vikStore : PlacesDB :=
  mkDB (fun _ => []) (fun _ => [vikTown; vikSeat]) (fun _ _ => []).

Definition vikQuery : ResolveOptions := mkOptions "vik" 5 None None.

(** A two-entry ocean forecast for a position on the western coast: one
    entry inside the next day, one ten days out. *)
Definition bergenSeries : list Marine.MetOceanforecastData :=
  [Marine.mkOceanEntry "2025-01-01T06:00:00Z" (Some 270) (Some 0.9) (Some 0.2)
     (Some 6) (Some 90);
   Marine.mkOceanEntry "2025-01-11T06:00:00Z" None None None None None].

Definition bergenFetch : Marine.OceanFetch :=
  fun _ _ => inr (bergenSeries, CacheParser.mkCache true (Some 12%Z)
                                  (Some CacheParser.HIT)).

(** 2025-01-01T00:00:00Z in milliseconds. *)
Definition newYear2025 : Z := 1735689600000.

Definition bergenInput : Marine.MarineConditionsInput :=
  Marine.mkMarineInput (Schemas.mkCoordinate 60.4 5.3 None)
    (Some (Schemas.mkTimeWindow None None None (Some Schemas.next_7d)))
    Marine.kayak "en".

Definition newYorkInput : Marine.MarineConditionsInput :=
  Marine.mkMarineInput (Schemas.mkCoordinate 40.71 (-74.01) None) None
    Marine.kayak "en".

(** A two-waypoint trip on the western coast, and one that starts far
    outside the coastal fence. *)
Definition bergenTool : MarineTrip.MarineTool :=
  fun _ =>
    Marine.handleMarineConditions WindowSpec.parseUtcTimestamp bergenFetch
      newYear2025.

Definition fjordTrip : MarineTrip.AssessMarineTripInput :=
  MarineTrip.mkTripInput
    [MarineTrip.mkWaypoint 60.4 5.3 (Some "Bergen");
     MarineTrip.mkWaypoint 60.1 5.1 None]
    Marine.kayak None "en".

Definition atlanticTrip : MarineTrip.AssessMarineTripInput :=
  MarineTrip.mkTripInput
    [MarineTrip.mkWaypoint 60.4 5.3 (Some "Bergen");
     MarineTrip.mkWaypoint 40.71 (-74.01) (Some "New York")]
    Marine.ship None "en".

(** Three candidates: two of municipality 4640, one of 4601. *)
Definition bergenCity : Places.PlaceRecord :=
  Places.mkPlace 3 "ssr-3" "Bergen" None 60.39 5.32 (Some "city")
    (Some "4601") (Some "Bergen") (Some "Vestland") (Some 285000%Z) 1 1
    (Some 9).

Definition threeCandidates : list Places.PlaceCandidate :=
  [Places.mkCandidate bergenCity Places.exact_primary None;
   Places.mkCandidate vikTown Places.exact_alt None;
   Places.mkCandidate vikSeat Places.prefix (Some 2)].

(** A store with one row per lookup. *)
Definition osloStore : Places.PlacesDB :=
  Places.mkDB (fun _ => [bergenCity]) (fun _ => [vikTown])
    (fun _ _ => [(vikSeat, (-3) # 2)]).

(** A nowcast series: an entry an hour back with rain, one in an hour,
    one in three hours. *)
Definition osloNowcast : list Nowcast.MetNowcastTimeseries :=
  [Nowcast.mkNowcastEntry "2024-12-31T23:00:00Z" (Some 1) (Some 3)
     (Some (Nowcast.mkNext1Hours (Some "rain") None));
   Nowcast.mkNowcastEntry "2025-01-01T01:00:00Z" (Some 1) None None;
   Nowcast.mkNowcastEntry "2025-01-01T03:00:00Z" None (Some 12) None].

Definition osloNowcastFetch : Nowcast.NowcastFetch :=
  fun _ _ => inr (osloNowcast, CacheParser.mkCache false None
                                 (Some CacheParser.MISS)).

Definition osloNowcastInput : Nowcast.NowcastInput :=
  Nowcast.mkNowcastInput (Schemas.mkCoordinate 59.91 10.75 None) "en".

Definition vikInput : PlacesResolve.PlaceResolveInput :=
  PlacesResolve.mkResolveInput "vik" 5 None None "en".

Definition cityAir : AirQuality.Variables :=
  AirQuality.mkVariables (Some 2.4) (Some 2.4) None (Some 1.1) (Some 2.4)
    (Some 14) None None None.

End Examples.

(* ================================================================== *)
(** * Part II: the properties                                          *)
(* ================================================================== *)

Import Js.

(** ** Facts about the primitives *)

Lemma Qgeb_true_iff (a b : Q) : Qgeb a b = true <-> (b <= a)%Q.
Proof. unfold Qgeb. apply Qle_bool_iff. Qed.

Lemma Qleb_true_iff (a b : Q) : Qleb a b = true <-> (a <= b)%Q.
Proof. unfold Qleb. apply Qle_bool_iff. Qed.

Lemma Qltb_true_iff (a b : Q) : Qltb a b = true <-> (a < b)%Q.
Proof.
  unfold Qltb. rewrite negb_true_iff. split; intro H.
  - apply Qnot_le_lt. intro L. apply Qle_bool_iff in L. congruence.
  - destruct (Qle_bool b a) eqn:E; [|reflexivity].
    apply Qle_bool_iff in E. exfalso. exact (Qlt_not_le _ _ H E).
Qed.

Lemma Qeqb_true_iff (a b : Q) : Qeqb a b = true <-> (a == b)%Q.
Proof. unfold Qeqb. apply Qeq_bool_iff. Qed.

Lemma Qgeb_false_iff (a b : Q) : Qgeb a b = false <-> (a < b)%Q.
Proof.
  split; intro H.
  - apply Qnot_le_lt. intro L. apply Qgeb_true_iff in L. congruence.
  - destruct (Qgeb a b) eqn:E; [|reflexivity].
    apply Qgeb_true_iff in E. exfalso. exact (Qlt_not_le _ _ H E).
Qed.

(** ** Error taxonomy: retryability is a function of the code *)

Section ErrorTaxonomy.

Import ErrorHandler.

(** C5.  For every error record built by [createWeatherError], [retryable]
    is true exactly when the code is [RATE_LIMITED] or
    [MET_API_UNAVAILABLE] (the upstream-unavailable code), and it is false
    for [INVALID_INPUT], [OUT_OF_COVERAGE] and [INTERNAL_ERROR]; the same
    holds of the records built by the other constructors of the taxonomy,
    which all go through [createWeatherError]. *)
Theorem createWeatherError_retryable_by_code :
  forall (c : ErrorCode) (m : string) (d : option ErrorDetails),
    code (createWeatherError c m d) = c
    /\ (retryable (createWeatherError c m d) = true
        <-> (c = RATE_LIMITED \/ c = MET_API_UNAVAILABLE))
    /\ retryable (createWeatherError RATE_LIMITED m d) = true
    /\ retryable (createWeatherError MET_API_UNAVAILABLE m d) = true
    /\ retryable (createWeatherError INVALID_INPUT m d) = false
    /\ retryable (createWeatherError OUT_OF_COVERAGE m d) = false
    /\ retryable (createWeatherError INTERNAL_ERROR m d) = false
    /\ (forall status statusText headers rid,
           let e := handleHttpError status statusText headers rid in
           retryable e = true
           <-> (code e = RATE_LIMITED \/ code e = MET_API_UNAVAILABLE))
    /\ (forall msg rid,
           let e := handleNetworkError msg rid in
           code e = MET_API_UNAVAILABLE /\ retryable e = true)
    /\ (forall msg loc,
           let e := createOutOfCoverageError msg loc in
           code e = OUT_OF_COVERAGE /\ retryable e = false).
Proof.
  intros c m d.
  assert (K : forall c' m' d',
             retryable (createWeatherError c' m' d') = true
             <-> (c' = RATE_LIMITED \/ c' = MET_API_UNAVAILABLE)).
  { intros c' m' d'. destruct c'; simpl; split; intro H;
      try discriminate; auto;
      destruct H as [H | H]; discriminate. }
  repeat split; try reflexivity; apply K.
Qed.

End ErrorTaxonomy.

(** ** Error envelopes *)

Section ErrorEnvelope.

Import ErrorHandler ResponseBuilder.
Local Open Scope string_scope.

(** C10.  The summary of an error envelope is the message followed by
    " Retry after N seconds." when [details.retryAfterSeconds] is present
    and non-zero; when it is absent or equal to 0 the summary is the bare
    message.  The structured field always holds the whole error record and
    [isError] is set. *)
Theorem buildErrorResponse_retry_suffix :
  forall (T : Type) (error : WeatherError),
    structuredContent (buildErrorResponse T error) = ErrorPayload error
    /\ isError (buildErrorResponse T error) = Some true
    /\ (forall n : Z,
           retryAfterField error = Some n -> n <> 0%Z ->
           content (buildErrorResponse T error)
           = [mkText (message error ++ " Retry after " ++ Z_to_string n
                        ++ " seconds.")])
    /\ (retryAfterField error = Some 0%Z ->
        content (buildErrorResponse T error) = [mkText (message error)])
    /\ (retryAfterField error = None ->
        content (buildErrorResponse T error) = [mkText (message error)]).
Proof.
  intros T error. unfold buildErrorResponse, truthy_retryAfter.
  simpl. repeat split.
  - intros n Hn Hz. rewrite Hn.
    destruct (Z.eqb_spec n 0); [contradiction|reflexivity].
  - intro H0. rewrite H0. reflexivity.
  - intro HN. rewrite HN. reflexivity.
Qed.

(** A rate-limit reply with [Retry-After: 30], end to end. *)
Example rate_limited_envelope :
  let e := handleHttpError 429 "Too Many Requests"
             (Some (fun n => if String.eqb n "Retry-After"
                             then Some "30" else None))
             None in
  code e = RATE_LIMITED /\ retryable e = true
  /\ content (buildErrorResponse unit e)
     = [mkText
          "Rate limit exceeded. Please try again later. Retry after 30 seconds."].
Proof. repeat split. Qed.

(** [Retry-After: 0] is recorded in the details and leaves no suffix. *)
Example retry_after_zero_envelope :
  let e := handleHttpError 429 "Too Many Requests"
             (Some (fun n => if String.eqb n "Retry-After"
                             then Some "0" else None))
             None in
  retryAfterField e = Some 0%Z
  /\ content (buildErrorResponse unit e)
     = [mkText "Rate limit exceeded. Please try again later."].
Proof. repeat split. Qed.

End ErrorEnvelope.

(** ** Cache headers *)

Section CacheHeaders.

Import ErrorHandler CacheParser.
Local Open Scope string_scope.

Lemma toUpperCase_nonempty (h : string) :
  toUpperCase h <> "" -> truthy_string h = true.
Proof. destruct h; simpl; [congruence | reflexivity]. Qed.

Lemma knownStatus_none (v : string) :
  v <> "HIT" -> v <> "EXPIRED" -> v <> "MISS" -> v <> "BYPASS" ->
  knownStatus v = None
  /\ (String.eqb v "HIT" || String.eqb v "EXPIRED") = false.
Proof.
  intros H1 H2 H3 H4. unfold knownStatus.
  apply String.eqb_neq in H1, H2, H3, H4.
  rewrite H1, H2, H3, H4. split; reflexivity.
Qed.

(** What [parseInt] reads from a header that starts with digits: the
    digits, whatever follows them. *)
Lemma leading_digits_app (ds rest : string) (acc : option Z) :
  (forall c r, rest = String c r -> digit_of c = None) ->
  leading_digits (ds ++ rest) acc
  = match leading_digits ds acc with
    | Some v => Some v
    | None => None
    end.
Proof.
  intros Hrest. revert acc. induction ds as [|c ds IH]; intro acc; simpl.
  - destruct rest as [|c r]; simpl.
    + destruct acc; reflexivity.
    + rewrite (Hrest c r eq_refl). destruct acc; reflexivity.
  - destruct (digit_of c); [apply IH | destruct acc; reflexivity].
Qed.

Lemma parseCacheHeaders_cached (headers : Headers) :
  cached (parseCacheHeaders headers)
  = match headers "X-Proxy-Cache" with
    | Some h =>
        truthy_string h
        && (String.eqb (toUpperCase h) "HIT"
            || String.eqb (toUpperCase h) "EXPIRED")
    | None => false
    end.
Proof.
  unfold parseCacheHeaders.
  destruct (headers "X-Proxy-Cache") as [h|];
    [destruct (truthy_string h)|]; reflexivity.
Qed.

Lemma parseCacheHeaders_status (headers : Headers) :
  status (parseCacheHeaders headers)
  = match headers "X-Proxy-Cache" with
    | Some h => if truthy_string h then knownStatus (toUpperCase h) else None
    | None => None
    end.
Proof.
  unfold parseCacheHeaders.
  destruct (headers "X-Proxy-Cache") as [h|];
    [destruct (truthy_string h)|]; reflexivity.
Qed.

Lemma parseCacheHeaders_age (headers : Headers) :
  ageSeconds (parseCacheHeaders headers)
  = match headers "Age" with
    | Some a =>
        if truthy_string a then
          match parseInt10 a with
          | Some parsed => if (0 <=? parsed)%Z then Some parsed else None
          | None => None
          end
        else None
    | None => None
    end.
Proof.
  unfold parseCacheHeaders.
  destruct (headers "X-Proxy-Cache") as [h|];
    [destruct (truthy_string h)|]; reflexivity.
Qed.

(** C6, as amended.  The proxy-status header, compared without regard to
    case, gives [cached = true] with its status for HIT and EXPIRED,
    [cached = false] with its status for MISS and BYPASS, and
    [cached = false] with no status for any other value or when it is
    absent.  The Age header gives [ageSeconds = n] exactly when [parseInt]
    reads the integer [n] from its beginning and [n >= 0]: "0" gives 0 and
    "120.5" gives 120, while "-1", "abc" and an absent header give
    [undefined]. *)
Theorem parseCacheHeaders_by_header :
  forall headers : Headers,
    (forall h, headers "X-Proxy-Cache" = Some h -> toUpperCase h = "HIT" ->
       cached (parseCacheHeaders headers) = true
       /\ status (parseCacheHeaders headers) = Some HIT)
    /\ (forall h, headers "X-Proxy-Cache" = Some h ->
          toUpperCase h = "EXPIRED" ->
          cached (parseCacheHeaders headers) = true
          /\ status (parseCacheHeaders headers) = Some EXPIRED)
    /\ (forall h, headers "X-Proxy-Cache" = Some h -> toUpperCase h = "MISS" ->
          cached (parseCacheHeaders headers) = false
          /\ status (parseCacheHeaders headers) = Some MISS)
    /\ (forall h, headers "X-Proxy-Cache" = Some h ->
          toUpperCase h = "BYPASS" ->
          cached (parseCacheHeaders headers) = false
          /\ status (parseCacheHeaders headers) = Some BYPASS)
    /\ (forall h, headers "X-Proxy-Cache" = Some h ->
          toUpperCase h <> "HIT" -> toUpperCase h <> "EXPIRED" ->
          toUpperCase h <> "MISS" -> toUpperCase h <> "BYPASS" ->
          cached (parseCacheHeaders headers) = false
          /\ status (parseCacheHeaders headers) = None)
    /\ (headers "X-Proxy-Cache" = None ->
        cached (parseCacheHeaders headers) = false
        /\ status (parseCacheHeaders headers) = None)
    /\ (forall a n, headers "Age" = Some a ->
          (ageSeconds (parseCacheHeaders headers) = Some n
           <-> (parseInt10 a = Some n /\ (0 <= n)%Z)))
    /\ (headers "Age" = None ->
        ageSeconds (parseCacheHeaders headers) = None)
    /\ (forall a, headers "Age" = Some a ->
          (a = "0" -> ageSeconds (parseCacheHeaders headers) = Some 0%Z)
          /\ (a = "120.5" ->
              ageSeconds (parseCacheHeaders headers) = Some 120%Z)
          /\ (a = "-1" -> ageSeconds (parseCacheHeaders headers) = None)
          /\ (a = "abc" -> ageSeconds (parseCacheHeaders headers) = None)).
Proof.
  intro headers.
  rewrite parseCacheHeaders_cached, parseCacheHeaders_status,
    parseCacheHeaders_age.
  assert (known : forall h v, toUpperCase h = v -> v <> "" ->
                    truthy_string h = true).
  { intros h v E N. apply toUpperCase_nonempty. congruence. }
  split; [|split; [|split; [|split; [|split; [|split; [|split; [|split]]]]]]].
  - intros h Hh Hv. rewrite Hh, (known h _ Hv ltac:(discriminate)), Hv.
    split; reflexivity.
  - intros h Hh Hv. rewrite Hh, (known h _ Hv ltac:(discriminate)), Hv.
    split; reflexivity.
  - intros h Hh Hv. rewrite Hh, (known h _ Hv ltac:(discriminate)), Hv.
    split; reflexivity.
  - intros h Hh Hv. rewrite Hh, (known h _ Hv ltac:(discriminate)), Hv.
    split; reflexivity.
  - intros h Hh N1 N2 N3 N4. rewrite Hh.
    destruct (knownStatus_none N1 N2 N3 N4) as [E1 E2]. rewrite E1, E2.
    destruct (truthy_string h); split; reflexivity.
  - intros Hn. rewrite Hn. split; reflexivity.
  - intros a n Ha. rewrite Ha. split.
    + intro E. destruct (truthy_string a); [|discriminate].
      destruct (parseInt10 a) as [p|]; [|discriminate].
      destruct (Z.leb_spec 0 p); [|discriminate].
      injection E as <-. split; [reflexivity | assumption].
    + intros [P N].
      assert (T : truthy_string a = true).
      { destruct a; [discriminate P | reflexivity]. }
      rewrite T, P. apply Z.leb_le in N. rewrite N. reflexivity.
  - intros Hn. rewrite Hn. reflexivity.
  - intros a Ha. rewrite Ha.
    repeat split; intros ->; reflexivity.
Qed.

(** The claim as first stated asks that the Age header itself be a
    non-negative integer whenever [ageSeconds] is set.  The header "120.5"
    is not one, and it is read as 120 (the repository's test "should parse
    Age header with decimal (truncated to integer)" expects exactly this). *)
Lemma parseCacheHeaders_age_fraction_read :
  natural_numeral "120.5" = None
  /\ ageSeconds
       (parseCacheHeaders
          (fun name => if String.eqb name "Age" then Some "120.5" else None))
     = Some 120%Z.
Proof. split; reflexivity. Qed.

Lemma digit_not_space_or_sign (c : ascii) (d : Z) :
  digit_of c = Some d ->
  is_space c = false /\ c <> "-"%char /\ c <> "+"%char.
Proof.
  destruct c as [[] [] [] [] [] [] [] []]; cbv; intro H;
    try discriminate H; repeat split; discriminate.
Qed.

Lemma digits_value_leading (ds : string) :
  forall a v, digits_value ds a = Some v ->
              leading_digits ds (Some a) = Some v.
Proof.
  induction ds as [|c ds IH]; intros a v H; simpl in *.
  - exact H.
  - destruct (digit_of c); [apply IH; exact H | discriminate].
Qed.

(** A header that begins with a numeral and goes on with anything that is
    not a digit is read as that numeral. *)
Lemma parseInt10_digit_prefix (ds rest : string) (v : Z) :
  natural_numeral ds = Some v ->
  (forall c r, rest = String c r -> digit_of c = None) ->
  parseInt10 (ds ++ rest) = Some v.
Proof.
  intros Hv Hrest. destruct ds as [|c ds]; [discriminate|].
  cbn [natural_numeral digits_value] in Hv.
  destruct (digit_of c) as [d|] eqn:Ed; [|discriminate].
  destruct (digit_not_space_or_sign c Ed) as (Hs & Hm & Hp).
  unfold parseInt10. cbn [append skip_spaces]. rewrite Hs.
  assert (L : leading_digits (String c ds ++ rest) None = Some v).
  { rewrite leading_digits_app by exact Hrest.
    cbn [leading_digits]. rewrite Ed.
    replace (10 * 0 + d)%Z with d in Hv by lia.
    rewrite (digits_value_leading ds _ Hv). reflexivity. }
  cbn [append] in L.
  destruct c as [[] [] [] [] [] [] [] []]; try exact L;
    first [exfalso; apply Hm; reflexivity | exfalso; apply Hp; reflexivity].
Qed.

Example status_is_case_insensitive :
  let only v := fun name : string =>
                  if String.eqb name "X-Proxy-Cache" then Some v else None in
  parseCacheHeaders (only "hit") = mkCache true None (Some HIT)
  /\ parseCacheHeaders (only "Expired") = mkCache true None (Some EXPIRED)
  /\ parseCacheHeaders (only "miss") = mkCache false None (Some MISS)
  /\ parseCacheHeaders (only "ByPass") = mkCache false None (Some BYPASS)
  /\ parseCacheHeaders (only "STALE") = mkCache false None None
  /\ parseCacheHeaders (only "") = mkCache false None None.
Proof. repeat split. Qed.

End CacheHeaders.

(** ** Marine risk per point *)

Section MarineRisk.

Import Marine.

Lemma assessRiskLevel_level (w c : Q) (v : VesselType) :
  level (assessRiskLevel w c v)
  = if Qgeb w (wave (highBound (RISK_THRESHOLDS v)))
       || Qgeb c (current (highBound (RISK_THRESHOLDS v)))
    then high
    else if Qgeb w (wave (moderateBound (RISK_THRESHOLDS v)))
            || Qgeb c (current (moderateBound (RISK_THRESHOLDS v)))
    then moderate
    else low.
Proof.
  unfold assessRiskLevel.
  destruct (Qgeb w (wave (highBound (RISK_THRESHOLDS v)))
            || Qgeb c (current (highBound (RISK_THRESHOLDS v)))); [reflexivity|].
  destruct (Qgeb w (wave (moderateBound (RISK_THRESHOLDS v)))
            || Qgeb c (current (moderateBound (RISK_THRESHOLDS v))));
    [reflexivity|].
  destruct (Qgeb w (wave (lowBound (RISK_THRESHOLDS v)))
            || Qgeb c (current (lowBound (RISK_THRESHOLDS v)))); reflexivity.
Qed.

Lemma either_bound_iff (w c bw bc : Q) :
  Qgeb w bw || Qgeb c bc = true <-> (bw <= w \/ bc <= c)%Q.
Proof.
  rewrite orb_true_iff, !Qgeb_true_iff. reflexivity.
Qed.

(** C4.  The level is high when the wave height reaches the vessel's high
    wave bound or the current its high current bound, else moderate when
    either reaches its moderate bound, else low; a value exactly at a bound
    reaches it; and the table of bounds is the one of the specification. *)
Theorem assessRiskLevel_tiers :
  forall (w c : Q) (v : VesselType),
    let t := RISK_THRESHOLDS v in
    let reachesHigh :=
      (wave (highBound t) <= w \/ current (highBound t) <= c)%Q in
    let reachesModerate :=
      (wave (moderateBound t) <= w \/ current (moderateBound t) <= c)%Q in
    (reachesHigh -> level (assessRiskLevel w c v) = high)
    /\ (~ reachesHigh -> reachesModerate ->
        level (assessRiskLevel w c v) = moderate)
    /\ (~ reachesHigh -> ~ reachesModerate ->
        level (assessRiskLevel w c v) = low)
    /\ level (assessRiskLevel (wave (highBound t)) c v) = high
    /\ level (assessRiskLevel w (current (highBound t)) v) = high
    /\ ((c < current (highBound t))%Q ->
        level (assessRiskLevel (wave (moderateBound t)) c v) = moderate)
    /\ ((w < wave (highBound t))%Q ->
        level (assessRiskLevel w (current (moderateBound t)) v) = moderate)
    /\ Spec.boundsAre (RISK_THRESHOLDS kayak)
         (3 # 10) (5 # 10) (5 # 10) 1 (8 # 10) (15 # 10)
    /\ Spec.boundsAre (RISK_THRESHOLDS small_sailboat)
         (5 # 10) 1 1 2 (15 # 10) 3
    /\ Spec.boundsAre (RISK_THRESHOLDS motorboat)
         (8 # 10) (15 # 10) (15 # 10) (25 # 10) 2 4
    /\ Spec.boundsAre (RISK_THRESHOLDS ship)
         2 3 (35 # 10) 5 5 7.
Proof.
  intros w c v t reachesHigh reachesModerate.
  assert (tiers : forall w' c',
             ((wave (highBound t) <= w' \/ current (highBound t) <= c')%Q ->
              level (assessRiskLevel w' c' v) = high)
             /\ (~ (wave (highBound t) <= w' \/ current (highBound t) <= c')%Q ->
                 (wave (moderateBound t) <= w'
                  \/ current (moderateBound t) <= c')%Q ->
                 level (assessRiskLevel w' c' v) = moderate)
             /\ (~ (wave (highBound t) <= w' \/ current (highBound t) <= c')%Q ->
                 ~ (wave (moderateBound t) <= w'
                    \/ current (moderateBound t) <= c')%Q ->
                 level (assessRiskLevel w' c' v) = low)).
  { intros w' c'. rewrite assessRiskLevel_level. fold t.
    destruct (Qgeb w' (wave (highBound t))
              || Qgeb c' (current (highBound t))) eqn:EH.
    - apply either_bound_iff in EH. repeat split; intros; tauto.
    - assert (NH : ~ (wave (highBound t) <= w'
                      \/ current (highBound t) <= c')%Q).
      { intro H. apply either_bound_iff in H. congruence. }
      destruct (Qgeb w' (wave (moderateBound t))
                || Qgeb c' (current (moderateBound t))) eqn:EM.
      + apply either_bound_iff in EM. repeat split; intros; tauto.
      + assert (NM : ~ (wave (moderateBound t) <= w'
                        \/ current (moderateBound t) <= c')%Q).
        { intro H. apply either_bound_iff in H. congruence. }
        repeat split; intros; tauto. }
  assert (ordered : (wave (moderateBound t) < wave (highBound t)
                     /\ current (moderateBound t) < current (highBound t))%Q).
  { subst t. destruct v; split; reflexivity. }
  destruct (tiers w c) as (T1 & T2 & T3).
  split; [exact T1|]. split; [exact T2|]. split; [exact T3|].
  split; [apply tiers; left; apply Qle_refl|].
  split; [apply tiers; right; apply Qle_refl|].
  split.
  { intro Hc. apply tiers.
    - intros [H | H].
      + exact (Qlt_not_le _ _ (proj1 ordered) H).
      + exact (Qlt_not_le _ _ Hc H).
    - left. apply Qle_refl. }
  split.
  { intro Hw. apply tiers.
    - intros [H | H].
      + exact (Qlt_not_le _ _ Hw H).
      + exact (Qlt_not_le _ _ (proj2 ordered) H).
    - right. apply Qle_refl. }
  unfold Spec.boundsAre. cbn. repeat split; reflexivity.
Qed.

(** The classifier never answers [extreme]. *)
Lemma assessRiskLevel_not_extreme (w c : Q) (v : VesselType) :
  level (assessRiskLevel w c v) <> extreme.
Proof.
  rewrite assessRiskLevel_level.
  destruct (_ || _); [discriminate|].
  destruct (_ || _); discriminate.
Qed.

End MarineRisk.

(** ** Trip verdict *)

Section TripVerdict.

Import Marine MarineTrip.

Lemma fold_left_max_geb (r : list Z) :
  forall x k : Z,
    (k <=? fold_left Z.max r x)%Z
    = ((k <=? x)%Z || existsb (fun y => (k <=? y)%Z) r).
Proof.
  induction r as [|y r IH]; intros x k; simpl.
  - rewrite orb_false_r. reflexivity.
  - rewrite IH. rewrite orb_assoc. f_equal.
    destruct (Z.leb_spec k (Z.max x y)), (Z.leb_spec k x), (Z.leb_spec k y);
      simpl; try reflexivity; lia.
Qed.

Lemma Math_max_geb (A : Type) (f : A -> Z) (xs : list A) (k : Z) :
  geb_inf (Math_max (map f xs)) k = existsb (fun x => (k <=? f x)%Z) xs.
Proof.
  destruct xs as [|x r]; simpl; [reflexivity|].
  rewrite fold_left_max_geb. f_equal.
  induction r as [|y r IH]; simpl; [reflexivity|].
  rewrite IH. reflexivity.
Qed.

Lemma existsb_pointwise (A : Type) (p q : A -> bool) (xs : list A) :
  (forall x, p x = q x) -> existsb p xs = existsb q xs.
Proof.
  intro E. induction xs as [|x r IH]; simpl; [reflexivity|].
  rewrite E, IH. reflexivity.
Qed.

Lemma existsb_orb (A : Type) (p q : A -> bool) (xs : list A) :
  existsb (fun x => p x || q x) xs = existsb p xs || existsb q xs.
Proof.
  induction xs as [|x r IH]; simpl; [reflexivity|].
  rewrite IH. destruct (p x), (q x), (existsb p r), (existsb q r); reflexivity.
Qed.

Lemma filter_none (A : Type) (p : A -> bool) (xs : list A) :
  existsb p xs = false -> filter p xs = [].
Proof.
  induction xs as [|x r IH]; simpl; [reflexivity|].
  destruct (p x); simpl; [discriminate | exact IH].
Qed.

Lemma aggregateTripRisk_tripVerdict (ws : list WaypointAssessment) :
  aggregateTripRisk ws = Spec.tripVerdict ws.
Proof.
  unfold aggregateTripRisk, Spec.tripVerdict.
  rewrite !Math_max_geb.
  rewrite (existsb_pointwise
             (fun w => (3 <=? riskToNumeric (max_risk w))%Z)
             (Spec.maxIs Marine.extreme))
    by (intro w; unfold Spec.maxIs; destruct (max_risk w); reflexivity).
  rewrite (existsb_pointwise
             (fun w => (2 <=? riskToNumeric (max_risk w))%Z)
             (fun w => Spec.maxIs high w || Spec.maxIs Marine.extreme w))
    by (intro w; unfold Spec.maxIs; destruct (max_risk w); reflexivity).
  rewrite (existsb_pointwise
             (fun w => (1 <=? riskToNumeric (max_risk w))%Z)
             (fun w => Spec.maxIs moderate w
                       || (Spec.maxIs high w || Spec.maxIs Marine.extreme w)))
    by (intro w; unfold Spec.maxIs; destruct (max_risk w); reflexivity).
  rewrite (filter_ext
             (fun w => (2 <=? riskToNumeric (max_risk w))%Z)
             Spec.maxAtLeastHigh)
    by (intro w; unfold Spec.maxAtLeastHigh, Spec.maxIs;
        destruct (max_risk w); reflexivity).
  rewrite !existsb_orb.
  destruct (existsb (Spec.maxIs Marine.extreme) ws) eqn:E3; [reflexivity|].
  rewrite !orb_false_r.
  assert (C : (2 <=? Z.of_nat (List.length (filter Spec.maxAtLeastHigh ws)))%Z
              = (2 <=? List.length (filter Spec.maxAtLeastHigh ws))%nat).
  { destruct (Z.leb_spec 2
                (Z.of_nat (List.length (filter Spec.maxAtLeastHigh ws))));
      destruct (Nat.leb_spec 2
                  (List.length (filter Spec.maxAtLeastHigh ws)));
      try reflexivity; lia. }
  rewrite C.
  destruct (existsb (Spec.maxIs high) ws) eqn:E2.
  - destruct (_ <=? _)%nat; reflexivity.
  - assert (F : filter Spec.maxAtLeastHigh ws = []).
    { apply filter_none. unfold Spec.maxAtLeastHigh.
      rewrite existsb_orb, E2, E3. reflexivity. }
    rewrite F. simpl.
    destruct (existsb (Spec.maxIs moderate) ws); reflexivity.
Qed.

(** C3.  On a non-empty list of waypoint assessments the verdict is
    extreme if some waypoint's maximum is extreme; else dangerous if at
    least two waypoints have a maximum of high or more; else caution if
    some maximum is high; else caution if some maximum is moderate; else
    safe. *)
Theorem aggregateTripRisk_rollup :
  forall ws : list WaypointAssessment,
    ws <> [] -> aggregateTripRisk ws = Spec.tripVerdict ws.
Proof.
  intros ws _. apply aggregateTripRisk_tripVerdict.
Qed.

Lemma aggregateTripRisk_rollup_witness :
  let wp := mkWaypoint (599 # 10) (107 # 10) None in
  let ws := [mkWaypointAssessment wp high 3 1;
             mkWaypointAssessment wp moderate 3 0] in
  ws <> [] /\ aggregateTripRisk ws = caution.
Proof.
  split; [discriminate|].
  rewrite (aggregateTripRisk_rollup
             (ws := [mkWaypointAssessment _ high 3 1;
                     mkWaypointAssessment _ moderate 3 0]));
    [reflexivity | discriminate].
Defined.

End TripVerdict.

(** ** Sampling the route *)

Section RouteSampling.

Import MarineTrip.

(** With five samples the index read at step [i] is [i * (len - 1) / 4]
    rounded to the nearest integer, a half going up. *)
Lemma sampleIndex_five (len i : Z) :
  sampleIndex len 5 i = ((i * (len - 1) + 2) / 4)%Z.
Proof.
  unfold sampleIndex, Math_round. cbn [Z.sub Z.add Z.opp Z.pos_sub].
  unfold Qdiv, Qmult, Qplus, Qinv, Qfloor, inject_Z; cbn.
  replace (i * ((len - 1) * 1) * 2 + 4)%Z
    with ((i * (len - 1) + 2) * 2)%Z by ring.
  change 8%Z with (4 * 2)%Z.
  apply Z.div_mul_cancel_r; discriminate.
Qed.

Lemma at_index_in_range (A : Type) (xs : list A) (i : Z) :
  (0 <= i < Z.of_nat (List.length xs))%Z ->
  exists x, at_index xs i = Some x /\ In x xs.
Proof.
  intros [Hlo Hhi]. unfold at_index.
  destruct (Z.ltb_spec i 0); [lia|].
  destruct (nth_error xs (Z.to_nat i)) as [x|] eqn:E.
  - exists x. split; [reflexivity|]. eapply nth_error_In; eassumption.
  - apply nth_error_None in E. lia.
Qed.

Lemma sampleWaypoints_short (A : Type) (route : list A) :
  (Z.of_nat (List.length route) <= 5)%Z ->
  sampleWaypoints route 5 = map Some route.
Proof.
  intro H. unfold sampleWaypoints.
  destruct (Z.leb_spec (Z.of_nat (List.length route)) 5); [reflexivity | lia].
Qed.

Lemma sampleWaypoints_long (A : Type) (route : list A) :
  (5 < Z.of_nat (List.length route))%Z ->
  sampleWaypoints route 5
  = map (at_index route)
        [0; sampleIndex (Z.of_nat (List.length route)) 5 1;
         sampleIndex (Z.of_nat (List.length route)) 5 2;
         sampleIndex (Z.of_nat (List.length route)) 5 3;
         Z.of_nat (List.length route) - 1]%Z.
Proof.
  intro H. unfold sampleWaypoints.
  destruct (Z.leb_spec (Z.of_nat (List.length route)) 5); [lia | reflexivity].
Qed.

(** The three intermediate indices of a long route lie strictly between
    the ends and increase strictly. *)
Lemma sampleIndex_five_increasing (len : Z) :
  (5 < len)%Z ->
  (0 < sampleIndex len 5 1
   /\ sampleIndex len 5 1 < sampleIndex len 5 2
   /\ sampleIndex len 5 2 < sampleIndex len 5 3
   /\ sampleIndex len 5 3 < len - 1)%Z.
Proof.
  intro H. rewrite !sampleIndex_five.
  pose proof (Z.div_mod (1 * (len - 1) + 2) 4 ltac:(lia)) as D1.
  pose proof (Z.mod_pos_bound (1 * (len - 1) + 2) 4 ltac:(lia)) as B1.
  pose proof (Z.div_mod (2 * (len - 1) + 2) 4 ltac:(lia)) as D2.
  pose proof (Z.mod_pos_bound (2 * (len - 1) + 2) 4 ltac:(lia)) as B2.
  pose proof (Z.div_mod (3 * (len - 1) + 2) 4 ltac:(lia)) as D3.
  pose proof (Z.mod_pos_bound (3 * (len - 1) + 2) 4 ltac:(lia)) as B3.
  lia.
Qed.

(** C8.  A route of at least two waypoints is sampled at no more than
    [min 5 (length route)] places; the first sample is the first waypoint
    and the last sample the last waypoint; every sample is a waypoint of
    the route; a route of at most five waypoints is taken whole, and a
    longer one is read at the indices [0], [round (i * (len - 1) / 4)] for
    [i = 1, 2, 3], and [len - 1], which increase strictly. *)
Theorem sampleWaypoints_bounded_with_ends :
  forall (A : Type) (route : list A),
    (2 <= List.length route)%nat ->
    let len := Z.of_nat (List.length route) in
    let sampled := sampleWaypoints route 5 in
    (List.length sampled <= Nat.min 5 (List.length route))%nat
    /\ (exists first last : A,
           nth_error route 0 = Some first
           /\ nth_error route (List.length route - 1) = Some last
           /\ nth_error sampled 0 = Some (Some first)
           /\ nth_error sampled (List.length sampled - 1) = Some (Some last))
    /\ (forall e, In e sampled -> exists w, e = Some w /\ In w route)
    /\ ((len <= 5)%Z -> sampled = map Some route)
    /\ ((5 < len)%Z ->
        sampled
        = map (at_index route)
              [0; (1 * (len - 1) + 2) / 4; (2 * (len - 1) + 2) / 4;
               (3 * (len - 1) + 2) / 4; len - 1]%Z
        /\ (0 < (1 * (len - 1) + 2) / 4
            /\ (1 * (len - 1) + 2) / 4 < (2 * (len - 1) + 2) / 4
            /\ (2 * (len - 1) + 2) / 4 < (3 * (len - 1) + 2) / 4
            /\ (3 * (len - 1) + 2) / 4 < len - 1)%Z).
Proof.
  intros A route Hlen len sampled.
  assert (Hfirst : exists first, nth_error route 0 = Some first).
  { destruct route as [|a r]; [simpl in Hlen; lia | exists a; reflexivity]. }
  assert (Hlast : exists last,
             nth_error route (List.length route - 1) = Some last).
  { destruct (nth_error route (List.length route - 1)) as [l|] eqn:E;
      [exists l; reflexivity | apply nth_error_None in E; lia]. }
  destruct Hfirst as [first Hfirst]. destruct Hlast as [last Hlast].
  destruct (Z.le_gt_cases len 5) as [Hs | Hl].
  - assert (E : sampled = map Some route)
      by (apply sampleWaypoints_short; exact Hs).
    rewrite E. rewrite length_map.
    split; [subst len; lia|].
    split.
    { exists first, last. rewrite !nth_error_map, Hfirst, Hlast.
      repeat split; reflexivity. }
    split.
    { intros e He. apply in_map_iff in He. destruct He as (w & <- & Hw).
      exists w. split; [reflexivity | exact Hw]. }
    split; [reflexivity | lia].
  - assert (E : sampled
                = map (at_index route)
                      [0; sampleIndex len 5 1; sampleIndex len 5 2;
                       sampleIndex len 5 3; len - 1]%Z)
      by (apply sampleWaypoints_long; lia).
    pose proof (sampleIndex_five_increasing Hl) as Inc.
    rewrite E.
    split; [rewrite length_map; cbn [List.length]; subst len; lia|].
    split.
    { exists first, last. split; [exact Hfirst|]. split; [exact Hlast|].
      split.
      - cbn [map nth_error]. unfold at_index.
        change (0 <? 0)%Z with false. change (Z.to_nat 0) with 0%nat.
        cbv beta iota. rewrite Hfirst. reflexivity.
      - cbn [map nth_error List.length Nat.sub]. unfold at_index.
        destruct (Z.ltb_spec (len - 1) 0); [lia|].
        replace (Z.to_nat (len - 1)) with (List.length route - 1)%nat
          by (subst len; lia).
        rewrite Hlast. reflexivity. }
    split.
    { intros e He. apply in_map_iff in He. destruct He as (i & <- & Hi).
      destruct (@at_index_in_range A route i) as (w & Ew & Hw).
      - fold len. simpl in Hi. intuition lia.
      - exists w. split; assumption. }
    split; [lia|].
    intros _. rewrite <- !sampleIndex_five. split; [reflexivity | exact Inc].
Qed.

Lemma sampleWaypoints_bounded_with_ends_witness :
  let route := [10; 11; 12; 13; 14; 15; 16]%Z in
  (2 <= List.length route)%nat
  /\ sampleWaypoints route 5
     = [Some 10; Some 12; Some 13; Some 15; Some 16]%Z.
Proof.
  split; [simpl; lia|].
  destruct (@sampleWaypoints_bounded_with_ends Z
              [10; 11; 12; 13; 14; 15; 16]%Z ltac:(simpl; lia))
    as (_ & _ & _ & _ & Hlong).
  destruct (Hlong ltac:(simpl; lia)) as [E _].
  rewrite E. reflexivity.
Defined.

End RouteSampling.

(** ** The extreme level is out of reach of the marine data *)

Section NoExtreme.

Import ErrorHandler ResponseBuilder Marine MarineTrip.

Variable Date_parse : string -> option Z.

Lemma transformMetResponse_not_extreme
  (timeseries : list MetOceanforecastData)
  (tw : Schemas.ResolvedTimeWindow) (v : VesselType) :
  forall p, In p (transformMetResponse Date_parse timeseries tw v) ->
            Marine.risk_level p <> Marine.extreme.
Proof.
  induction timeseries as [|entry rest IH]; intros p Hp; simpl in Hp.
  - contradiction.
  - destruct (outsideWindow Date_parse (entry_time entry) tw).
    + apply IH. exact Hp.
    + destruct Hp as [<- | Hp]; [|apply IH; exact Hp].
      unfold transformEntry. cbn [Marine.risk_level].
      apply assessRiskLevel_not_extreme.
Qed.

Lemma handleMarineConditions_not_extreme
  (fetch : OceanFetch) (now : Z) (input : MarineConditionsInput)
  (out : MarineConditionsOutput) :
  structuredContent (handleMarineConditions Date_parse fetch now input)
  = Payload out ->
  forall p, In p (hours out) -> Marine.risk_level p <> Marine.extreme.
Proof.
  unfold handleMarineConditions.
  destruct (negb _); [discriminate|].
  destruct (fetch _ _) as [e | [timeseries cache]]; [discriminate|].
  cbn [buildToolResponse structuredContent]. intro E. injection E as <-.
  cbn [hours]. apply transformMetResponse_not_extreme.
Qed.

Lemma scanHour_calm (wp : Waypoint) (st : HourScan)
  (hour : MarineConditionsPoint) :
  Spec.calmScan st -> Marine.risk_level hour <> Marine.extreme ->
  Spec.calmScan (scanHour wp st hour).
Proof.
  intros [Hm Hh] Hr. unfold scanHour, Spec.calmScan.
  cbn [scan_maxRisk scan_hotspots]. split.
  - destruct (_ <? _)%Z; assumption.
  - intros h Hin. destruct (2 <=? _)%Z; [|apply Hh; exact Hin].
    apply in_app_or in Hin. destruct Hin as [Hin | [<- | []]].
    + apply Hh. exact Hin.
    + exact Hr.
Qed.

Lemma scanHours_calm (wp : Waypoint) (hs : list MarineConditionsPoint) :
  forall st,
    Spec.calmScan st ->
    (forall p, In p hs -> Marine.risk_level p <> Marine.extreme) ->
    Spec.calmScan (fold_left (scanHour wp) hs st).
Proof.
  induction hs as [|hour rest IH]; intros st Hst Hall; simpl.
  - exact Hst.
  - apply IH.
    + apply scanHour_calm; [exact Hst | apply Hall; left; reflexivity].
    + intros p Hp. apply Hall. right. exact Hp.
Qed.

Lemma assessWaypoints_calm (marine : MarineTool)
  (input : AssessMarineTripInput) :
  Spec.neverExtreme marine ->
  forall sampled k assessments collected assessments' collected',
    (forall a, In a assessments -> max_risk a <> Marine.extreme) ->
    (forall h, In h collected -> MarineTrip.risk_level h <> Marine.extreme) ->
    assessWaypoints marine input k sampled assessments collected
    = inr (assessments', collected') ->
    (forall a, In a assessments' -> max_risk a <> Marine.extreme)
    /\ (forall h, In h collected' ->
                  MarineTrip.risk_level h <> Marine.extreme).
Proof.
  intros Hmarine. induction sampled as [|[wp|] rest IH];
    intros k assessments collected assessments' collected' Ha Hc E;
    cbn [assessWaypoints] in E.
  - injection E as <- <-. split; assumption.
  - destruct (isError_truthy _); [discriminate|].
    destruct (structuredContent (marine k _)) as [out | e] eqn:Es;
      [|discriminate].
    assert (Hstart : Spec.calmScan (mkScan Marine.low 0 collected)).
    { split; [cbn [scan_maxRisk]; discriminate | exact Hc]. }
    pose proof (Hmarine _ _ _ Es) as Hout.
    destruct (scanHours_calm wp (hours out) Hstart Hout) as [Hm Hh].
    eapply IH; [| |exact E].
    + intros a Hin. apply in_app_or in Hin.
      destruct Hin as [Hin | [<- | []]]; [apply Ha; exact Hin | exact Hm].
    + exact Hh.
  - discriminate.
Qed.

Lemma assessWaypoints_early_no_output (marine : MarineTool)
  (input : AssessMarineTripInput) :
  forall sampled k assessments collected early out,
    assessWaypoints marine input k sampled assessments collected = inl early ->
    structuredContent early <> Payload (inr out).
Proof.
  induction sampled as [|[wp|] rest IH];
    intros k assessments collected early out EA;
    cbn [assessWaypoints] in EA.
  - discriminate.
  - destruct (isError_truthy _).
    + injection EA as <-. unfold passThrough. cbn [structuredContent].
      destruct (structuredContent (marine k _)); discriminate.
    + destruct (structuredContent (marine k _)) as [o | e].
      * eapply IH. exact EA.
      * injection EA as <-. unfold unexpected, buildErrorResponse.
        cbn [structuredContent]. discriminate.
  - injection EA as <-. unfold unexpected, buildErrorResponse.
    cbn [structuredContent]. discriminate.
Qed.

Lemma sort_insert_In (A : Type) (cmp : A -> A -> Z) (x : A) (xs : list A) :
  forall y, In y (sort_insert cmp x xs) -> y = x \/ In y xs.
Proof.
  induction xs as [|z r IH]; intros y Hy; simpl in Hy.
  - destruct Hy as [<- | []]. left. reflexivity.
  - destruct (0 <? cmp z x)%Z.
    + destruct Hy as [<- | Hy]; [left; reflexivity | right; exact Hy].
    + destruct Hy as [<- | Hy]; [right; left; reflexivity|].
      destruct (IH y Hy) as [-> | Hin];
        [left; reflexivity | right; right; exact Hin].
Qed.

Lemma Array_sort_In (A : Type) (cmp : A -> A -> Z) (xs : list A) :
  forall y, In y (Array_sort cmp xs) -> In y xs.
Proof.
  unfold Array_sort.
  assert (G : forall acc y,
             In y (fold_left (fun acc x => sort_insert cmp x acc) xs acc) ->
             In y xs \/ In y acc).
  { induction xs as [|x r IH]; intros acc y Hy; simpl in Hy.
    - right. exact Hy.
    - destruct (IH _ _ Hy) as [Hin | Hin].
      + left. right. exact Hin.
      + destruct (sort_insert_In _ _ _ _ Hin) as [-> | Hacc].
        * left. left. reflexivity.
        * right. exact Hacc. }
  intros y Hy. destruct (G [] y Hy) as [H | []]. exact H.
Qed.

Lemma aggregateTripRisk_not_extreme (ws : list WaypointAssessment) :
  (forall a, In a ws -> max_risk a <> Marine.extreme) ->
  aggregateTripRisk ws <> MarineTrip.extreme.
Proof.
  intro Hall. rewrite aggregateTripRisk_tripVerdict. unfold Spec.tripVerdict.
  assert (E : existsb (Spec.maxIs Marine.extreme) ws = false).
  { destruct (existsb (Spec.maxIs Marine.extreme) ws) eqn:E; [|reflexivity].
    apply existsb_exists in E. destruct E as (a & Hin & Ha).
    exfalso. apply (Hall a Hin). unfold Spec.maxIs in Ha.
    destruct (max_risk a); try discriminate. reflexivity. }
  rewrite E.
  destruct (2 <=? List.length (filter Spec.maxAtLeastHigh ws))%nat;
    [discriminate|].
  destruct (existsb (Spec.maxIs Marine.high) ws); [discriminate|].
  destruct (existsb (Spec.maxIs Marine.moderate) ws); discriminate.
Qed.

(** C9.  The per-point classifier only answers low, moderate or high.  So
    no hour produced by the marine tool carries the extreme level, and a
    trip assessed through the marine tool, whatever the upstream data and
    the clock, has no extreme waypoint maximum, no extreme hotspot, and a
    verdict other than extreme. *)
Theorem marine_outputs_never_extreme :
  (forall w c v,
      level (assessRiskLevel w c v) = Marine.low
      \/ level (assessRiskLevel w c v) = Marine.moderate
      \/ level (assessRiskLevel w c v) = Marine.high)
  /\ (forall fetch now input out,
         structuredContent (handleMarineConditions Date_parse fetch now input)
         = Payload out ->
         forall p, In p (hours out) -> Marine.risk_level p <> Marine.extreme)
  /\ (forall (fetch : nat -> OceanFetch) (clock : nat -> Z)
             (formatHotspotTime : string -> string) (nowFrom nowTo : Z)
             (input : AssessMarineTripInput) (out : AssessMarineTripOutput),
         structuredContent
           (handleAssessMarineTrip formatHotspotTime
              (fun k => handleMarineConditions Date_parse (fetch k) (clock k))
              nowFrom nowTo input)
         = Payload (inr out) ->
         overall_risk out <> MarineTrip.extreme
         /\ (forall h, In h (hotspots out) ->
                       MarineTrip.risk_level h <> Marine.extreme)
         /\ (forall a, In a (waypoint_assessments out) ->
                       max_risk a <> Marine.extreme)).
Proof.
  split; [|split].
  - intros w c v. rewrite assessRiskLevel_level.
    destruct (_ || _); [right; right; reflexivity|].
    destruct (_ || _); [right; left; reflexivity | left; reflexivity].
  - intros fetch now input out. apply handleMarineConditions_not_extreme.
  - intros fetch clock formatHotspotTime nowFrom nowTo input out.
    unfold handleAssessMarineTrip.
    destruct (assessWaypoints _ input 0 _ [] []) as [early | [ws collected]]
      eqn:EA.
    + intro E. exfalso.
      exact (@assessWaypoints_early_no_output _ _ _ _ _ _ _ out EA E).
    + cbn [buildToolResponse structuredContent]. intro E.
      injection E as <-.
      cbn [overall_risk hotspots waypoint_assessments].
      assert (Hm : Spec.neverExtreme
                     (fun k => handleMarineConditions Date_parse
                                 (fetch k) (clock k))).
      { intros k i o Es. eapply handleMarineConditions_not_extreme.
        exact Es. }
      destruct (@assessWaypoints_calm _ input Hm _ _ [] [] ws collected
                  (fun a (H : In a []) => match H with end)
                  (fun h (H : In h []) => match H with end) EA) as [Ha Hh].
      split; [apply aggregateTripRisk_not_extreme; exact Ha|].
      split; [|exact Ha].
      intros h Hin. apply Hh. eapply Array_sort_In. exact Hin.
Qed.

End NoExtreme.

(** ** Comfort scoring *)

Section ComfortScoring.

Import Activity.

Lemma assessComfort_booleans (T W P : Q) (th : ActivityThresholds)
  (avoidAllRain : bool) :
  temperature_ok (assessComfort T W P th avoidAllRain)
  = Qgeb T (minTemp th) && Qleb T (maxTemp th)
  /\ wind_ok (assessComfort T W P th avoidAllRain) = Qleb W (maxWind th)
  /\ precipitation_ok (assessComfort T W P th avoidAllRain)
     = (if avoidAllRain then Qeqb P 0
        else if avoidHeavyRain th then Qltb P 2.5 else true).
Proof. repeat split. Qed.

Lemma assessComfort_score (T W P : Q) (th : ActivityThresholds)
  (avoidAllRain : bool) :
  let a := assessComfort T W P th avoidAllRain in
  score a
  = match ((if temperature_ok a then 0 else 1)
           + (if wind_ok a then 0 else 1)
           + (if precipitation_ok a then 0 else 1))%nat with
    | O => good
    | S O => ok
    | _ => poor
    end.
Proof.
  unfold assessComfort. cbn [score temperature_ok wind_ok precipitation_ok].
  destruct (Qgeb T (minTemp th) && Qleb T (maxTemp th));
    destruct (Qleb W (maxWind th));
    destruct (if avoidAllRain then Qeqb P 0
              else if avoidHeavyRain th then Qltb P 2.5 else true);
    reflexivity.
Qed.

Lemma precipitation_rule (P : Q) (avoidAllRain avoidHeavy : bool) :
  (if avoidAllRain then Qeqb P 0
   else if avoidHeavy then Qltb P 2.5 else true) = true
  <-> ((avoidAllRain = true -> P == 0)
       /\ (avoidHeavy = true -> P < 2.5))%Q.
Proof.
  destruct avoidAllRain.
  - rewrite Qeqb_true_iff. split.
    + intro E. split; [intros _; exact E|]. intros _. rewrite E. reflexivity.
    + intros [E _]. apply E. reflexivity.
  - destruct avoidHeavy.
    + rewrite Qltb_true_iff. split.
      * intro L. split; [discriminate | intros _; exact L].
      * intros [_ L]. apply L. reflexivity.
    + split; [intros _; split; discriminate | reflexivity].
Qed.

Lemma scoreHour_rule (th : ActivityThresholds) (avoidRain : bool)
  (hour : ForecastHour) :
  let T := air_temperature hour in
  let W := wind_speed hour in
  let P := match precipitation_rate hour with
           | Some rate => rate
           | None => 0
           end in
  let slot := scoreHour th avoidRain hour in
  slot_time slot = time hour
  /\ slot_temperature slot = T
  /\ slot_wind_speed slot = W
  /\ slot_precipitation_rate slot = P
  /\ (slot_temperature_ok slot = true
      <-> (minTemp th <= T /\ T <= maxTemp th)%Q)
  /\ (slot_wind_ok slot = true <-> (W <= maxWind th)%Q)
  /\ ((W == maxWind th)%Q -> slot_wind_ok slot = true)
  /\ (slot_precipitation_ok slot = true
      <-> ((avoidRain = true -> P == 0)
           /\ (avoidHeavyRain th = true -> P < 2.5))%Q)
  /\ slot_score slot
     = match Spec.violations slot with
       | O => good
       | S O => ok
       | _ => poor
       end.
Proof.
  intros T W P slot.
  assert (EP : orDefault (precipitation_rate hour) 0 = P)
    by (subst P; destruct (precipitation_rate hour); reflexivity).
  subst slot. unfold scoreHour, Spec.violations.
  cbn [slot_time slot_temperature_ok slot_wind_ok slot_precipitation_ok
       slot_score slot_temperature slot_wind_speed slot_precipitation_rate].
  rewrite EP. fold T W.
  destruct (assessComfort_booleans T W P th avoidRain) as (Et & Ew & Ep).
  split; [reflexivity|]. split; [reflexivity|]. split; [reflexivity|].
  split; [reflexivity|].
  split; [|split; [|split; [|split]]].
  - rewrite Et, andb_true_iff, Qgeb_true_iff, Qleb_true_iff. reflexivity.
  - rewrite Ew, Qleb_true_iff. reflexivity.
  - intro E. rewrite Ew. apply Qleb_true_iff. rewrite E. apply Qle_refl.
  - rewrite Ep. apply precipitation_rule.
  - apply assessComfort_score.
Qed.

(** C7.  The scorer gives one slot per forecast hour, in order.  The slot
    of an hour carries that hour's time, temperature [T], wind speed [W]
    and precipitation rate [P] (a missing rate counts as 0), and its
    verdict is about those values: [temperature_ok] holds iff
    [minTemp <= T <= maxTemp], [wind_ok] holds iff [W <= maxWind] (so a
    wind equal to [maxWind] is fine), [precipitation_ok] holds iff
    (avoidRain implies [P = 0]) and (avoidHeavyRain implies [P < 2.5]),
    and the score is good with no violated boolean, ok with exactly one,
    poor with two or more.  The thresholds are the effective ones of the
    request and [avoidRain] is the preference (false when absent). *)
Theorem scoreSlots_comfort_rule :
  forall (input : AssessOutdoorActivityInput) (hours : list ForecastHour)
         (i : nat) (hour : ForecastHour),
    nth_error hours i = Some hour ->
    let th := getThresholds (activity input) (preferences input) in
    let avoidRain :=
      match preferences input with
      | Some p => match pref_avoidRain p with
                  | Some b => b
                  | None => false
                  end
      | None => false
      end in
    let T := air_temperature hour in
    let W := wind_speed hour in
    let P := match precipitation_rate hour with
             | Some rate => rate
             | None => 0
             end in
    List.length (scoreSlots input hours) = List.length hours
    /\ exists slot,
         nth_error (scoreSlots input hours) i = Some slot
         /\ slot_time slot = time hour
         /\ slot_temperature slot = T
         /\ slot_wind_speed slot = W
         /\ slot_precipitation_rate slot = P
         /\ (slot_temperature_ok slot = true
             <-> (minTemp th <= T /\ T <= maxTemp th)%Q)
         /\ (slot_wind_ok slot = true <-> (W <= maxWind th)%Q)
         /\ ((W == maxWind th)%Q -> slot_wind_ok slot = true)
         /\ (slot_precipitation_ok slot = true
             <-> ((avoidRain = true -> P == 0)
                  /\ (avoidHeavyRain th = true -> P < 2.5))%Q)
         /\ slot_score slot
            = match Spec.violations slot with
              | O => good
              | S O => ok
              | _ => poor
              end.
Proof.
  intros input hours i hour Hi th avoidRain T W P.
  unfold scoreSlots. split; [apply length_map|].
  replace (orDefault match preferences input with
                     | Some p => pref_avoidRain p
                     | None => None
                     end false) with avoidRain
    by (subst avoidRain; destruct (preferences input) as [p|];
        [destruct (pref_avoidRain p)|]; reflexivity).
  fold th. exists (scoreHour th avoidRain hour).
  split; [rewrite nth_error_map, Hi; reflexivity|].
  apply scoreHour_rule.
Qed.

Lemma scoreSlots_comfort_rule_witness :
  let input := mkActivityInput (builtin running) None in
  let calm := mkForecastHour "2025-06-01T10:00:00Z" 8 10 None in
  let storm := mkForecastHour "2025-06-01T11:00:00Z" (-4) 25 (Some 6) in
  nth_error [calm; storm] 1 = Some storm
  /\ exists slot,
       nth_error (scoreSlots input [calm; storm]) 1 = Some slot
       /\ slot_temperature slot = (-4)%Q
       /\ slot_wind_ok slot = false
       /\ slot_score slot = poor.
Proof.
  split; [reflexivity|].
  destruct (@scoreSlots_comfort_rule
              (mkActivityInput (builtin running) None)
              [mkForecastHour "2025-06-01T10:00:00Z" 8 10 None;
               mkForecastHour "2025-06-01T11:00:00Z" (-4) 25 (Some 6)]
              1 (mkForecastHour "2025-06-01T11:00:00Z" (-4) 25 (Some 6))
              eq_refl)
    as (_ & slot & Hs & _ & Ht & _).
  exists slot. split; [exact Hs|]. split; [exact Ht|].
  injection Hs as <-. split; reflexivity.
Defined.

End ComfortScoring.

(** ** Place-name resolution *)

Section Resolver.

Import Places.

Variable JSON_parse : string -> option (list string).
Variable normalizeNorwegian : string -> string.

Lemma In_firstn (A : Type) (n : nat) (xs : list A) (x : A) :
  In x (firstn n xs) -> In x xs.
Proof.
  revert xs. induction n as [|n IH]; intros [|y r] H; simpl in H;
    try contradiction.
  destruct H as [<- | H]; [left; reflexivity | right; apply IH; exact H].
Qed.

Lemma slice0_length (A : Type) (xs : list A) (e : Z) :
  (0 <= e)%Z -> (Z.of_nat (List.length (slice0 xs e)) <= e)%Z.
Proof.
  intro H. unfold slice0. destruct (Z.ltb_spec e 0); [lia|].
  pose proof (firstn_le_length (Z.to_nat e) xs). lia.
Qed.

Lemma slice0_In (A : Type) (xs : list A) (e : Z) (x : A) :
  In x (slice0 xs e) -> In x xs.
Proof.
  unfold slice0. destruct (e <? 0)%Z; apply In_firstn.
Qed.

Lemma slice0_map (A B : Type) (f : A -> B) (xs : list A) (e : Z) :
  map f (slice0 xs e) = slice0 (map f xs) e.
Proof.
  unfold slice0. rewrite length_map.
  destruct (e <? 0)%Z; symmetry; apply firstn_map.
Qed.

Lemma confidenceOf_range (c : PlaceCandidate) (index : Z) :
  (0 <= confidenceOf c index /\ confidenceOf c index <= 1)%Q.
Proof.
  unfold confidenceOf. split.
  - eapply Qle_trans; [|apply Q.le_max_l]. discriminate.
  - apply Q.max_lub; [discriminate|].
    eapply Qle_trans; [apply Q.le_min_l|]. discriminate.
Qed.

Lemma mapWithIndex_confidence (cs : list PlaceCandidate) :
  forall index m,
    In m (mapWithIndex JSON_parse cs index) ->
    exists c i, confidence m = confidenceOf c i.
Proof.
  induction cs as [|c r IH]; intros index m H; simpl in H; [contradiction|].
  destruct H as [<- | H]; [exists c, index; reflexivity | eapply IH; exact H].
Qed.

Lemma mapWithIndex_ids (cs : list PlaceCandidate) :
  forall index,
    map match_id (mapWithIndex JSON_parse cs index)
    = map (fun c => ssr_id (record c)) cs.
Proof.
  induction cs as [|c r IH]; intro index; simpl; [reflexivity|].
  rewrite IH. reflexivity.
Qed.

End Resolver.

(** ** Time-window resolution *)

Section TimeWindows.

Import ErrorHandler ResponseBuilder CacheParser Schemas.

(** C2, as amended.  A time window without a preset resolves to
    [now, now + 48h] whatever its [from] and [to] hold, and so does an
    absent window; neither resolver inspects [from] or [to] and neither
    can fail.  An error envelope of the marine tool is the coverage error
    or the error thrown by the upstream client. *)
Theorem resolveTimeWindow_without_preset :
  forall (k : option WindowKind) (f t : option string) (now : Z),
    LocationForecast.resolveTimeWindow (Some (mkTimeWindow k f t None)) now
    = mkResolved now (now + 172800000)
    /\ Marine.resolveTimeWindow (Some (mkTimeWindow k f t None)) now
       = mkResolved now (now + 172800000)
    /\ LocationForecast.resolveTimeWindow None now
       = mkResolved now (now + 172800000)
    /\ Marine.resolveTimeWindow None now = mkResolved now (now + 172800000)
    /\ (forall Date_parse fetch input e,
           structuredContent
             (Marine.handleMarineConditions Date_parse fetch now input)
           = ErrorPayload e ->
           code e = OUT_OF_COVERAGE
           \/ fetch (lat (Marine.in_location input))
                    (lon (Marine.in_location input)) = inl e).
Proof.
  intros k f t now. repeat split.
  intros Date_parse fetch input e. unfold Marine.handleMarineConditions.
  destruct (negb _).
  - cbn [buildErrorResponse structuredContent]. intro E.
    injection E as <-. left. reflexivity.
  - destruct (fetch _ _) as [err | [ts cache]].
    + cbn [buildErrorResponse structuredContent]. intro E.
      injection E as <-. right. reflexivity.
    + discriminate.
Qed.

(** The claim as first stated asks for INVALID_INPUT when [from] and [to]
    come without a preset and are not a valid window.  Here [from] is a day
    later than [to]; both resolvers return [now, now + 48h], and the marine
    tool answers with a successful envelope for that window. *)
Lemma resolveTimeWindow_reversed_window_accepted :
  let tw := mkTimeWindow None (Some "2025-01-02T00:00:00Z"%string)
                         (Some "2025-01-01T00:00:00Z"%string) None in
  let r := Marine.handleMarineConditions WindowSpec.parseUtcTimestamp
             (fun _ _ => inr ([], mkCache false None None)) 1000
             (Marine.mkMarineInput (mkCoordinate 60 5 None) (Some tw)
                Marine.kayak "en") in
  WindowSpec.validAbsoluteWindow "2025-01-02T00:00:00Z" "2025-01-01T00:00:00Z"
  = false
  /\ LocationForecast.resolveTimeWindow (Some tw) 1000
     = mkResolved 1000 172801000
  /\ Marine.resolveTimeWindow (Some tw) 1000 = mkResolved 1000 172801000
  /\ isError r = None
  /\ (forall e, structuredContent r <> ErrorPayload e)
  /\ (exists out, structuredContent r = Payload out
                  /\ Marine.out_timeWindow out = mkResolved 1000 172801000).
Proof.
  repeat split.
  - vm_compute. discriminate.
  - eexists. split; vm_compute; reflexivity.
Qed.

End TimeWindows.

(* ================================================================== *)
(** * Part III: further properties of the embedded code                *)
(* ================================================================== *)

(** ** HTTP failures *)

Section HttpFailures.

Import ErrorHandler ResponseBuilder.
Local Open Scope string_scope.

Lemma mapHttpStatusToErrorCode_cases (status : Z) :
  (mapHttpStatusToErrorCode status = INVALID_INPUT
   /\ (status = 400 \/ status = 404)%Z)
  \/ (mapHttpStatusToErrorCode status = RATE_LIMITED
      /\ (status = 429 \/ status = 503)%Z)
  \/ (mapHttpStatusToErrorCode status = MET_API_UNAVAILABLE
      /\ (500 <= status)%Z /\ status <> 503%Z)
  \/ (mapHttpStatusToErrorCode status = INTERNAL_ERROR
      /\ (status < 500)%Z /\ status <> 400%Z /\ status <> 404%Z
      /\ status <> 429%Z).
Proof.
  unfold mapHttpStatusToErrorCode.
  destruct (Z.eqb_spec status 400); [left; split; [reflexivity | lia]|].
  destruct (Z.eqb_spec status 404); [left; split; [reflexivity | lia]|].
  cbn [orb].
  destruct (Z.eqb_spec status 403);
    [right; right; right; split; [reflexivity | lia]|].
  destruct (Z.eqb_spec status 429);
    [right; left; split; [reflexivity | lia]|].
  destruct (Z.eqb_spec status 503);
    [right; left; split; [reflexivity | lia]|].
  cbn [orb].
  destruct (Z.leb_spec 500 status).
  - right; right; left. split; [reflexivity | lia].
  - right; right; right. split; [reflexivity | lia].
Qed.

(** X1.  An upstream failure is retryable exactly when its status is 429 or at
    least 500; the status is always recorded in the details, and the code
    is never the coverage code. *)
Theorem handleHttpError_retryable_by_status :
  forall (status : Z) (statusText : string) (headers : option Headers)
         (rid : option string),
    (retryable (handleHttpError status statusText headers rid) = true
     <-> (status = 429 \/ 500 <= status)%Z)
    /\ code (handleHttpError status statusText headers rid)
       <> OUT_OF_COVERAGE
    /\ (exists d,
           details (handleHttpError status statusText headers rid) = Some d
           /\ upstreamStatus d = Some status).
Proof.
  intros status statusText headers rid.
  unfold handleHttpError, createWeatherError.
  cbn [retryable code details].
  split; [|split].
  - destruct (mapHttpStatusToErrorCode_cases status)
      as [[-> H] | [[-> H] | [[-> H] | [-> H]]]]; cbn;
      split; intro K; try discriminate; try reflexivity; lia.
  - destruct (mapHttpStatusToErrorCode_cases status)
      as [[-> H] | [[-> H] | [[-> H] | [-> H]]]]; discriminate.
  - eexists. split; [reflexivity|].
    destruct (truthy_opt_string rid);
      destruct (mapHttpStatusToErrorCode status); try reflexivity;
      destruct headers as [h|]; try reflexivity;
      destruct (h "Retry-After") as [v|]; try reflexivity;
      destruct (truthy_string v); try reflexivity;
      destruct (parseInt10 v); reflexivity.
Qed.

Lemma parseInt10_some_truthy (v : string) (n : Z) :
  parseInt10 v = Some n -> truthy_string v = true.
Proof. destruct v; [discriminate | reflexivity]. Qed.

(** X2.  A retry delay is recorded exactly when the status is 429 or 503 and the
    [Retry-After] header starts with an integer; for any other status the
    summary of the envelope is the bare message. *)
Theorem handleHttpError_retry_after :
  forall (status : Z) (statusText : string) (headers : option Headers)
         (rid : option string) (n : Z),
    (retryAfterField (handleHttpError status statusText headers rid) = Some n
     <-> ((status = 429 \/ status = 503)%Z
          /\ exists h v, headers = Some h /\ h "Retry-After" = Some v
                         /\ parseInt10 v = Some n))
    /\ (forall T : Type,
           status <> 429%Z -> status <> 503%Z ->
           content
             (buildErrorResponse T
                (handleHttpError status statusText headers rid))
           = [mkText
                (message (handleHttpError status statusText headers rid))]).
Proof.
  intros status statusText headers rid n.
  assert (F : retryAfterField (handleHttpError status statusText headers rid)
              = match mapHttpStatusToErrorCode status, headers with
                | RATE_LIMITED, Some h =>
                    match h "Retry-After" with
                    | Some v => if truthy_string v then parseInt10 v else None
                    | None => None
                    end
                | _, _ => None
                end).
  { unfold handleHttpError, createWeatherError, retryAfterField.
    cbn [details].
    destruct (truthy_opt_string rid);
      destruct (mapHttpStatusToErrorCode status); try reflexivity;
      destruct headers as [h|]; try reflexivity;
      destruct (h "Retry-After") as [v|]; try reflexivity;
      destruct (truthy_string v); try reflexivity;
      destruct (parseInt10 v); reflexivity. }
  split.
  - rewrite F.
    destruct (mapHttpStatusToErrorCode_cases status)
      as [[-> H] | [[-> H] | [[-> H] | [-> H]]]].
    + split; [discriminate | intros [K _]; lia].
    + destruct headers as [h|].
      * destruct (h "Retry-After") as [v|] eqn:Ev.
        -- split.
           ++ intro K. split; [exact H|]. exists h, v.
              destruct (truthy_string v); [|discriminate].
              repeat split; assumption.
           ++ intros (_ & h' & v' & Eh & Ev' & P).
              injection Eh as <-. rewrite Ev in Ev'. injection Ev' as <-.
              rewrite (parseInt10_some_truthy _ P). exact P.
        -- split; [discriminate|].
           intros (_ & h' & v' & Eh & Ev' & _).
           injection Eh as <-. congruence.
      * split; [discriminate|].
        intros (_ & h' & v' & Eh & _). discriminate.
    + split; [discriminate | intros [K _]; lia].
    + split; [discriminate | intros [K _]; lia].
  - intros T N1 N2. unfold buildErrorResponse, truthy_retryAfter.
    rewrite F.
    destruct (mapHttpStatusToErrorCode_cases status)
      as [[-> H] | [[-> H] | [[-> H] | [-> H]]]];
      try reflexivity; lia.
Qed.

End HttpFailures.

(** ** Cache metadata *)

Section CacheMetadataFacts.

Import ErrorHandler CacheParser.
Local Open Scope string_scope.

Lemma knownStatus_cases (v : string) :
  (v = "HIT" /\ knownStatus v = Some HIT)
  \/ (v = "MISS" /\ knownStatus v = Some MISS)
  \/ (v = "EXPIRED" /\ knownStatus v = Some EXPIRED)
  \/ (v = "BYPASS" /\ knownStatus v = Some BYPASS)
  \/ (v <> "HIT" /\ v <> "MISS" /\ v <> "EXPIRED" /\ v <> "BYPASS"
      /\ knownStatus v = None).
Proof.
  unfold knownStatus.
  destruct (String.eqb_spec v "HIT"); [left; split; [assumption|reflexivity]|].
  destruct (String.eqb_spec v "MISS");
    [right; left; split; [assumption|reflexivity]|].
  destruct (String.eqb_spec v "EXPIRED");
    [right; right; left; split; [assumption|reflexivity]|].
  destruct (String.eqb_spec v "BYPASS");
    [right; right; right; left; split; [assumption|reflexivity]|].
  right; right; right; right. repeat split; assumption.
Qed.

(** X3.  The two outputs derived from the proxy-status header agree: [cached]
    is set exactly when the recorded status is HIT or EXPIRED. *)
Theorem parseCacheHeaders_cached_iff_status :
  forall headers : Headers,
    cached (parseCacheHeaders headers) = true
    <-> (status (parseCacheHeaders headers) = Some HIT
         \/ status (parseCacheHeaders headers) = Some EXPIRED).
Proof.
  intro headers.
  rewrite parseCacheHeaders_cached, parseCacheHeaders_status.
  destruct (headers "X-Proxy-Cache") as [h|].
  - destruct (truthy_string h); cbn [andb].
    + destruct (knownStatus_cases (toUpperCase h))
        as [[E S] | [[E S] | [[E S] | [[E S] | (N1 & _ & N3 & _ & S)]]]];
        rewrite S; try rewrite E; cbn [String.eqb Ascii.eqb Bool.eqb orb].
      * split; [intro; left; reflexivity | reflexivity].
      * split; [discriminate | intros [K | K]; discriminate].
      * split; [intro; right; reflexivity | reflexivity].
      * split; [discriminate | intros [K | K]; discriminate].
      * apply String.eqb_neq in N1, N3. rewrite N1, N3.
        split; [discriminate | intros [K | K]; discriminate].
    + split; [discriminate | intros [K | K]; discriminate].
  - split; [discriminate | intros [K | K]; discriminate].
Qed.

Lemma toUpperCase_empty_iff (h : string) :
  toUpperCase h = "" <-> h = "".
Proof. destruct h; simpl; split; intro H; congruence. Qed.

(** X4.  The metadata depends on the proxy-status header only up to letter
    case: two responses whose header values have the same upper-case form,
    and the same Age header, parse alike. *)
Theorem parseCacheHeaders_case_insensitive :
  forall (headers1 headers2 : Headers) (h1 h2 : string),
    headers1 "X-Proxy-Cache" = Some h1 ->
    headers2 "X-Proxy-Cache" = Some h2 ->
    headers1 "Age" = headers2 "Age" ->
    toUpperCase h1 = toUpperCase h2 ->
    parseCacheHeaders headers1 = parseCacheHeaders headers2.
Proof.
  intros headers1 headers2 h1 h2 E1 E2 EA EU.
  assert (T : truthy_string h1 = truthy_string h2).
  { destruct h1, h2; try reflexivity; simpl in EU; congruence. }
  pose proof (parseCacheHeaders_cached headers1) as C1.
  pose proof (parseCacheHeaders_cached headers2) as C2.
  pose proof (parseCacheHeaders_status headers1) as S1.
  pose proof (parseCacheHeaders_status headers2) as S2.
  pose proof (parseCacheHeaders_age headers1) as A1.
  pose proof (parseCacheHeaders_age headers2) as A2.
  rewrite E1 in C1, S1. rewrite E2 in C2, S2.
  rewrite EA in A1. rewrite EU, T in C1, S1.
  destruct (parseCacheHeaders headers1) as [c1 a1 s1].
  destruct (parseCacheHeaders headers2) as [c2 a2 s2].
  cbn [cached status ageSeconds] in *. congruence.
Qed.

Lemma parseCacheHeaders_case_insensitive_witness :
  parseCacheHeaders
    (fun n => if String.eqb n "X-Proxy-Cache" then Some "Expired" else None)
  = parseCacheHeaders
      (fun n => if String.eqb n "X-Proxy-Cache" then Some "eXPIRED" else None).
Proof.
  exact (@parseCacheHeaders_case_insensitive
           (fun n => if String.eqb n "X-Proxy-Cache"
                     then Some "Expired" else None)
           (fun n => if String.eqb n "X-Proxy-Cache"
                     then Some "eXPIRED" else None)
           "Expired" "eXPIRED" eq_refl eq_refl eq_refl eq_refl).
Defined.

End CacheMetadataFacts.

(** ** Coverage fences *)

Section CoverageFences.

Import Coverage.

Lemma fence_bounds (lat lon a b c d : Q) :
  Qgeb lat a && Qleb lat b && Qgeb lon c && Qleb lon d = true
  <-> (a <= lat /\ lat <= b /\ c <= lon /\ lon <= d)%Q.
Proof.
  rewrite !andb_true_iff, !Qgeb_true_iff, !Qleb_true_iff. tauto.
Qed.

(** X5.  The fences are nested: a coastal position is inside the Norway fence,
    and a Norway position inside the Nordic fence.  So a position accepted
    by the marine tool is accepted by the air-quality and nowcast tools. *)
Theorem coverage_fences_nested :
  forall lat lon : Q,
    (isCoastalNorway lat lon = true -> isNorway lat lon = true)
    /\ (isNorway lat lon = true -> isNordic lat lon = true).
Proof.
  intros lat lon. unfold isCoastalNorway, isNorway, isNordic. split.
  - rewrite orb_true_iff, !fence_bounds. intros [H | H]; lra.
  - rewrite !fence_bounds. intro H. lra.
Qed.

(** The fence tests are inclusive at their corners and exclusive just
    outside them. *)
Example coverage_corners :
  isNordic 55 4 = true /\ isNordic 54.9 4 = false
  /\ isCoastalNorway 60.5 11.5 = true /\ isCoastalNorway 60.6 11.5 = false
  /\ isNorway 71 31 = true /\ isNorway 71 31.1 = false.
Proof. repeat split. Qed.

End CoverageFences.

(** ** The marine tool *)

Section MarineTool.

Import ErrorHandler ResponseBuilder CacheParser Coverage Schemas Marine.

Variable Date_parse : string -> option Z.

(** X6.  Outside the coastal fence the marine tool answers with the coverage
    error for the requested position, flagged as an error and not
    retryable, and the answer does not depend on the upstream client: the
    upstream is not consulted. *)
Theorem handleMarineConditions_out_of_coverage :
  forall (fetch : OceanFetch) (now : Z) (input : MarineConditionsInput),
    isCoastalNorway (lat (in_location input)) (lon (in_location input))
    = false ->
    (exists e d,
        structuredContent (handleMarineConditions Date_parse fetch now input)
        = ErrorPayload e
        /\ code e = OUT_OF_COVERAGE /\ retryable e = false
        /\ details e = Some d
        /\ location d
           = Some (lat (in_location input), lon (in_location input)))
    /\ isError (handleMarineConditions Date_parse fetch now input) = Some true
    /\ (forall (fetch' : OceanFetch) (now' : Z),
           handleMarineConditions Date_parse fetch' now' input
           = handleMarineConditions Date_parse fetch now input).
Proof.
  intros fetch now input H. unfold handleMarineConditions. rewrite H.
  cbn [negb]. split; [|split; reflexivity].
  eexists. eexists. repeat split.
Qed.

Lemma transformMetResponse_in (timeseries : list MetOceanforecastData)
  (tw : ResolvedTimeWindow) (v : VesselType) (p : MarineConditionsPoint) :
  In p (transformMetResponse Date_parse timeseries tw v) ->
  exists entry,
    In entry timeseries
    /\ outsideWindow Date_parse (entry_time entry) tw = false
    /\ p = transformEntry v entry.
Proof.
  induction timeseries as [|entry rest IH]; simpl; [contradiction|].
  destruct (outsideWindow Date_parse (entry_time entry) tw) eqn:E.
  - intro H. destruct (IH H) as (e & He & Ho & Ep).
    exists e. repeat split; [right|..]; assumption.
  - intros [<- | H].
    + exists entry. repeat split; [left; reflexivity | exact E].
    + destruct (IH H) as (e & He & Ho & Ep).
      exists e. repeat split; [right|..]; assumption.
Qed.

Lemma marine_window_cases (tw : option TimeWindow) (now : Z) :
  Marine.resolveTimeWindow tw now = mkResolved now (now + 86400000)
  \/ Marine.resolveTimeWindow tw now = mkResolved now (now + 172800000).
Proof.
  unfold Marine.resolveTimeWindow.
  destruct tw as [[k f t [[]|]]|]; cbn; auto.
Qed.

(** X7.  A successful answer of the marine tool reports the window
    [now, now + 24h] or [now, now + 48h], and every hour whose time stamp
    is a date lies inside the reported window. *)
Theorem handleMarineConditions_hours_in_window :
  forall (fetch : OceanFetch) (now : Z) (input : MarineConditionsInput)
         (out : MarineConditionsOutput),
    structuredContent (handleMarineConditions Date_parse fetch now input)
    = Payload out ->
    resolved_from (out_timeWindow out) = now
    /\ (resolved_to (out_timeWindow out) = now + 86400000
        \/ resolved_to (out_timeWindow out) = now + 172800000)%Z
    /\ (forall p ms,
           In p (hours out) -> Date_parse (time p) = Some ms ->
           (now <= ms <= resolved_to (out_timeWindow out))%Z).
Proof.
  intros fetch now input out. unfold handleMarineConditions.
  destruct (negb _); [discriminate|].
  destruct (fetch _ _) as [e | [timeseries cache]]; [discriminate|].
  cbn [buildToolResponse structuredContent]. intro E. injection E as <-.
  cbn [out_timeWindow hours].
  assert (F : resolved_from (Marine.resolveTimeWindow (in_timeWindow input) now)
              = now).
  { destruct (marine_window_cases (in_timeWindow input) now) as [-> | ->];
      reflexivity. }
  split; [exact F|]. split.
  - destruct (marine_window_cases (in_timeWindow input) now) as [-> | ->];
      [left | right]; reflexivity.
  - intros p ms Hin Hms.
    destruct (transformMetResponse_in _ _ _ _ Hin) as (entry & _ & Ho & ->).
    unfold transformEntry in Hms. cbn [time] in Hms.
    unfold outsideWindow in Ho. rewrite Hms, F in Ho.
    apply orb_false_iff in Ho. destruct Ho as [H1 H2].
    apply Z.ltb_ge in H1, H2. lia.
Qed.

(** X8.  Every hour of a successful answer comes from an entry of the time
    series the upstream returned for the requested position: it has that
    entry's time, and its wave height and current speed are the entry's,
    a measurement missing upstream being recorded as 0.  The hour carries
    the risk level and the note that the classifier gives for the wave
    height and current speed recorded in that same hour, for the vessel
    of the request. *)
Theorem handleMarineConditions_risk_matches_measurements :
  forall (fetch : OceanFetch) (now : Z) (input : MarineConditionsInput)
         (out : MarineConditionsOutput) (p : MarineConditionsPoint),
    structuredContent (handleMarineConditions Date_parse fetch now input)
    = Payload out ->
    In p (hours out) ->
    out_vesselType out = in_vesselType input
    /\ risk_level p
       = level (assessRiskLevel (wave_height p) (water_speed p)
                  (in_vesselType input))
    /\ risk_notes p
       = notes (assessRiskLevel (wave_height p) (water_speed p)
                  (in_vesselType input))
    /\ exists timeseries cache entry,
         fetch (lat (in_location input)) (lon (in_location input))
         = inr (timeseries, cache)
         /\ In entry timeseries
         /\ time p = entry_time entry
         /\ wave_height p
            = match sea_surface_wave_height entry with
              | Some height => height
              | None => 0
              end
         /\ water_speed p
            = match sea_water_speed entry with
              | Some speed => speed
              | None => 0
              end.
Proof.
  intros fetch now input out p. unfold handleMarineConditions.
  destruct (negb _); [discriminate|].
  destruct (fetch _ _) as [e | [timeseries cache]]; [discriminate|].
  cbn [buildToolResponse structuredContent]. intro E. injection E as <-.
  cbn [out_vesselType hours]. intro Hin.
  destruct (transformMetResponse_in _ _ _ _ Hin) as (entry & He & _ & ->).
  split; [reflexivity|]. split; [reflexivity|]. split; [reflexivity|].
  exists timeseries, cache, entry.
  split; [reflexivity|]. split; [exact He|].
  unfold transformEntry. cbn [time wave_height water_speed].
  split; [reflexivity|].
  split; [destruct (sea_surface_wave_height entry)
         | destruct (sea_water_speed entry)]; reflexivity.
Qed.

(** X9.  Both resolvers start the window at [now] and end it later; the
    forecast window is 24, 48, 168 or 240 hours long, the marine window 24
    or 48.  The two agree except for the presets [next_7d] and
    [full_available], which the marine tool resolves to 48 hours. *)
Theorem resolveTimeWindow_windows :
  forall (tw : option TimeWindow) (now : Z),
    resolved_from (LocationForecast.resolveTimeWindow tw now) = now
    /\ resolved_from (Marine.resolveTimeWindow tw now) = now
    /\ (now + 86400000
        <= resolved_to (LocationForecast.resolveTimeWindow tw now)
        <= now + 864000000)%Z
    /\ (now + 86400000
        <= resolved_to (Marine.resolveTimeWindow tw now)
        <= now + 172800000)%Z
    /\ (Marine.resolveTimeWindow tw now
        = LocationForecast.resolveTimeWindow tw now
        <-> (forall w, tw = Some w ->
                       preset w <> Some next_7d
                       /\ preset w <> Some full_available)).
Proof.
  intros tw now.
  unfold Marine.resolveTimeWindow, LocationForecast.resolveTimeWindow.
  destruct tw as [[k f t [[]|]]|]; cbn;
    (split; [reflexivity|]); (split; [reflexivity|]);
    (split; [lia|]); (split; [lia|]);
    split; intro H;
    try reflexivity;
    try (intros w Ew; injection Ew as <-; split; discriminate);
    try (intros w Ew; discriminate);
    try (exfalso; injection H as H; lia);
    try (exfalso; destruct (H _ eq_refl) as [A B];
         first [apply A; reflexivity | apply B; reflexivity]).
Qed.

End MarineTool.

Section MarineToolExamples.

Import ErrorHandler ResponseBuilder Schemas Marine Examples.

Lemma handleMarineConditions_out_of_coverage_witness :
  isError
    (handleMarineConditions WindowSpec.parseUtcTimestamp bergenFetch
       newYear2025 newYorkInput)
  = Some true.
Proof.
  exact (proj1 (proj2 (@handleMarineConditions_out_of_coverage
                         WindowSpec.parseUtcTimestamp bergenFetch newYear2025
                         newYorkInput eq_refl))).
Defined.

Lemma handleMarineConditions_hours_in_window_witness :
  exists out,
    structuredContent
      (handleMarineConditions WindowSpec.parseUtcTimestamp bergenFetch
         newYear2025 bergenInput)
    = Payload out
    /\ List.length (hours out) = 1%nat
    /\ resolved_to (out_timeWindow out) = (newYear2025 + 172800000)%Z.
Proof.
  eexists. split; [vm_compute; reflexivity|].
  split; [reflexivity|].
  destruct (@handleMarineConditions_hours_in_window
              WindowSpec.parseUtcTimestamp bergenFetch newYear2025
              bergenInput _ eq_refl) as (_ & [H | H] & _).
  - vm_compute in H. discriminate H.
  - exact H.
Defined.

Lemma handleMarineConditions_risk_matches_measurements_witness :
  exists out p,
    structuredContent
      (handleMarineConditions WindowSpec.parseUtcTimestamp bergenFetch
         newYear2025 bergenInput)
    = Payload out
    /\ In p (hours out) /\ risk_level p = high.
Proof.
  eexists. eexists. split; [vm_compute; reflexivity|].
  split; [left; reflexivity|].
  destruct (@handleMarineConditions_risk_matches_measurements
              WindowSpec.parseUtcTimestamp bergenFetch newYear2025
              bergenInput _ _ eq_refl (or_introl eq_refl)) as (_ & H & _).
  refine (eq_trans H _). reflexivity.
Defined.

End MarineToolExamples.

(** ** The trip tool *)

Section TripTool.

Import ErrorHandler ResponseBuilder Marine MarineTrip.

(** X10.  Adding a waypoint assessment never lowers the verdict, and with no
    assessment at all the verdict is safe. *)
Theorem aggregateTripRisk_monotone :
  forall (w : WaypointAssessment) (ws : list WaypointAssessment),
    (Spec.tripRank (aggregateTripRisk ws)
     <= Spec.tripRank (aggregateTripRisk (w :: ws)))%Z
    /\ aggregateTripRisk [] = safe.
Proof.
  intros w ws. split; [|reflexivity].
  rewrite !aggregateTripRisk_tripVerdict. unfold Spec.tripVerdict.
  cbn [existsb filter]. unfold Spec.maxAtLeastHigh, Spec.maxIs.
  destruct (max_risk w); cbn [orb List.length];
    destruct (existsb _ ws); cbn [Spec.tripRank];
    try lia;
    destruct (List.length (filter _ ws)) as [|[|n]]; cbn;
    try lia;
    destruct (existsb _ ws); cbn; try lia;
    destruct (existsb _ ws); cbn; lia.
Qed.

(** X11.  The numeric scale and the levels correspond: converting a level to its
    number and back gives the level, and a number read as a level is
    clamped to the range 0..3. *)
Theorem numericToRisk_riskToNumeric :
  forall (r : RiskLevel) (n : Z),
    numericToRisk (riskToNumeric r) = r
    /\ riskToNumeric (numericToRisk n) = Z.min 3 (Z.max 0 n).
Proof.
  intros r n. split; [destruct r; reflexivity|].
  unfold numericToRisk.
  destruct (Z.leb_spec 3 n); [cbn; lia|].
  destruct (Z.leb_spec 2 n); [cbn; lia|].
  destruct (Z.leb_spec 1 n); cbn; lia.
Qed.

Lemma scanHour_fields (wp : Waypoint) (st : HourScan)
  (hour : MarineConditionsPoint) :
  scan_highRiskHours (scanHour wp st hour)
  = (scan_highRiskHours st + (if Spec.isHighHour hour then 1 else 0))%Z
  /\ (exists added,
         scan_hotspots (scanHour wp st hour)
         = (scan_hotspots st ++ added)%list
         /\ List.length added = (if Spec.isHighHour hour then 1 else 0)%nat
         /\ forall h, In h added ->
                      location h = wp
                      /\ (2 <= riskToNumeric (MarineTrip.risk_level h))%Z)
  /\ scan_maxRisk (scanHour wp st hour)
     = (if (riskToNumeric (scan_maxRisk st)
            <? riskToNumeric (Marine.risk_level hour))%Z
        then Marine.risk_level hour else scan_maxRisk st).
Proof.
  unfold scanHour, Spec.isHighHour.
  cbn [scan_highRiskHours scan_hotspots scan_maxRisk].
  destruct (Z.leb_spec 2 (riskToNumeric (Marine.risk_level hour))) as [H | H].
  - split; [reflexivity|]. split; [|reflexivity].
    eexists. split; [reflexivity|]. split; [reflexivity|].
    intros h [<- | []]. split; [reflexivity | exact H].
  - split; [lia|]. split; [|reflexivity].
    exists []. rewrite app_nil_r.
    split; [reflexivity | split; [reflexivity | intros h []]].
Qed.

Lemma scan_fold_facts (wp : Waypoint) (hs : list MarineConditionsPoint) :
  forall st,
    scan_highRiskHours (fold_left (scanHour wp) hs st)
    = (scan_highRiskHours st
       + Z.of_nat (List.length (filter Spec.isHighHour hs)))%Z
    /\ (exists added,
           scan_hotspots (fold_left (scanHour wp) hs st)
           = (scan_hotspots st ++ added)%list
           /\ List.length added = List.length (filter Spec.isHighHour hs)
           /\ forall h, In h added ->
                        location h = wp
                        /\ (2 <= riskToNumeric (MarineTrip.risk_level h))%Z)
    /\ (riskToNumeric (scan_maxRisk st)
        <= riskToNumeric (scan_maxRisk (fold_left (scanHour wp) hs st)))%Z
    /\ (forall h, In h hs ->
          (riskToNumeric (Marine.risk_level h)
           <= riskToNumeric (scan_maxRisk (fold_left (scanHour wp) hs st)))%Z)
    /\ (scan_maxRisk (fold_left (scanHour wp) hs st) = scan_maxRisk st
        \/ exists h, In h hs
                     /\ Marine.risk_level h
                        = scan_maxRisk (fold_left (scanHour wp) hs st)).
Proof.
  induction hs as [|hour rest IH]; intro st; cbn [fold_left filter].
  - cbn [List.length Z.of_nat]. split; [lia|]. split.
    { exists []. rewrite app_nil_r.
      split; [reflexivity | split; [reflexivity | intros h []]]. }
    split; [lia|]. split; [intros h [] | left; reflexivity].
  - destruct (IH (scanHour wp st hour))
      as (Hc & (added & Ha & Hl & Hw) & Hmono & Hmax & Hsrc).
    destruct (scanHour_fields wp st hour)
      as (Fc & (added1 & Fa & Fl & Fw) & Fm).
    set (st1 := scanHour wp st hour) in *.
    set (final := fold_left (scanHour wp) rest st1) in *.
    assert (Hstep : (riskToNumeric (scan_maxRisk st)
                     <= riskToNumeric (scan_maxRisk st1)
                     /\ riskToNumeric (Marine.risk_level hour)
                        <= riskToNumeric (scan_maxRisk st1))%Z
                    /\ (scan_maxRisk st1 = scan_maxRisk st
                        \/ scan_maxRisk st1 = Marine.risk_level hour)).
    { rewrite Fm.
      destruct (Z.ltb_spec (riskToNumeric (scan_maxRisk st))
                  (riskToNumeric (Marine.risk_level hour)));
        (split; [split; lia|]); [right | left]; reflexivity. }
    destruct Hstep as [[S1 S2] S3].
    split.
    { rewrite Hc, Fc. destruct (Spec.isHighHour hour);
        cbn [List.length]; lia. }
    split.
    { exists (added1 ++ added)%list.
      split; [rewrite Ha, Fa, app_assoc; reflexivity|].
      split.
      - rewrite length_app, Hl, Fl.
        destruct (Spec.isHighHour hour); reflexivity.
      - intros h Hin. apply in_app_or in Hin.
        destruct Hin as [Hin | Hin]; [apply Fw | apply Hw]; exact Hin. }
    split; [lia|]. split.
    { intros h [<- | Hin]; [lia | apply Hmax; exact Hin]. }
    destruct Hsrc as [E | (h & Hin & E)].
    + destruct S3 as [E1 | E1].
      * left. congruence.
      * right. exists hour. split; [left; reflexivity | congruence].
    + right. exists h. split; [right; exact Hin | exact E].
Qed.

Lemma assessWaypoints_assessed (marine : MarineTool)
  (input : AssessMarineTripInput) :
  forall sampled k assessments collected assessments' collected',
    assessWaypoints marine input k sampled assessments collected
    = inr (assessments', collected') ->
    exists ws hs,
      assessments' = (assessments ++ ws)%list
      /\ collected' = (collected ++ hs)%list
      /\ Spec.assessedFrom marine input k sampled ws
      /\ Z.of_nat (List.length hs) = Spec.totalHighRiskHours ws
      /\ (forall h, In h hs ->
            (2 <= riskToNumeric (MarineTrip.risk_level h))%Z
            /\ exists a, In a ws /\ location h = waypoint a).
Proof.
  induction sampled as [|[wp|] rest IH];
    intros k assessments collected assessments' collected' E;
    cbn [assessWaypoints] in E.
  - injection E as <- <-. exists [], []. rewrite !app_nil_r.
    split; [reflexivity|]. split; [reflexivity|].
    split; [exact I|]. split; [reflexivity | intros h []].
  - destruct (isError_truthy _); [discriminate|].
    destruct (structuredContent (marine k _)) as [out | e] eqn:Es;
      [|discriminate].
    destruct (scan_fold_facts wp (hours out) (mkScan Marine.low 0 collected))
      as (Hc & (added & Ha & Hl & Hw) & _ & Hmax & Hsrc).
    cbn [scan_highRiskHours scan_hotspots scan_maxRisk] in Hc, Ha, Hsrc.
    rewrite Ha in E.
    destruct (IH _ _ _ _ _ E) as (ws & hs & -> & -> & Hass & Hcount & Hhot).
    set (a := mkWaypointAssessment wp
                (scan_maxRisk
                   (fold_left (scanHour wp) (hours out)
                      (mkScan Marine.low 0 collected)))
                (Z.of_nat (List.length (hours out)))
                (scan_highRiskHours
                   (fold_left (scanHour wp) (hours out)
                      (mkScan Marine.low 0 collected)))) in *.
    exists (a :: ws), (added ++ hs)%list.
    split; [rewrite <- app_assoc; reflexivity|].
    split; [rewrite <- app_assoc; reflexivity|].
    split.
    { cbn [Spec.assessedFrom]. split; [|exact Hass].
      exists out. split; [exact Es|]. subst a.
      cbn [waypoint hours_assessed high_risk_hours max_risk].
      split; [reflexivity|]. split; [reflexivity|].
      split; [rewrite Hc; lia|]. split; [exact Hmax | exact Hsrc]. }
    split.
    { rewrite length_app, Nat2Z.inj_add, Hcount, Hl.
      cbn [Spec.totalHighRiskHours fold_right]. subst a.
      cbn [high_risk_hours]. rewrite Hc.
      unfold Spec.totalHighRiskHours. lia. }
    intros h Hin. apply in_app_or in Hin. destruct Hin as [Hin | Hin].
    + destruct (Hw h Hin) as [Hl' Hr]. split; [exact Hr|].
      exists a. split; [left; reflexivity | exact Hl'].
    + destruct (Hhot h Hin) as (Hr & a' & Ha' & Hl').
      split; [exact Hr|]. exists a'. split; [right; exact Ha' | exact Hl'].
  - discriminate.
Qed.

Lemma sort_insert_perm (A : Type) (cmp : A -> A -> Z) (x : A) (xs : list A) :
  Permutation (sort_insert cmp x xs) (x :: xs).
Proof.
  induction xs as [|y r IH]; simpl; [apply Permutation_refl|].
  destruct (0 <? cmp y x)%Z; [apply Permutation_refl|].
  eapply Permutation_trans; [apply perm_skip; exact IH | apply perm_swap].
Qed.

Lemma Array_sort_perm (A : Type) (cmp : A -> A -> Z) (xs : list A) :
  Permutation (Array_sort cmp xs) xs.
Proof.
  unfold Array_sort.
  assert (G : forall acc,
             Permutation
               (fold_left (fun acc x => sort_insert cmp x acc) xs acc)
               (xs ++ acc)).
  { induction xs as [|x r IH]; intro acc; simpl; [apply Permutation_refl|].
    eapply Permutation_trans; [apply IH|].
    eapply Permutation_trans;
      [apply Permutation_app_head; apply sort_insert_perm|].
    apply Permutation_sym, Permutation_middle. }
  specialize (G []). rewrite app_nil_r in G. exact G.
Qed.

Lemma sort_insert_sorted (A : Type) (key : A -> Z) (x : A) (xs : list A) :
  Sorted (fun a b => (key b <= key a)%Z) xs ->
  Sorted (fun a b => (key b <= key a)%Z)
         (sort_insert (fun a b => (key b - key a)%Z) x xs).
Proof.
  induction xs as [|y r IH]; intro S; simpl.
  - constructor; constructor.
  - destruct (Z.ltb_spec 0 (key x - key y)).
    + constructor; [exact S|]. constructor. lia.
    + inversion S as [|? ? Sr Hd]; subst.
      constructor; [apply IH; exact Sr|].
      destruct r as [|z r']; simpl.
      * constructor. lia.
      * destruct (0 <? key x - key z)%Z; constructor;
          [lia | inversion Hd; assumption].
Qed.

Lemma Array_sort_sorted (A : Type) (key : A -> Z) (xs : list A) :
  Sorted (fun a b => (key b <= key a)%Z)
         (Array_sort (fun a b => (key b - key a)%Z) xs).
Proof.
  unfold Array_sort.
  assert (G : forall acc,
             Sorted (fun a b => (key b <= key a)%Z) acc ->
             Sorted (fun a b => (key b <= key a)%Z)
                    (fold_left
                       (fun acc x =>
                          sort_insert (fun a b => (key b - key a)%Z) x acc)
                       xs acc)).
  { induction xs as [|x r IH]; intros acc S; simpl; [exact S|].
    apply IH. apply sort_insert_sorted. exact S. }
  apply G. constructor.
Qed.

Section WithLocaleAndTool.

Variable formatHotspotTime : string -> string.
Variable marine : MarineTool.

(** X12.  A successful answer of the trip tool holds one assessment per sampled
    waypoint, in route order, each computed from the marine answer for
    that waypoint: the number of hours, the number of hours at level high
    or above, and the maximum level over the hours.  The number of
    hotspots is the sum of the high-risk hours, and the verdict is the
    roll-up of the assessments. *)
Theorem handleAssessMarineTrip_assessments :
  forall (nowFrom nowTo : Z) (input : AssessMarineTripInput)
         (out : AssessMarineTripOutput),
    structuredContent
      (handleAssessMarineTrip formatHotspotTime marine nowFrom nowTo input)
    = Payload (inr out) ->
    Spec.assessedFrom marine input 0 (sampleWaypoints (route input) 5)
      (waypoint_assessments out)
    /\ Z.of_nat (List.length (hotspots out))
       = Spec.totalHighRiskHours (waypoint_assessments out)
    /\ overall_risk out = aggregateTripRisk (waypoint_assessments out)
    /\ out_route out = route input.
Proof.
  intros nowFrom nowTo input out. unfold handleAssessMarineTrip.
  destruct (assessWaypoints marine input 0 _ [] []) as [early | [ws collected]]
    eqn:EA.
  - intro E. exfalso.
    exact (@assessWaypoints_early_no_output _ _ _ _ _ _ _ out EA E).
  - cbn [buildToolResponse structuredContent]. intro E. injection E as <-.
    cbn [waypoint_assessments hotspots overall_risk out_route].
    destruct (assessWaypoints_assessed _ _ _ _ _ _ EA)
      as (ws' & hs & -> & -> & Hass & Hcount & _).
    cbn [app]. split; [exact Hass|]. split; [|split; reflexivity].
    rewrite (Permutation_length (Array_sort_perm _ hs)). exact Hcount.
Qed.

(** X13.  The hotspots of a successful answer are listed by decreasing level;
    each has level high or above and sits at one of the assessed
    waypoints. *)
Theorem handleAssessMarineTrip_hotspots_sorted :
  forall (nowFrom nowTo : Z) (input : AssessMarineTripInput)
         (out : AssessMarineTripOutput),
    structuredContent
      (handleAssessMarineTrip formatHotspotTime marine nowFrom nowTo input)
    = Payload (inr out) ->
    Sorted Spec.byDecreasingRisk (hotspots out)
    /\ (forall h, In h (hotspots out) ->
          (2 <= riskToNumeric (MarineTrip.risk_level h))%Z
          /\ exists a, In a (waypoint_assessments out)
                       /\ location h = waypoint a).
Proof.
  intros nowFrom nowTo input out. unfold handleAssessMarineTrip.
  destruct (assessWaypoints marine input 0 _ [] []) as [early | [ws collected]]
    eqn:EA.
  - intro E. exfalso.
    exact (@assessWaypoints_early_no_output _ _ _ _ _ _ _ out EA E).
  - cbn [buildToolResponse structuredContent]. intro E. injection E as <-.
    cbn [waypoint_assessments hotspots].
    destruct (assessWaypoints_assessed _ _ _ _ _ _ EA)
      as (ws' & hs & -> & -> & _ & _ & Hhot).
    cbn [app]. split.
    + apply (Array_sort_sorted
               (fun h => riskToNumeric (MarineTrip.risk_level h))).
    + intros h Hin. apply Hhot.
      eapply Permutation_in; [apply Array_sort_perm | exact Hin].
Qed.

End WithLocaleAndTool.

Lemma sampleWaypoints_all_defined (A : Type) (route : list A) :
  forall e, In e (sampleWaypoints route 5) ->
            exists w, e = Some w /\ In w route.
Proof.
  intros e He.
  destruct (Z.le_gt_cases (Z.of_nat (List.length route)) 5) as [Hs | Hl].
  - rewrite (sampleWaypoints_short _ Hs) in He.
    apply in_map_iff in He. destruct He as (w & <- & Hw).
    exists w. split; [reflexivity | exact Hw].
  - rewrite (sampleWaypoints_long route) in He by lia.
    pose proof (sampleIndex_five_increasing Hl) as Inc.
    apply in_map_iff in He. destruct He as (i & <- & Hi).
    destruct (@at_index_in_range A route i) as (w & Ew & Hw).
    + simpl in Hi. intuition lia.
    + exists w. split; assumption.
Qed.

Lemma handleMarineConditions_well_formed (Date_parse : string -> option Z)
  (fetch : OceanFetch) (now : Z) (input : MarineConditionsInput) :
  isError_truthy (handleMarineConditions Date_parse fetch now input) = false ->
  exists out,
    structuredContent (handleMarineConditions Date_parse fetch now input)
    = Payload out.
Proof.
  unfold handleMarineConditions.
  destruct (negb _); [discriminate|].
  destruct (fetch _ _) as [e | [ts cache]]; [discriminate|].
  intros _. eexists. reflexivity.
Qed.

(** X14.  The trip tool does not aggregate partially: whenever its answer is
    flagged as an error, that answer is the error envelope which the
    marine tool gave for one of the waypoints of the route, handed back
    unchanged. *)
Theorem handleAssessMarineTrip_error_is_marine_error :
  forall (Date_parse : string -> option Z) (fetch : nat -> OceanFetch)
         (clock : nat -> Z) (formatHotspotTime : string -> string)
         (nowFrom nowTo : Z) (input : AssessMarineTripInput),
    isError_truthy
      (handleAssessMarineTrip formatHotspotTime
         (fun k => handleMarineConditions Date_parse (fetch k) (clock k))
         nowFrom nowTo input)
    = true ->
    exists (k : nat) (wp : Waypoint),
      In wp (route input)
      /\ isError_truthy
           (handleMarineConditions Date_parse (fetch k) (clock k)
              (Spec.marineInputFor input wp))
         = true
      /\ handleAssessMarineTrip formatHotspotTime
           (fun k => handleMarineConditions Date_parse (fetch k) (clock k))
           nowFrom nowTo input
         = passThrough
             (handleMarineConditions Date_parse (fetch k) (clock k)
                (Spec.marineInputFor input wp)).
Proof.
  intros Date_parse fetch clock formatHotspotTime nowFrom nowTo input.
  unfold handleAssessMarineTrip.
  pose proof (@sampleWaypoints_all_defined _ (route input)) as Hdef.
  revert Hdef. generalize (sampleWaypoints (route input) 5).
  intros sampled Hdef.
  destruct (assessWaypoints _ input 0 sampled [] []) as [early | [ws hs]]
    eqn:EA; [|discriminate].
  intros _. revert EA. generalize (@nil WaypointAssessment).
  generalize (@nil RiskHotspot). generalize 0%nat. revert early.
  induction sampled as [|[wp|] rest IH]; intros early k hs ws EA;
    cbn [assessWaypoints] in EA.
  - discriminate.
  - fold (Spec.marineInputFor input wp) in EA.
    destruct (isError_truthy
                (handleMarineConditions Date_parse (fetch k) (clock k)
                   (Spec.marineInputFor input wp))) eqn:Err.
    + injection EA as <-. exists k, wp.
      destruct (Hdef (Some wp) (or_introl eq_refl)) as (w & Ew & Hw).
      injection Ew as <-. repeat split; assumption.
    + destruct (handleMarineConditions_well_formed _ _ _ _ Err) as [out Eo].
      rewrite Eo in EA.
      eapply IH; [|exact EA].
      intros e He. apply Hdef. right. exact He.
  - exfalso. destruct (Hdef None (or_introl eq_refl)) as (w & Ew & _).
    discriminate.
Qed.

End TripTool.

Section TripToolExamples.

Import ErrorHandler ResponseBuilder Marine MarineTrip Examples.

Lemma handleAssessMarineTrip_assessments_witness :
  exists out,
    structuredContent
      (handleAssessMarineTrip (fun t => t) bergenTool 0 0 fjordTrip)
    = Payload (inr out)
    /\ Z.of_nat (List.length (hotspots out)) = 2%Z
    /\ overall_risk out = dangerous.
Proof.
  eexists. split; [vm_compute; reflexivity|].
  destruct (@handleAssessMarineTrip_assessments (fun t => t) bergenTool 0 0
              fjordTrip _ eq_refl) as (_ & Hc & Hr & _).
  split; [refine (eq_trans Hc _) | refine (eq_trans Hr _)];
    vm_compute; reflexivity.
Defined.

Lemma handleAssessMarineTrip_hotspots_sorted_witness :
  exists out,
    structuredContent
      (handleAssessMarineTrip (fun t => t) bergenTool 0 0 fjordTrip)
    = Payload (inr out)
    /\ Sorted Spec.byDecreasingRisk (hotspots out).
Proof.
  eexists. split; [vm_compute; reflexivity|].
  exact (proj1 (@handleAssessMarineTrip_hotspots_sorted (fun t => t)
                  bergenTool 0 0 fjordTrip _ eq_refl)).
Defined.

Lemma handleAssessMarineTrip_error_is_marine_error_witness :
  exists (k : nat) (wp : Waypoint),
    In wp (route atlanticTrip)
    /\ handleAssessMarineTrip (fun t => t)
         (fun k => handleMarineConditions WindowSpec.parseUtcTimestamp
                     bergenFetch newYear2025)
         0 0 atlanticTrip
       = passThrough
           (handleMarineConditions WindowSpec.parseUtcTimestamp bergenFetch
              newYear2025 (Spec.marineInputFor atlanticTrip wp)).
Proof.
  destruct (@handleAssessMarineTrip_error_is_marine_error
              WindowSpec.parseUtcTimestamp (fun _ => bergenFetch)
              (fun _ => newYear2025) (fun t => t) 0 0 atlanticTrip eq_refl)
    as (k & wp & Hin & _ & E).
  exists k, wp. split; [exact Hin | exact E].
Defined.

End TripToolExamples.

(** ** Candidates of the resolver *)

Section Candidates.

Import Places.

Lemma seen_has_iff (seen : list Z) (i : Z) :
  seen_has seen i = true <-> In i seen.
Proof.
  unfold seen_has. rewrite existsb_exists. split.
  - intros (x & Hin & E). apply Z.eqb_eq in E. subst. exact Hin.
  - intro H. exists i. split; [exact H | apply Z.eqb_refl].
Qed.

Lemma pushUnseen_spec (R : Type) (rowId : R -> Z) (mk : R -> PlaceCandidate)
  (rows : list R) :
  (forall r, Spec.candidateId (mk r) = rowId r) ->
  forall seen cands,
    (forall i, In i seen <-> In i (map Spec.candidateId cands)) ->
    NoDup (map Spec.candidateId cands) ->
    (forall i, In i (fst (pushUnseen rowId mk rows seen cands))
               <-> In i (map Spec.candidateId
                             (snd (pushUnseen rowId mk rows seen cands))))
    /\ NoDup (map Spec.candidateId
                  (snd (pushUnseen rowId mk rows seen cands)))
    /\ (exists new,
           snd (pushUnseen rowId mk rows seen cands) = (cands ++ new)%list
           /\ forall c, In c new ->
                exists r, In r rows /\ c = mk r
                          /\ ~ In (rowId r) (map Spec.candidateId cands))
    /\ (forall r, In r rows ->
          In (rowId r)
             (map Spec.candidateId
                  (snd (pushUnseen rowId mk rows seen cands)))).
Proof.
  intro Hmk. induction rows as [|r rest IH]; intros seen cands Hseen Hnd;
    cbn [pushUnseen].
  - cbn [fst snd]. split; [exact Hseen|]. split; [exact Hnd|]. split.
    + exists []. rewrite app_nil_r. split; [reflexivity | intros c []].
    + intros r [].
  - destruct (seen_has seen (rowId r)) eqn:Es.
    + destruct (IH seen cands Hseen Hnd) as (H1 & H2 & (new & E & Hnew) & H4).
      split; [exact H1|]. split; [exact H2|]. split.
      * exists new. split; [exact E|].
        intros c Hc. destruct (Hnew c Hc) as (r' & Hr' & Ec & Hn).
        exists r'. split; [right; exact Hr' | split; assumption].
      * intros r' [<- | Hr']; [|apply H4; exact Hr'].
        rewrite E, map_app. apply in_or_app. left.
        apply Hseen. apply seen_has_iff. exact Es.
    + assert (Hfresh : ~ In (rowId r) (map Spec.candidateId cands)).
      { intro K. apply Hseen in K. apply seen_has_iff in K. congruence. }
      destruct (IH (rowId r :: seen) (cands ++ [mk r])%list)
        as (H1 & H2 & (new & E & Hnew) & H4).
      { intro i. rewrite map_app, in_app_iff. cbn [map In]. rewrite Hmk.
        rewrite (Hseen i). tauto. }
      { rewrite map_app. cbn [map]. rewrite Hmk.
        apply NoDup_app; [exact Hnd | constructor; [intros [] | constructor]|].
        intros a Ha [<- | []]. exact (Hfresh Ha). }
      split; [exact H1|]. split; [exact H2|]. split.
      * exists (mk r :: new). split.
        { rewrite E, <- app_assoc. reflexivity. }
        intros c [<- | Hc].
        -- exists r. split; [left; reflexivity | split; [reflexivity|exact Hfresh]].
        -- destruct (Hnew c Hc) as (r' & Hr' & Ec & Hn).
           exists r'. split; [right; exact Hr'|]. split; [exact Ec|].
           intro K. apply Hn. rewrite map_app. apply in_or_app. left. exact K.
      * intros r' [<- | Hr']; [|apply H4; exact Hr'].
        rewrite E, !map_app. apply in_or_app. left. apply in_or_app. right.
        cbn [map]. rewrite Hmk. left. reflexivity.
Qed.

(** X15.  Merging the three result lists keeps one candidate per store id: no id
    occurs twice, every row found by some lookup is represented, and a row
    found by the exact primary-name lookup is tagged [exact_primary]
    whatever the other lookups say, a row found only by the
    alternative-name lookup and possibly the full-text search is tagged
    [exact_alt]. *)
Theorem mergeCandidates_one_per_id :
  forall (exactPrimary exactAlt : list PlaceRecord)
         (ftsResults : list (PlaceRecord * Q)),
    NoDup (map Spec.candidateId
               (mergeCandidates exactPrimary exactAlt ftsResults))
    /\ (forall r,
           In r exactPrimary \/ In r exactAlt \/ In r (map fst ftsResults) ->
           In (id r)
              (map Spec.candidateId
                   (mergeCandidates exactPrimary exactAlt ftsResults)))
    /\ (forall c,
           In c (mergeCandidates exactPrimary exactAlt ftsResults) ->
           (In (Spec.candidateId c) (map id exactPrimary) ->
            matchType c = exact_primary)
           /\ (~ In (Spec.candidateId c) (map id exactPrimary) ->
               In (Spec.candidateId c) (map id exactAlt) ->
               matchType c = exact_alt)
           /\ (In (record c) exactPrimary \/ In (record c) exactAlt
               \/ In (record c) (map fst ftsResults))).
Proof.
  intros exactPrimary exactAlt ftsResults. unfold mergeCandidates.
  destruct (@pushUnseen_spec PlaceRecord id
              (fun r => mkCandidate r exact_primary None) exactPrimary
              (fun r => eq_refl) [] [])
    as (A1 & A2 & (new1 & E1 & N1) & A4);
    [intro i; reflexivity | constructor |].
  destruct (pushUnseen id (fun r => mkCandidate r exact_primary None)
              exactPrimary [] []) as [seen1 c1].
  cbn [fst snd] in *.
  destruct (@pushUnseen_spec PlaceRecord id
              (fun r => mkCandidate r exact_alt None) exactAlt
              (fun r => eq_refl) seen1 c1 A1 A2)
    as (B1 & B2 & (new2 & E2 & N2) & B4).
  destruct (pushUnseen id (fun r => mkCandidate r exact_alt None)
              exactAlt seen1 c1) as [seen2 c2].
  cbn [fst snd] in *.
  destruct (@pushUnseen_spec (PlaceRecord * Q) (fun row => id (fst row))
              (fun row =>
                 mkCandidate (fst row)
                   (if Qltb (snd row) 0 then prefix else fuzzy)
                   (Some (Qabs (snd row))))
              ftsResults (fun r => eq_refl) seen2 c2 B1 B2)
    as (C1 & C2 & (new3 & E3 & N3) & C4).
  destruct (pushUnseen (fun row => id (fst row)) _ ftsResults seen2 c2)
    as [seen3 c3].
  cbn [fst snd] in *. cbn [app] in E1. subst c1 c2 c3.
  split; [exact C2|]. split.
  - intros r [H | [H | H]].
    + rewrite !map_app. apply in_or_app. left. apply in_or_app. left.
      apply A4. exact H.
    + rewrite map_app. apply in_or_app. left. apply B4. exact H.
    + apply in_map_iff in H. destruct H as (row & <- & Hrow).
      apply (C4 row Hrow).
  - intros c Hc. apply in_app_or in Hc. destruct Hc as [Hc | Hc];
      [apply in_app_or in Hc; destruct Hc as [Hc | Hc]|].
    + destruct (N1 c Hc) as (r & Hr & -> & _). cbn [matchType record].
      split; [reflexivity|]. split.
      * intro K. exfalso. apply K. unfold Spec.candidateId. cbn [record].
        apply in_map. exact Hr.
      * left. exact Hr.
    + destruct (N2 c Hc) as (r & Hr & -> & Hn).
      cbn [matchType record]. unfold Spec.candidateId. cbn [record].
      split; [|split; [reflexivity | right; left; exact Hr]].
      intro K. exfalso. apply Hn. apply in_map_iff in K.
      destruct K as (r' & E & Hr'). rewrite <- E.
      apply (A4 r' Hr').
    + destruct (N3 c Hc) as (row & Hrow & -> & Hn).
      unfold Spec.candidateId. cbn [matchType record].
      split; [|split].
      * intro K. exfalso. apply Hn. rewrite map_app. apply in_or_app. left.
        apply in_map_iff in K. destruct K as (r' & E & Hr'). rewrite <- E.
        apply (A4 r' Hr').
      * intros _ K. exfalso. apply Hn.
        apply in_map_iff in K. destruct K as (r' & E & Hr'). rewrite <- E.
        apply (B4 r' Hr').
      * right; right. apply in_map. exact Hrow.
Qed.

End Candidates.

(** ** Filters of the resolver *)

Section Filters.

Import Places.
Local Open Scope string_scope.

Lemma sort_insert_app_ones (A : Type) (key : A -> Z) (x : A) (M N : list A) :
  (key x <= 1)%Z ->
  Forall (fun y => key y = 1%Z) M ->
  sort_insert (fun a b => (key b - key a)%Z) x (M ++ N)
  = (M ++ sort_insert (fun a b => (key b - key a)%Z) x N)%list.
Proof.
  intros Hx HM. induction HM as [|y M Hy HM IH]; simpl; [reflexivity|].
  destruct (Z.ltb_spec 0 (key x - key y)); [lia|]. rewrite IH. reflexivity.
Qed.

Lemma sort_insert_zeros (A : Type) (key : A -> Z) (x : A) (N : list A) :
  Forall (fun y => key y = 0%Z) N ->
  sort_insert (fun a b => (key b - key a)%Z) x N
  = if (key x =? 1)%Z then x :: N else
      if (key x =? 0)%Z then (N ++ [x])%list
      else sort_insert (fun a b => (key b - key a)%Z) x N.
Proof.
  intro HN. destruct (Z.eqb_spec (key x) 1) as [E1 | N1].
  - destruct HN as [|y N Hy HN]; simpl; [reflexivity|].
    destruct (Z.ltb_spec 0 (key x - key y)); [reflexivity | lia].
  - destruct (Z.eqb_spec (key x) 0) as [E0 | N0]; [|reflexivity].
    induction HN as [|y N Hy HN IH]; simpl; [reflexivity|].
    destruct (Z.ltb_spec 0 (key x - key y)); [lia|]. rewrite IH. reflexivity.
Qed.

(** Sorting by a 0/1 key, larger first, is a stable partition. *)
Lemma Array_sort_partition (A : Type) (key : A -> Z) (xs : list A) :
  (forall x, key x = 0 \/ key x = 1)%Z ->
  Array_sort (fun a b => (key b - key a)%Z) xs
  = (filter (fun x => (key x =? 1)%Z) xs
     ++ filter (fun x => (key x =? 0)%Z) xs)%list.
Proof.
  intro Hkey. unfold Array_sort.
  assert (G : forall pre,
             fold_left
               (fun acc x => sort_insert (fun a b => (key b - key a)%Z) x acc)
               xs
               (filter (fun x => (key x =? 1)%Z) pre
                ++ filter (fun x => (key x =? 0)%Z) pre)%list
             = (filter (fun x => (key x =? 1)%Z) (pre ++ xs)
                ++ filter (fun x => (key x =? 0)%Z) (pre ++ xs))%list).
  { induction xs as [|x r IH]; intro pre; cbn [fold_left].
    - rewrite app_nil_r. reflexivity.
    - replace (pre ++ x :: r)%list with ((pre ++ [x]) ++ r)%list
        by (rewrite <- app_assoc; reflexivity).
      rewrite <- IH. f_equal.
      rewrite sort_insert_app_ones;
        [| destruct (Hkey x); lia
         | apply Forall_forall; intros y Hy; apply filter_In in Hy;
           destruct Hy as [_ Hy]; apply Z.eqb_eq in Hy; exact Hy].
      rewrite sort_insert_zeros
        by (apply Forall_forall; intros y Hy; apply filter_In in Hy;
            destruct Hy as [_ Hy]; apply Z.eqb_eq in Hy; exact Hy).
      rewrite !filter_app. cbn [filter].
      destruct (Hkey x) as [E | E]; rewrite E; cbn [Z.eqb];
        rewrite ?app_nil_r; [rewrite app_assoc | rewrite <- app_assoc];
        reflexivity. }
  apply (G []).
Qed.

Lemma inMunicipality_key (code : string) (c : PlaceCandidate) :
  inMunicipality code c
  = if Spec.inPreferredMunicipality code c then 1%Z else 0%Z.
Proof.
  unfold inMunicipality, Spec.inPreferredMunicipality.
  destruct (municipality_code (record c)); reflexivity.
Qed.

(** X16.  With a preferred municipality and no class preference, the candidates
    of that municipality come first and the others after them, each group
    in its original order and none dropped, before the list is cut at
    twice the limit. *)
Theorem applyFilters_preferred_municipality_first :
  forall (candidates : list PlaceCandidate) (options : ResolveOptions)
         (code : string),
    preferredPlaceClasses options = None ->
    preferredMunicipalityCode options = Some code ->
    code <> "" ->
    applyFilters candidates options
    = slice0
        (filter (Spec.inPreferredMunicipality code) candidates
         ++ filter (fun c => negb (Spec.inPreferredMunicipality code c))
                   candidates)
        (limit options * 2).
Proof.
  intros candidates options code Hc Hm Hne. unfold applyFilters.
  rewrite Hc, Hm.
  assert (T : truthy_string code = true).
  { unfold truthy_string. apply negb_true_iff. apply String.eqb_neq.
    exact Hne. }
  rewrite T. f_equal.
  rewrite (Array_sort_partition (inMunicipality code))
    by (intro c; rewrite inMunicipality_key;
        destruct (Spec.inPreferredMunicipality code c); auto).
  f_equal; apply filter_ext; intro c; rewrite inMunicipality_key;
    destruct (Spec.inPreferredMunicipality code c); reflexivity.
Qed.

Lemma applyFilters_preferred_municipality_first_witness :
  map Spec.candidateId
      (applyFilters Examples.threeCandidates
         (mkOptions "vik" 5 None (Some "4640")))
  = [1; 2; 3]%Z.
Proof.
  rewrite (@applyFilters_preferred_municipality_first
             Examples.threeCandidates (mkOptions "vik" 5 None (Some "4640"))
             "4640" eq_refl eq_refl ltac:(discriminate)).
  reflexivity.
Defined.

Lemma applyFilters_subset (candidates : list PlaceCandidate)
  (options : ResolveOptions) :
  forall c, In c (applyFilters candidates options) ->
    In c candidates
    /\ forall classes,
         preferredPlaceClasses options = Some classes ->
         existsb (Spec.hasPreferredClass classes) candidates = true ->
         Spec.hasPreferredClass classes c = true.
Proof.
  intros c Hc. unfold applyFilters in Hc. apply slice0_In in Hc.
  assert (Hc' : In c
                  match preferredPlaceClasses options with
                  | Some classes =>
                      if (0 <? List.length classes)%nat then
                        if (0 <? List.length
                                   (filter
                                      (fun c =>
                                         match place_class (record c) with
                                         | Some pc =>
                                             truthy_string pc
                                             && includes classes pc
                                         | None => false
                                         end) candidates))%nat
                        then filter
                               (fun c =>
                                  match place_class (record c) with
                                  | Some pc =>
                                      truthy_string pc && includes classes pc
                                  | None => false
                                  end) candidates
                        else candidates
                      else candidates
                  | None => candidates
                  end).
  { destruct (preferredMunicipalityCode options) as [code|]; [|exact Hc].
    destruct (truthy_string code); [|exact Hc].
    eapply Array_sort_In. exact Hc. }
  clear Hc.
  assert (Ef : forall classes x,
             match place_class (record x) with
             | Some pc => truthy_string pc && includes classes pc
             | None => false
             end = Spec.hasPreferredClass classes x).
  { intros classes x. unfold Spec.hasPreferredClass, truthy_string, includes.
    destruct (place_class (record x)); reflexivity. }
  destruct (preferredPlaceClasses options) as [classes|].
  - rewrite (filter_ext _ _ (Ef classes)) in Hc'.
    destruct (Nat.ltb_spec 0 (List.length classes)) as [Hl | Hl].
    + destruct (Nat.ltb_spec 0
                  (List.length
                     (filter (Spec.hasPreferredClass classes) candidates)))
        as [Hp | Hp].
      * apply filter_In in Hc'. destruct Hc' as [Hin Hclass].
        split; [exact Hin|]. intros cl E _. injection E as <-. exact Hclass.
      * split; [exact Hc'|]. intros cl E Hex. injection E as <-.
        exfalso. apply existsb_exists in Hex. destruct Hex as (x & Hx & Hcl).
        assert (K : In x (filter (Spec.hasPreferredClass classes) candidates))
          by (apply filter_In; split; assumption).
        destruct (filter (Spec.hasPreferredClass classes) candidates);
          [exact K | simpl in Hp; lia].
    + split; [exact Hc'|]. intros cl E Hex. injection E as <-.
      exfalso. destruct classes; [|simpl in Hl; lia].
      apply existsb_exists in Hex. destruct Hex as (x & _ & Hcl).
      unfold Spec.hasPreferredClass in Hcl.
      destruct (place_class (record x)); [|discriminate].
      cbn [existsb] in Hcl. rewrite andb_false_r in Hcl. discriminate.
  - split; [exact Hc'|]. intros cl E. discriminate.
Qed.

(** X17.  The filters only ever select among the given candidates; and when at
    least one candidate belongs to a preferred place class, every
    candidate that is kept belongs to one. *)
Theorem applyFilters_preferred_classes :
  forall (candidates : list PlaceCandidate) (options : ResolveOptions)
         (classes : list string) (c : PlaceCandidate),
    preferredPlaceClasses options = Some classes ->
    existsb (Spec.hasPreferredClass classes) candidates = true ->
    In c (applyFilters candidates options) ->
    In c candidates /\ Spec.hasPreferredClass classes c = true.
Proof.
  intros candidates options classes c Hcl Hex Hin.
  destruct (applyFilters_subset _ _ _ Hin) as [H1 H2].
  split; [exact H1 | exact (H2 classes Hcl Hex)].
Qed.

Lemma applyFilters_preferred_classes_witness :
  Spec.hasPreferredClass ["town"; "city"]
    (mkCandidate Examples.vikTown exact_alt None) = true.
Proof.
  exact (proj2 (@applyFilters_preferred_classes Examples.threeCandidates
                  (mkOptions "vik" 5 (Some ["town"; "city"]) None)
                  ["town"; "city"]
                  (mkCandidate Examples.vikTown exact_alt None)
                  eq_refl eq_refl (or_intror (or_introl eq_refl)))).
Defined.

(** X18.  When no candidate belongs to a preferred place class the preference is
    dropped: the result is the one obtained without it. *)
Theorem applyFilters_class_fallback :
  forall (candidates : list PlaceCandidate) (options : ResolveOptions)
         (classes : list string),
    preferredPlaceClasses options = Some classes ->
    existsb (Spec.hasPreferredClass classes) candidates = false ->
    applyFilters candidates options
    = applyFilters candidates
        (mkOptions (query options) (limit options) None
           (preferredMunicipalityCode options)).
Proof.
  intros candidates options classes Hcl Hex. unfold applyFilters.
  rewrite Hcl. cbn [preferredPlaceClasses preferredMunicipalityCode limit].
  assert (F : filter
                (fun c =>
                   match place_class (record c) with
                   | Some pc => truthy_string pc && includes classes pc
                   | None => false
                   end) candidates = []).
  { erewrite filter_ext; [apply filter_none; exact Hex|].
    intro x. unfold Spec.hasPreferredClass, truthy_string, includes.
    destruct (place_class (record x)); reflexivity. }
  rewrite F. change (0 <? List.length (@nil PlaceCandidate))%nat with false.
  destruct (0 <? List.length classes)%nat; reflexivity.
Qed.

Lemma applyFilters_class_fallback_witness :
  map Spec.candidateId
      (applyFilters Examples.threeCandidates
         (mkOptions "vik" 5 (Some ["farm"]) None))
  = [3; 1; 2]%Z.
Proof.
  rewrite (@applyFilters_class_fallback Examples.threeCandidates
             (mkOptions "vik" 5 (Some ["farm"]) None) ["farm"]
             eq_refl eq_refl).
  reflexivity.
Defined.

End Filters.

(** ** Confidence scores *)

Section Confidence.

Import Places.

Variable JSON_parse : string -> option (list string).
Variable normalizeNorwegian : string -> string.

Lemma boosts_nonnegative (c : PlaceCandidate) (c0 : Q) :
  (c0
   <= match importance_score (record c) with
      | Some s =>
          if Qltb 0 s
          then (if (is_municipality_seat (record c) =? 1)%Z
                then (if (is_county_seat (record c) =? 1)%Z
                      then c0 + 0.05 else c0) + 0.03
                else (if (is_county_seat (record c) =? 1)%Z
                      then c0 + 0.05 else c0))
               + Qmin 0.05 (s / 10)
          else (if (is_municipality_seat (record c) =? 1)%Z
                then (if (is_county_seat (record c) =? 1)%Z
                      then c0 + 0.05 else c0) + 0.03
                else (if (is_county_seat (record c) =? 1)%Z
                      then c0 + 0.05 else c0))
      | None =>
          (if (is_municipality_seat (record c) =? 1)%Z
           then (if (is_county_seat (record c) =? 1)%Z
                 then c0 + 0.05 else c0) + 0.03
           else (if (is_county_seat (record c) =? 1)%Z
                 then c0 + 0.05 else c0))
      end)%Q.
Proof.
  assert (B : (c0 <= (if (is_municipality_seat (record c) =? 1)%Z
                      then (if (is_county_seat (record c) =? 1)%Z
                            then c0 + 0.05 else c0) + 0.03
                      else (if (is_county_seat (record c) =? 1)%Z
                            then c0 + 0.05 else c0)))%Q).
  { destruct (is_municipality_seat (record c) =? 1)%Z;
      destruct (is_county_seat (record c) =? 1)%Z; lra. }
  destruct (importance_score (record c)) as [s|]; [|exact B].
  destruct (Qltb 0 s) eqn:Es; [|exact B].
  apply Qltb_true_iff in Es.
  assert (M : (0 <= Qmin 0.05 (s / 10))%Q).
  { apply Q.min_glb; [lra|]. apply Qle_shift_div_l; lra. }
  lra.
Qed.

Lemma confidenceOf_exact_primary_top (c : PlaceCandidate) :
  matchType c = exact_primary -> (confidenceOf c 0 == 1)%Q.
Proof.
  intro Hm. unfold confidenceOf. rewrite Hm.
  pose proof (boosts_nonnegative c 1.0) as B.
  change (inject_Z 0) with 0%Q.
  rewrite Q.min_l by lra. rewrite Q.max_r by lra. reflexivity.
Qed.

(** X19.  The position penalty: moving a candidate one place down never raises
    its score.  An exact primary-name match in one of the first six
    positions scores at least 0.95, and in the first position exactly 1. *)
Theorem confidenceOf_position_penalty :
  forall (c : PlaceCandidate) (index : Z),
    (confidenceOf c (index + 1) <= confidenceOf c index)%Q
    /\ (matchType c = exact_primary -> (0 <= index <= 5)%Z ->
        (0.95 <= confidenceOf c index)%Q)
    /\ (matchType c = exact_primary -> confidenceOf c 0 == 1)%Q.
Proof.
  intros c index. split; [|split].
  - unfold confidenceOf.
    apply Q.max_le_compat_l. apply Q.min_le_compat_l.
    rewrite inject_Z_plus. change (inject_Z 1) with 1%Q. lra.
  - intros Hm [Hlo Hhi]. unfold confidenceOf. rewrite Hm.
    pose proof (boosts_nonnegative c 1.0) as B.
    assert (I : (inject_Z index <= 5)%Q).
    { change 5%Q with (inject_Z 5). rewrite <- Zle_Qle. exact Hhi. }
    eapply Qle_trans; [|apply Q.le_max_r].
    apply Q.min_glb; lra.
  - apply confidenceOf_exact_primary_top.
Qed.

Lemma pushUnseen_extends (R : Type) (rowId : R -> Z)
  (mk : R -> PlaceCandidate) (rows : list R) :
  forall seen cands,
    exists new, snd (pushUnseen rowId mk rows seen cands)
                = (cands ++ new)%list.
Proof.
  induction rows as [|r rest IH]; intros seen cands; cbn [pushUnseen].
  - exists []. rewrite app_nil_r. reflexivity.
  - destruct (seen_has seen (rowId r)); [apply IH|].
    destruct (IH (rowId r :: seen) (cands ++ [mk r])%list) as [new E].
    exists (mk r :: new). rewrite E, <- app_assoc. reflexivity.
Qed.

Lemma mergeCandidates_head (r : PlaceRecord) (rest exactAlt : list PlaceRecord)
  (ftsResults : list (PlaceRecord * Q)) :
  exists tl,
    mergeCandidates (r :: rest) exactAlt ftsResults
    = mkCandidate r exact_primary None :: tl.
Proof.
  unfold mergeCandidates. cbn [pushUnseen seen_has existsb app].
  destruct (pushUnseen_extends id (fun r => mkCandidate r exact_primary None)
              rest [id r] [mkCandidate r exact_primary None]) as [n1 E1].
  destruct (pushUnseen id (fun r => mkCandidate r exact_primary None) rest
              [id r] [mkCandidate r exact_primary None]) as [seen1 c1].
  cbn [snd] in E1. subst c1.
  destruct (pushUnseen_extends id (fun r => mkCandidate r exact_alt None)
              exactAlt seen1
              ([mkCandidate r exact_primary None] ++ n1)) as [n2 E2].
  destruct (pushUnseen id (fun r => mkCandidate r exact_alt None) exactAlt
              seen1 _) as [seen2 c2].
  cbn [snd] in E2. subst c2.
  match goal with
  | |- context [pushUnseen ?f ?g ftsResults seen2 ?c] =>
      destruct (pushUnseen_extends f g ftsResults seen2 c) as [n3 E3];
      destruct (pushUnseen f g ftsResults seen2 c) as [seen3 c3]
  end.
  cbn [snd] in E3. subst c3. cbn [app]. eexists. reflexivity.
Qed.

Lemma slice0_cons (A : Type) (x : A) (xs : list A) (e : Z) :
  (1 <= e)%Z -> exists tl, slice0 (x :: xs) e = x :: tl.
Proof.
  intro H. unfold slice0. destruct (Z.ltb_spec e 0); [lia|].
  destruct (Z.to_nat e) as [|n] eqn:En; [lia|].
  cbn [firstn]. eexists. reflexivity.
Qed.

(** X20.  When the store holds a place whose primary name is the query and the
    request states no preference, the first match is the first such place
    and its confidence is 1. *)
Theorem resolveName_exact_primary_first :
  forall (db : PlacesDB) (options : ResolveOptions) (r : PlaceRecord)
         (rest : list PlaceRecord),
    findExactPrimary db (normalizeNorwegian (query options)) = r :: rest ->
    preferredPlaceClasses options = None ->
    preferredMunicipalityCode options = None ->
    (1 <= limit options)%Z ->
    exists m tl,
      resolveName JSON_parse normalizeNorwegian db options = m :: tl
      /\ match_id m = ssr_id r /\ match_name m = primary_name r
      /\ (confidence m == 1)%Q.
Proof.
  intros db options r rest Hp Hc Hm Hl. unfold resolveName. rewrite Hp.
  destruct (mergeCandidates_head r rest
              (findExactAlt db (normalizeNorwegian (query options)))
              (findFTS db (normalizeNorwegian (query options))
                 (limit options * 3))) as [tl1 ->].
  unfold applyFilters. rewrite Hc, Hm.
  destruct (@slice0_cons _ (mkCandidate r exact_primary None) tl1
              (limit options * 2) ltac:(lia)) as [tl2 ->].
  unfold assignConfidence. cbn [mapWithIndex].
  destruct (@slice0_cons _
              (toMatch JSON_parse (mkCandidate r exact_primary None) 0)
              (mapWithIndex JSON_parse tl2 (0 + 1)) (limit options) Hl)
    as [tl3 ->].
  eexists. eexists. split; [reflexivity|].
  split; [reflexivity|]. split; [reflexivity|].
  cbn [toMatch confidence].
  apply (confidenceOf_exact_primary_top (mkCandidate r exact_primary None)).
  reflexivity.
Qed.

End Confidence.

Section ConfidenceExamples.

Import Places Examples.
Local Open Scope string_scope.

Lemma resolveName_exact_primary_first_witness :
  exists m tl,
    resolveName (fun _ => None) (fun s => s) osloStore
      (mkOptions "bergen" 5 None None) = m :: tl
    /\ match_id m = "ssr-3"%string /\ List.length tl = 2%nat.
Proof.
  destruct (@resolveName_exact_primary_first (fun _ => None) (fun s => s)
              osloStore (mkOptions "bergen" 5 None None) bergenCity []
              eq_refl eq_refl eq_refl ltac:(discriminate))
    as (m & tl & E & Hid & _ & _).
  exists m, tl. split; [exact E|]. split; [exact Hid|].
  assert (L : List.length
                (resolveName (fun _ => None) (fun s => s) osloStore
                   (mkOptions "bergen" 5 None None)) = 3%nat)
    by reflexivity.
  rewrite E in L. simpl in L. lia.
Defined.

End ConfidenceExamples.

(** ** The order of the matches *)

Section ResolverOrder.

Import Places.
Local Open Scope string_scope.

Variable JSON_parse : string -> option (list string).
Variable normalizeNorwegian : string -> string.

Lemma subsequence_map (A B : Type) (f : A -> B) (xs ys : list A) :
  Spec.subsequence xs ys -> Spec.subsequence (map f xs) (map f ys).
Proof.
  induction 1; cbn [map]; constructor; assumption.
Qed.

(** One loop of the merge appends, in their order, the candidates of some
    of its rows, and afterwards the id of each of its rows has been
    seen. *)
Lemma pushUnseen_kept (R : Type) (rowId : R -> Z)
  (mk : R -> PlaceCandidate) (rows : list R) :
  forall seen cands,
    exists kept,
      snd (pushUnseen rowId mk rows seen cands)
      = (cands ++ map mk kept)%list
      /\ Spec.subsequence kept rows
      /\ (forall i, In i (fst (pushUnseen rowId mk rows seen cands))
                    <-> In i seen \/ In i (map rowId kept))
      /\ (forall r, In r rows ->
                    In (rowId r) (fst (pushUnseen rowId mk rows seen cands))).
Proof.
  induction rows as [|r rest IH]; intros seen cands; cbn [pushUnseen].
  - exists []. cbn [fst snd map]. rewrite app_nil_r.
    split; [reflexivity|]. split; [constructor|].
    split; [intro i; cbn [In]; tauto | intros r []].
  - destruct (seen_has seen (rowId r)) eqn:Es.
    + destruct (IH seen cands) as (kept & E & S & Hs & Hr).
      exists kept. split; [exact E|]. split; [constructor; exact S|].
      split; [exact Hs|].
      intros r' [<- | H']; [|apply Hr; exact H'].
      apply Hs. left. apply seen_has_iff. exact Es.
    + destruct (IH (rowId r :: seen) (cands ++ [mk r])%list)
        as (kept & E & S & Hs & Hr).
      exists (r :: kept).
      split; [rewrite E, <- app_assoc; reflexivity|].
      split; [constructor; exact S|].
      split.
      * intro i. rewrite Hs. cbn [map In]. tauto.
      * intros r' [<- | H']; [|apply Hr; exact H'].
        apply Hs. left. left. reflexivity.
Qed.

(** The merged candidates are the exact primary-name rows, then the exact
    alternative-name rows, then the full-text rows, each group in the
    order of its lookup; every row that a lookup found has a candidate
    with its id. *)
Lemma mergeCandidates_by_source (exactPrimary exactAlt : list PlaceRecord)
  (ftsResults : list (PlaceRecord * Q)) :
  exists primary alt fts,
    mergeCandidates exactPrimary exactAlt ftsResults
    = (primary ++ alt ++ fts)%list
    /\ Forall (fun c => matchType c = exact_primary) primary
    /\ Spec.subsequence (map record primary) exactPrimary
    /\ Forall (fun c => matchType c = exact_alt) alt
    /\ Spec.subsequence (map record alt) exactAlt
    /\ Forall (fun c => matchType c = prefix \/ matchType c = fuzzy) fts
    /\ Spec.subsequence (map record fts) (map fst ftsResults)
    /\ (forall r,
           In r exactPrimary \/ In r exactAlt \/ In r (map fst ftsResults) ->
           In (id r) (map Spec.candidateId (primary ++ alt ++ fts)%list)).
Proof.
  unfold mergeCandidates.
  destruct (pushUnseen_kept id (fun r => mkCandidate r exact_primary None)
              exactPrimary [] []) as (k1 & E1 & S1 & I1 & R1).
  destruct (pushUnseen id (fun r => mkCandidate r exact_primary None)
              exactPrimary [] []) as [seen1 c1].
  cbn [fst snd app] in E1, I1, R1. subst c1.
  destruct (pushUnseen_kept id (fun r => mkCandidate r exact_alt None)
              exactAlt seen1
              (map (fun r => mkCandidate r exact_primary None) k1))
    as (k2 & E2 & S2 & I2 & R2).
  destruct (pushUnseen id (fun r => mkCandidate r exact_alt None) exactAlt
              seen1 _) as [seen2 c2].
  cbn [fst snd] in E2, I2, R2. subst c2.
  match goal with
  | |- context [pushUnseen ?f ?g ftsResults seen2 ?c] =>
      destruct (pushUnseen_kept f g ftsResults seen2 c)
        as (k3 & E3 & S3 & I3 & R3);
      destruct (pushUnseen f g ftsResults seen2 c) as [seen3 c3]
  end.
  cbn [fst snd] in E3, I3, R3. subst c3.
  exists (map (fun r => mkCandidate r exact_primary None) k1),
         (map (fun r => mkCandidate r exact_alt None) k2),
         (map (fun row =>
                 mkCandidate (fst row)
                   (if Qltb (snd row) 0 then prefix else fuzzy)
                   (Some (Qabs (snd row)))) k3).
  split; [rewrite <- app_assoc; reflexivity|].
  split; [apply Forall_forall; intros c Hc; apply in_map_iff in Hc;
          destruct Hc as (r & <- & _); reflexivity|].
  split; [rewrite map_map; cbn [record]; rewrite map_id; exact S1|].
  split; [apply Forall_forall; intros c Hc; apply in_map_iff in Hc;
          destruct Hc as (r & <- & _); reflexivity|].
  split; [rewrite map_map; cbn [record]; rewrite map_id; exact S2|].
  split.
  { apply Forall_forall. intros c Hc. apply in_map_iff in Hc.
    destruct Hc as (row & <- & _). cbn [matchType].
    destruct (Qltb (snd row) 0); [left | right]; reflexivity. }
  split; [rewrite map_map; cbn [record]; apply subsequence_map; exact S3|].
  assert (Seen3 : forall i,
             In i seen3 ->
             In i (map Spec.candidateId
                     (map (fun r => mkCandidate r exact_primary None) k1
                      ++ map (fun r => mkCandidate r exact_alt None) k2
                      ++ map (fun row =>
                                mkCandidate (fst row)
                                  (if Qltb (snd row) 0 then prefix else fuzzy)
                                  (Some (Qabs (snd row)))) k3)%list)).
  { intros i Hi. rewrite !map_app, !map_map. unfold Spec.candidateId.
    cbn [record]. rewrite !in_app_iff.
    apply I3 in Hi. destruct Hi as [Hi | Hi]; [|right; right; exact Hi].
    apply I2 in Hi. destruct Hi as [Hi | Hi]; [|right; left; exact Hi].
    apply I1 in Hi. destruct Hi as [[] | Hi]. left. exact Hi. }
  intros r [H | [H | H]]; apply Seen3.
  - apply I3. left. apply I2. left. apply R1. exact H.
  - apply I3. left. apply R2. exact H.
  - apply in_map_iff in H. destruct H as (row & <- & Hrow).
    apply (R3 row Hrow).
Qed.

Lemma hasPreferredClass_test (classes : list string) (c : PlaceCandidate) :
  match place_class (record c) with
  | Some pc => truthy_string pc && includes classes pc
  | None => false
  end = Spec.hasPreferredClass classes c.
Proof.
  unfold Spec.hasPreferredClass, truthy_string, includes.
  destruct (place_class (record c)); reflexivity.
Qed.

(** The filters as a selection: the class preference, then the
    municipality bias, then the cut at twice the limit. *)
Lemma applyFilters_selection (candidates : list PlaceCandidate)
  (options : ResolveOptions) :
  applyFilters candidates options
  = slice0
      (Spec.municipalityFirst (preferredMunicipalityCode options)
         (Spec.classSelected (preferredPlaceClasses options) candidates))
      (limit options * 2).
Proof.
  unfold applyFilters. f_equal.
  set (filtered1 := match preferredPlaceClasses options with
                    | Some _ => _
                    | None => _
                    end).
  assert (F1 : filtered1
               = Spec.classSelected (preferredPlaceClasses options)
                   candidates).
  { subst filtered1. unfold Spec.classSelected.
    destruct (preferredPlaceClasses options) as [cl|]; [|reflexivity].
    rewrite (filter_ext _ _ (hasPreferredClass_test cl)).
    destruct cl as [|c0 cl].
    - cbn [List.length Nat.ltb Nat.leb].
      rewrite filter_none; [reflexivity|].
      clear. induction candidates as [|c r IH]; [reflexivity|].
      cbn [existsb]. rewrite IH. unfold Spec.hasPreferredClass.
      destruct (place_class (record c)); [|reflexivity].
      cbn [existsb]. rewrite andb_false_r. reflexivity.
    - change (0 <? List.length (c0 :: cl))%nat with true. cbv iota.
      destruct (filter (Spec.hasPreferredClass (c0 :: cl)) candidates);
        reflexivity. }
  rewrite F1. unfold Spec.municipalityFirst.
  destruct (preferredMunicipalityCode options) as [code|]; [|reflexivity].
  unfold truthy_string. destruct (String.eqb code ""); cbn [negb];
    [reflexivity|].
  rewrite (Array_sort_partition (inMunicipality code))
    by (intro c; rewrite inMunicipality_key;
        destruct (Spec.inPreferredMunicipality code c); auto).
  f_equal; apply filter_ext; intro c; rewrite inMunicipality_key;
    destruct (Spec.inPreferredMunicipality code c); reflexivity.
Qed.

(** C1, as amended.  For every query on a fixed store with a limit that is
    not negative, the match list has at most [limit] entries and every
    confidence lies in [0, 1].  The candidates are the exact primary-name
    rows, then the exact alternative-name rows, then the full-text rows,
    each group in the order of its lookup and every row found having a
    candidate with its id; the matches are the first
    [limit] of them after the class preference (only candidates of a
    preferred class, when there is one) and the municipality bias
    (candidates of the preferred municipality first, the order kept
    otherwise).  The list is not re-sorted by confidence. *)
Theorem resolveName_bounded_in_candidate_order :
  forall (db : PlacesDB) (options : ResolveOptions),
    (0 <= limit options)%Z ->
    let normalized := normalizeNorwegian (query options) in
    let exactPrimary := findExactPrimary db normalized in
    let exactAlt := findExactAlt db normalized in
    let ftsResults := findFTS db normalized (limit options * 3) in
    let candidates :=
      applyFilters (mergeCandidates exactPrimary exactAlt ftsResults)
        options in
    let results := resolveName JSON_parse normalizeNorwegian db options in
    (Z.of_nat (List.length results) <= limit options)%Z
    /\ (forall m, In m results ->
                  (0 <= confidence m /\ confidence m <= 1)%Q)
    /\ map match_id results
       = firstn (Z.to_nat (limit options))
                (map (fun c => ssr_id (record c)) candidates)
    /\ exists primary alt fts : list PlaceCandidate,
         mergeCandidates exactPrimary exactAlt ftsResults
         = (primary ++ alt ++ fts)%list
         /\ Forall (fun c => matchType c = exact_primary) primary
         /\ Spec.subsequence (map record primary) exactPrimary
         /\ Forall (fun c => matchType c = exact_alt) alt
         /\ Spec.subsequence (map record alt) exactAlt
         /\ Forall (fun c => matchType c = prefix \/ matchType c = fuzzy) fts
         /\ Spec.subsequence (map record fts) (map fst ftsResults)
         /\ (forall r,
                In r exactPrimary \/ In r exactAlt
                \/ In r (map fst ftsResults) ->
                In (id r)
                   (map Spec.candidateId (primary ++ alt ++ fts)%list))
         /\ map match_id results
            = map (fun c => ssr_id (record c))
                (firstn (Z.to_nat (limit options))
                   (Spec.municipalityFirst
                      (preferredMunicipalityCode options)
                      (Spec.classSelected (preferredPlaceClasses options)
                         (primary ++ alt ++ fts)%list))).
Proof.
  intros db options Hlimit normalized exactPrimary exactAlt ftsResults
         candidates results.
  assert (Hids : map match_id results
                 = firstn (Z.to_nat (limit options))
                          (map (fun c => ssr_id (record c)) candidates)).
  { subst results. unfold resolveName, assignConfidence.
    rewrite slice0_map, mapWithIndex_ids. unfold slice0.
    destruct (Z.ltb_spec (limit options) 0); [lia | reflexivity]. }
  split; [apply slice0_length; exact Hlimit|]. split.
  { intros m Hm. apply slice0_In in Hm.
    destruct (mapWithIndex_confidence _ _ _ _ Hm) as (c & i & ->).
    apply confidenceOf_range. }
  split; [exact Hids|].
  destruct (mergeCandidates_by_source exactPrimary exactAlt ftsResults)
    as (primary & alt & fts & Em & P1 & P2 & A1 & A2 & F1 & F2 & All).
  exists primary, alt, fts.
  split; [exact Em|]. split; [exact P1|]. split; [exact P2|].
  split; [exact A1|]. split; [exact A2|]. split; [exact F1|].
  split; [exact F2|]. split; [exact All|].
  rewrite Hids. subst candidates. rewrite applyFilters_selection, Em.
  unfold slice0. destruct (Z.ltb_spec (limit options * 2) 0); [lia|].
  rewrite <- firstn_map, firstn_firstn, <- firstn_map.
  f_equal. lia.
Qed.

End ResolverOrder.

Section ResolverExamples.

Import Places Examples.

(** The claim as first stated asks for a list sorted by confidence.  The
    two alternative-name rows come back in store order with confidences
    0.90 and 0.94: the second is a county seat, and nothing sorts the list
    afterwards. *)
Lemma resolveName_not_sorted_by_confidence :
  map match_id (resolveName (fun _ => None) (fun s => s) vikStore vikQuery)
  = ["ssr-1"; "ssr-2"]%string
  /\ ~ Spec.nonIncreasing
         (map confidence
              (resolveName (fun _ => None) (fun s => s) vikStore vikQuery)).
Proof.
  split; [reflexivity|].
  vm_compute. intros [H _]. apply H. reflexivity.
Qed.

Lemma resolveName_bounded_in_candidate_order_witness :
  (0 <= limit vikQuery)%Z
  /\ (Z.of_nat
        (List.length
           (resolveName (fun _ => None) (fun s => s) vikStore vikQuery))
      <= 5)%Z.
Proof.
  split; [discriminate|].
  exact (proj1 (@resolveName_bounded_in_candidate_order
                  (fun _ => None) (fun s => s) vikStore vikQuery
                  ltac:(discriminate))).
Defined.

End ResolverExamples.

(** ** Activity thresholds and best windows *)

Section ActivityWindows.

Import Activity.

(** X21.  Preferences override the thresholds of the activity field by field: a
    field that is given wins, a field that is absent keeps the value the
    activity has without preferences (for [custom]: 5, 25, 15 and no
    heavy-rain rule); [avoidRain] is no part of the thresholds. *)
Theorem getThresholds_field_override :
  forall (activity : ActivityType) (p : Preferences),
    minTemp (getThresholds activity (Some p))
    = orDefault (pref_minTemp p) (minTemp (getThresholds activity None))
    /\ maxTemp (getThresholds activity (Some p))
       = orDefault (pref_maxTemp p) (maxTemp (getThresholds activity None))
    /\ maxWind (getThresholds activity (Some p))
       = orDefault (pref_maxWind p) (maxWind (getThresholds activity None))
    /\ avoidHeavyRain (getThresholds activity (Some p))
       = orDefault (pref_avoidHeavyRain p)
           (avoidHeavyRain (getThresholds activity None))
    /\ getThresholds custom None = mkActivityThresholds 5 25 15 false
    /\ (forall b,
           getThresholds activity
             (Some (mkPreferences (pref_minTemp p) (pref_maxTemp p)
                      (pref_maxWind p) b (pref_avoidHeavyRain p)))
           = getThresholds activity (Some p)).
Proof.
  intros activity p. unfold getThresholds.
  destruct activity as [a|];
    cbn [minTemp maxTemp maxWind avoidHeavyRain pref_minTemp pref_maxTemp
         pref_maxWind pref_avoidHeavyRain];
    destruct (pref_minTemp p), (pref_maxTemp p), (pref_maxWind p),
      (pref_avoidHeavyRain p);
    repeat split.
Qed.

Lemma totalDuration_app (xs ys : list BestWindow) :
  Spec.totalDuration (xs ++ ys)
  = (Spec.totalDuration xs + Spec.totalDuration ys)%Z.
Proof.
  unfold Spec.totalDuration.
  induction xs as [|x r IH]; cbn [app fold_right]; [reflexivity|].
  rewrite IH. lia.
Qed.

Lemma goodSlots_snoc (slots : list ComfortSlot) (slot : ComfortSlot) :
  Spec.goodSlots (slots ++ [slot])
  = (Spec.goodSlots slots
     + (if isGood (slot_score slot) then 1 else 0))%Z.
Proof.
  unfold Spec.goodSlots. rewrite filter_app, length_app. cbn [filter].
  destruct (isGood (slot_score slot)); cbn [List.length]; lia.
Qed.

Lemma closeWindow_facts (windows : list BestWindow)
  (cur : option CurrentWindow) :
  (forall w, In w windows -> (2 <= duration_hours w)%Z) ->
  (forall w, In w (closeWindow windows cur) -> (2 <= duration_hours w)%Z)
  /\ (Spec.totalDuration (closeWindow windows cur)
      <= Spec.totalDuration windows
         + match cur with
           | Some c => Z.max 0 (current_count c)
           | None => 0
           end)%Z.
Proof.
  intro H. unfold closeWindow. destruct cur as [c|]; [|split; [exact H | lia]].
  destruct (Z.leb_spec 2 (current_count c)).
  - split.
    + intros w Hw. apply in_app_or in Hw.
      destruct Hw as [Hw | [<- | []]]; [apply H; exact Hw | assumption].
    + rewrite totalDuration_app. unfold Spec.totalDuration at 2.
      cbn [fold_right duration_hours]. lia.
  - split; [exact H | lia].
Qed.

Lemma windowStep_invariant (slots : list ComfortSlot) (slot : ComfortSlot)
  (st : list BestWindow * option CurrentWindow) :
  Spec.windowsInvariant slots st ->
  Spec.windowsInvariant (slots ++ [slot]) (windowStep st slot).
Proof.
  destruct st as [windows cur]. unfold Spec.windowsInvariant, windowStep.
  cbn [fst snd]. intros (Hd & Hs & Hc). rewrite goodSlots_snoc.
  destruct (isGood (slot_score slot)).
  - destruct cur as [c|]; cbn [fst snd current_count];
      (split; [exact Hd|]); split; lia.
  - cbn [fst snd].
    destruct (closeWindow_facts windows cur Hd) as [F1 F2].
    split; [exact F1|]. split; [|exact I].
    destruct cur as [c|]; lia.
Qed.

Lemma fold_windowStep_invariant (slots : list ComfortSlot) :
  forall pre st,
    Spec.windowsInvariant pre st ->
    Spec.windowsInvariant (pre ++ slots) (fold_left windowStep slots st).
Proof.
  induction slots as [|slot rest IH]; intros pre st H; cbn [fold_left].
  - rewrite app_nil_r. exact H.
  - replace (pre ++ slot :: rest)%list with ((pre ++ [slot]) ++ rest)%list
      by (rewrite <- app_assoc; reflexivity).
    apply IH. apply windowStep_invariant. exact H.
Qed.

(** X22.  Every best window spans at least two slots, and the windows never
    cover more slots than were scored good. *)
Theorem identifyBestWindows_durations :
  forall slots : list ComfortSlot,
    (forall w, In w (identifyBestWindows slots) ->
               (2 <= duration_hours w)%Z)
    /\ (Spec.totalDuration (identifyBestWindows slots)
        <= Spec.goodSlots slots)%Z.
Proof.
  intro slots. unfold identifyBestWindows.
  pose proof (@fold_windowStep_invariant slots [] ([], None)) as H.
  cbn [app] in H.
  destruct (fold_left windowStep slots ([], None)) as [windows cur].
  destruct H as (Hd & Hs & Hc);
    [unfold Spec.windowsInvariant, Spec.goodSlots; cbn;
     split; [intros w []|split; [lia | exact I]]|].
  cbn [fst snd] in *.
  destruct (closeWindow_facts windows cur Hd) as [F1 F2].
  split; [exact F1|]. destruct cur as [c|]; lia.
Qed.

Lemma last_cons_default (A : Type) (l : list A) :
  forall x d : A, last (x :: l) d = last l x.
Proof.
  induction l as [|y l IH]; intros x d; [reflexivity|].
  change (last (x :: y :: l) d) with (last (y :: l) d).
  rewrite (IH y d), (IH y x). reflexivity.
Qed.

Lemma fold_windowStep_all_good (slots : list ComfortSlot) :
  Forall (fun s => slot_score s = good) slots ->
  forall windows c,
    fold_left windowStep slots (windows, Some c)
    = (windows,
       Some (mkCurrent (current_from c)
               (last (map slot_time slots) (current_to c))
               (current_count c + Z.of_nat (List.length slots)))).
Proof.
  induction 1 as [|slot rest Hs Hrest IH]; intros windows c.
  - cbn. destruct c as [f t n]. cbn. f_equal. f_equal. f_equal. lia.
  - cbn [fold_left]. unfold windowStep at 2. rewrite Hs. cbn [isGood].
    rewrite IH. cbn [current_from current_to current_count].
    f_equal. f_equal. f_equal.
    + cbn [map]. symmetry. apply last_cons_default.
    + cbn [List.length]. lia.
Qed.

(** X23.  When every slot is good and there are at least two of them, there is
    exactly one best window: it runs from the first slot to the last and
    lasts as many hours as there are slots. *)
Theorem identifyBestWindows_all_good :
  forall (first : ComfortSlot) (rest : list ComfortSlot),
    Forall (fun s => slot_score s = good) (first :: rest) ->
    rest <> [] ->
    identifyBestWindows (first :: rest)
    = [mkWindow (slot_time first)
         (last (map slot_time rest) (slot_time first))
         (Z.of_nat (List.length (first :: rest)))].
Proof.
  intros first rest Hall Hne. inversion Hall as [|? ? Hf Hr]; subst.
  unfold identifyBestWindows. cbn [fold_left]. unfold windowStep at 2.
  rewrite Hf. cbn [isGood].
  rewrite (fold_windowStep_all_good Hr).
  cbn [closeWindow current_from current_to current_count].
  destruct (Z.leb_spec 2 (1 + Z.of_nat (List.length rest))) as [_ | Hlt].
  - cbn [app]. f_equal. f_equal. cbn [List.length]. lia.
  - destruct rest; [contradiction | cbn [List.length] in Hlt; lia].
Qed.

End ActivityWindows.

Section ActivityWindowsExamples.

Import Activity.
Local Open Scope string_scope.

Lemma identifyBestWindows_all_good_witness :
  identifyBestWindows
    (scoreSlots (mkActivityInput (builtin running) None)
       [mkForecastHour "2025-06-01T10:00:00Z" 8 5 (Some 0);
        mkForecastHour "2025-06-01T11:00:00Z" 8 5 (Some 0);
        mkForecastHour "2025-06-01T12:00:00Z" 8 5 None])
  = [mkWindow "2025-06-01T10:00:00Z" "2025-06-01T12:00:00Z" 3].
Proof.
  refine (eq_trans
            (@identifyBestWindows_all_good
               (scoreHour (ACTIVITY_THRESHOLDS running) false
                  (mkForecastHour "2025-06-01T10:00:00Z" 8 5 (Some 0)))
               [scoreHour (ACTIVITY_THRESHOLDS running) false
                  (mkForecastHour "2025-06-01T11:00:00Z" 8 5 (Some 0));
                scoreHour (ACTIVITY_THRESHOLDS running) false
                  (mkForecastHour "2025-06-01T12:00:00Z" 8 5 None)]
               _ _) _).
  - repeat constructor.
  - discriminate.
  - reflexivity.
Defined.

End ActivityWindowsExamples.

(** ** Nowcast *)

Section NowcastFacts.

Import ErrorHandler ResponseBuilder Schemas Nowcast.

(** X24.  The precipitation classes by rate: none at 0 or without a rate, light
    below 2.5 mm/h (also for a negative rate), moderate from 2.5 and below
    10, heavy from 10.  The heavy-rain rule of the activity scorer draws
    the same line: under it a slot passes exactly when its rate is classed
    none or light. *)
Theorem classifyPrecipitation_classes :
  forall r : Q,
    classifyPrecipitation None = none
    /\ (r == 0 -> classifyPrecipitation (Some r) = none)
    /\ (~ r == 0 -> r < 2.5 -> classifyPrecipitation (Some r) = light)
    /\ (2.5 <= r -> r < 10 -> classifyPrecipitation (Some r) = moderate)
    /\ (10 <= r -> classifyPrecipitation (Some r) = heavy)
    /\ (forall (T W : Q) (th : Activity.ActivityThresholds),
           Activity.avoidHeavyRain th = true ->
           (Activity.precipitation_ok
              (Activity.assessComfort T W r th false) = true
            <-> (classifyPrecipitation (Some r) = none
                 \/ classifyPrecipitation (Some r) = light))).
Proof.
  intro r. unfold classifyPrecipitation.
  destruct (Qeqb r 0) eqn:E0.
  - apply Qeqb_true_iff in E0.
    split; [reflexivity|]. split; [reflexivity|].
    split; [intro N; contradiction|].
    split; [intros; lra|]. split; [intros; lra|].
    intros T W th Hh. cbn [Activity.assessComfort Activity.precipitation_ok].
    rewrite Hh. split; [intros _; left; reflexivity|].
    intros _. apply Qltb_true_iff. lra.
  - assert (N0 : ~ r == 0).
    { intro K. apply Qeqb_true_iff in K. congruence. }
    destruct (Qltb r 2.5) eqn:E1.
    + apply Qltb_true_iff in E1.
      split; [reflexivity|]. split; [intro; contradiction|].
      split; [reflexivity|]. split; [intros; lra|]. split; [intros; lra|].
      intros T W th Hh. cbn [Activity.assessComfort Activity.precipitation_ok].
      rewrite Hh. split; [intros _; right; reflexivity|].
      intros _. apply Qltb_true_iff. exact E1.
    + assert (G1 : 2.5 <= r).
      { apply Qnot_lt_le. intro K. apply Qltb_true_iff in K. congruence. }
      assert (F : forall (T W : Q) (th : Activity.ActivityThresholds),
                 Activity.avoidHeavyRain th = true ->
                 Activity.precipitation_ok
                   (Activity.assessComfort T W r th false) = false).
      { intros T W th Hh.
        cbn [Activity.assessComfort Activity.precipitation_ok].
        rewrite Hh. exact E1. }
      destruct (Qltb r 10) eqn:E2.
      * apply Qltb_true_iff in E2.
        split; [reflexivity|]. split; [intro; contradiction|].
        split; [intros; lra|]. split; [reflexivity|]. split; [intros; lra|].
        intros T W th Hh. rewrite (F T W th Hh).
        split; [discriminate | intros [K | K]; discriminate].
      * assert (G2 : 10 <= r).
        { apply Qnot_lt_le. intro K. apply Qltb_true_iff in K. congruence. }
        split; [reflexivity|]. split; [intro; contradiction|].
        split; [intros; lra|]. split; [intros; lra|]. split; [reflexivity|].
        intros T W th Hh. rewrite (F T W th Hh).
        split; [discriminate | intros [K | K]; discriminate].
Qed.

Variable Date_parse : string -> option Z.

Lemma nowcast_transform_in (timeseries : list MetNowcastTimeseries)
  (now : Z) (p : NowcastPoint) :
  In p (transformMetResponse Date_parse timeseries now) ->
  exists entry,
    In entry timeseries
    /\ beyondTwoHours Date_parse (entry_time entry) now = false
    /\ p = transformEntry entry.
Proof.
  induction timeseries as [|entry rest IH]; simpl; [contradiction|].
  destruct (beyondTwoHours Date_parse (entry_time entry) now) eqn:E.
  - intro H. destruct (IH H) as (e & He & Ho & Ep).
    exists e. repeat split; [right|..]; assumption.
  - intros [<- | H].
    + exists entry. repeat split; [left; reflexivity | exact E].
    + destruct (IH H) as (e & He & Ho & Ep).
      exists e. repeat split; [right|..]; assumption.
Qed.

(** X25.  A successful nowcast answer reports the window [now, now + 2h]; no
    point whose time stamp is a date lies more than two hours after the
    clock reading of the transformation; every point is classed by its
    own rate, and its unit fields are present exactly when the value is.
    No lower bound is applied to the time stamps. *)
Theorem handleNowcast_within_two_hours :
  forall (fetch : NowcastFetch) (nowTransform nowHandler nowSummary : Z)
         (input : NowcastInput) (out : NowcastOutput),
    structuredContent
      (handleNowcast Date_parse fetch nowTransform nowHandler nowSummary
         input)
    = Payload out ->
    out_timeWindow out = mkResolved nowHandler (nowHandler + 7200000)
    /\ (forall p, In p (hours out) ->
          (forall ms, Date_parse (time p) = Some ms ->
                      (ms <= nowTransform + 7200000)%Z)
          /\ precipitation_intensity_class p
             = classifyPrecipitation (precipitation_rate p)
          /\ (precipitation_unit p = None <-> precipitation_rate p = None)
          /\ (air_temperature_unit p = None <-> air_temperature p = None)).
Proof.
  intros fetch nowTransform nowHandler nowSummary input out.
  unfold handleNowcast.
  destruct (negb _); [discriminate|].
  destruct (fetch _ _) as [e | [timeseries cache]]; [discriminate|].
  cbn [buildToolResponse structuredContent]. intro E. injection E as <-.
  cbn [out_timeWindow hours]. split; [reflexivity|].
  intros p Hin.
  destruct (nowcast_transform_in _ _ _ Hin) as (entry & _ & Hb & ->).
  unfold transformEntry.
  cbn [time precipitation_intensity_class precipitation_rate
       precipitation_unit air_temperature_unit air_temperature].
  split; [|split; [reflexivity|split]].
  - intros ms Hms. unfold beyondTwoHours in Hb. rewrite Hms in Hb.
    apply Z.ltb_ge in Hb. lia.
  - destruct (match next_1_hours entry with
              | Some n => details_precipitation_rate n
              | None => None
              end);
      [|destruct (instant_precipitation_rate entry)];
      split; intro K; try discriminate; reflexivity.
  - destruct (instant_air_temperature entry);
      split; intro K; try discriminate; reflexivity.
Qed.

End NowcastFacts.

Section NowcastExamples.

Import ErrorHandler ResponseBuilder Schemas Nowcast Examples.

Lemma handleNowcast_within_two_hours_witness :
  exists out,
    structuredContent
      (handleNowcast WindowSpec.parseUtcTimestamp osloNowcastFetch
         newYear2025 newYear2025 newYear2025 osloNowcastInput)
    = Payload out
    /\ map time (hours out)
       = ["2024-12-31T23:00:00Z"; "2025-01-01T01:00:00Z"]%string
    /\ out_timeWindow out = mkResolved newYear2025 (newYear2025 + 7200000).
Proof.
  eexists. split; [vm_compute; reflexivity|]. split; [reflexivity|].
  exact (proj1 (@handleNowcast_within_two_hours WindowSpec.parseUtcTimestamp
                  osloNowcastFetch newYear2025 newYear2025 newYear2025
                  osloNowcastInput _ eq_refl)).
Defined.

End NowcastExamples.

(** ** Air quality *)

Section AirQualityFacts.

Import AirQuality.

(** X26.  The category never improves when the index grows, and the bounds 1, 2,
    3 and 4 belong to the better category. *)
Theorem mapAQIToCategory_monotone :
  forall a b : Q,
    (a <= b -> (Spec.aqiRank (mapAQIToCategory a)
                <= Spec.aqiRank (mapAQIToCategory b))%Z)
    /\ mapAQIToCategory 1 = good /\ mapAQIToCategory 2 = fair
    /\ mapAQIToCategory 3 = moderate /\ mapAQIToCategory 4 = poor
    /\ (4 < a -> mapAQIToCategory a = very_poor).
Proof.
  intros a b. split; [|repeat split].
  - intro H. unfold mapAQIToCategory.
    destruct (Qleb a 1) eqn:A1; destruct (Qleb a 2) eqn:A2;
      destruct (Qleb a 3) eqn:A3; destruct (Qleb a 4) eqn:A4;
      destruct (Qleb b 1) eqn:B1; destruct (Qleb b 2) eqn:B2;
      destruct (Qleb b 3) eqn:B3; destruct (Qleb b 4) eqn:B4;
      cbn; try lia; exfalso;
      repeat match goal with
             | K : Qleb _ _ = true |- _ => apply Qleb_true_iff in K
             | K : Qleb ?x ?y = false |- _ =>
                 assert (y < x)
                   by (apply Qnot_le_lt; intro L;
                       apply Qleb_true_iff in L; congruence);
                 clear K
             end; lra.
  - intro H. unfold mapAQIToCategory.
    assert (F : forall k, k <= 4 -> Qleb a k = false).
    { intros k Hk. destruct (Qleb a k) eqn:E; [|reflexivity].
      apply Qleb_true_iff in E. lra. }
    rewrite !F by lra. reflexivity.
Qed.

Lemma Qsign_positive (x y : Q) :
  (0 <? Qsign (x - y))%Z = Qltb y x.
Proof.
  unfold Qsign. destruct (0 ?= x - y) eqn:C.
  - apply Qeq_alt in C. symmetry. apply not_true_is_false. intro K.
    apply Qltb_true_iff in K. lra.
  - apply Qlt_alt in C. symmetry. apply Qltb_true_iff. lra.
  - apply Qgt_alt in C. symmetry. apply not_true_is_false. intro K.
    apply Qltb_true_iff in K. lra.
Qed.

(** The first element of an array sorted by decreasing key is what a scan
    for the largest key picks, an earlier element winning a tie. *)
Lemma Array_sort_head (A : Type) (key : A -> Q) (xs : list A) :
  hd_error (Array_sort (fun a b => Qsign (key b - key a)) xs)
  = fold_left (Spec.pickLarger key) xs None.
Proof.
  unfold Array_sort.
  assert (G : forall acc,
             hd_error
               (fold_left
                  (fun acc x =>
                     sort_insert (fun a b => Qsign (key b - key a)) x acc)
                  xs acc)
             = fold_left (Spec.pickLarger key) xs (hd_error acc)).
  { induction xs as [|x r IH]; intro acc; cbn [fold_left]; [reflexivity|].
    rewrite IH. f_equal. destruct acc as [|y acc']; [reflexivity|].
    cbn [sort_insert hd_error Spec.pickLarger].
    rewrite Qsign_positive. destruct (Qltb (key y) (key x)); reflexivity. }
  apply (G []).
Qed.

Lemma pickLarger_spec (A : Type) (key : A -> Q) (xs : list A) :
  forall a h,
    fold_left (Spec.pickLarger key) xs (Some a) = Some h ->
    (h = a /\ Forall (fun y => key y <= key a) xs)
    \/ (exists pre post,
           xs = (pre ++ h :: post)%list
           /\ key a < key h
           /\ Forall (fun y => key y < key h) pre
           /\ Forall (fun y => key y <= key h) post).
Proof.
  induction xs as [|x r IH]; intros a h H; cbn [fold_left] in H.
  - injection H as <-. left. split; [reflexivity | constructor].
  - unfold Spec.pickLarger in H at 2.
    destruct (Qltb (key a) (key x)) eqn:E.
    + apply Qltb_true_iff in E.
      destruct (IH _ _ H) as [[-> Hall] | (pre & post & -> & Hlt & Hpre & Hpost)].
      * right. exists [], r. repeat split; [exact E | constructor | exact Hall].
      * right. exists (x :: pre), post.
        split; [reflexivity|]. split; [lra|]. split; [|exact Hpost].
        constructor; [exact Hlt | exact Hpre].
    + assert (G : key x <= key a).
      { apply Qnot_lt_le. intro K. apply Qltb_true_iff in K. congruence. }
      destruct (IH _ _ H) as [[-> Hall] | (pre & post & -> & Hlt & Hpre & Hpost)].
      * left. split; [reflexivity|]. constructor; assumption.
      * right. exists (x :: pre), post.
        split; [reflexivity|]. split; [exact Hlt|]. split; [|exact Hpost].
        constructor; [lra | exact Hpre].
Qed.

Lemma definedPollutants_filter (v : Variables) :
  map (fun p => (fst p, orZero (snd p)))
      (filter (fun p : string * option Q =>
                 match snd p with Some _ => true | None => false end)
              [("PM2.5"%string, AQI_pm25 v); ("PM10"%string, AQI_pm10 v);
               ("NO2"%string, AQI_no2 v); ("O3"%string, AQI_o3 v)])
  = Spec.definedPollutants v.
Proof.
  unfold Spec.definedPollutants.
  destruct (AQI_pm25 v), (AQI_pm10 v), (AQI_no2 v), (AQI_o3 v); reflexivity.
Qed.

Lemma fold_pickLarger_map (A B : Type) (f : A -> B) (key : B -> Q)
  (xs : list A) :
  forall best,
    option_map f (fold_left (Spec.pickLarger (fun a => key (f a))) xs best)
    = fold_left (Spec.pickLarger key) (map f xs) (option_map f best).
Proof.
  induction xs as [|x r IH]; intro best; cbn [fold_left map]; [reflexivity|].
  rewrite IH. f_equal. destruct best as [h|]; cbn; [|reflexivity].
  destruct (Qltb (key (f h)) (key (f x))); reflexivity.
Qed.

(** X27.  The dominant pollutant is a pollutant with the largest sub-index among
    those that have one; on a tie the one listed first among PM2.5, PM10,
    NO2, O3 is named; and no pollutant is named exactly when none has a
    sub-index. *)
Theorem getDominantPollutant_largest :
  forall (v : Variables),
    (forall name,
        getDominantPollutant v = Some name ->
        exists x pre post,
          Spec.definedPollutants v = (pre ++ (name, x) :: post)%list
          /\ Forall (fun p => snd p < x) pre
          /\ Forall (fun p => snd p <= x) post)
    /\ (getDominantPollutant v = None <-> Spec.definedPollutants v = []).
Proof.
  intro v.
  assert (E : getDominantPollutant v
              = option_map fst
                  (fold_left (Spec.pickLarger snd)
                     (Spec.definedPollutants v) None)).
  { unfold getDominantPollutant.
    rewrite <- definedPollutants_filter.
    rewrite <- (fold_pickLarger_map
                  (fun p : string * option Q => (fst p, orZero (snd p)))
                  snd _ None).
    cbn [snd]. rewrite <- Array_sort_head.
    destruct (Array_sort _ _) as [|p l]; reflexivity. }
  rewrite E. split.
  - intros name H.
    destruct (Spec.definedPollutants v) as [|[n0 x0] rest] eqn:D;
      [discriminate|].
    cbn [fold_left Spec.pickLarger] in H.
    destruct (fold_left (Spec.pickLarger snd) rest (Some (n0, x0)))
      as [[n x]|] eqn:F; [|discriminate].
    cbn in H. injection H as <-.
    destruct (pickLarger_spec _ _ _ F)
      as [[Eh Hall] | (pre & post & -> & Hlt & Hpre & Hpost)].
    + injection Eh as -> ->. exists x0, [], rest.
      split; [reflexivity|]. split; [constructor | exact Hall].
    + exists x, ((n0, x0) :: pre), post. cbn [snd] in *.
      split; [reflexivity|]. split; [|exact Hpost].
      constructor; [exact Hlt | exact Hpre].
  - destruct (Spec.definedPollutants v) as [|[n0 x0] rest] eqn:D.
    + split; reflexivity.
    + split; [|discriminate]. cbn [fold_left Spec.pickLarger].
      destruct (fold_left (Spec.pickLarger snd) rest (Some (n0, x0)))
        as [h|] eqn:F; [discriminate|].
      exfalso. clear - F. revert F. generalize (n0, x0).
      induction rest as [|y r IH]; intros a F; cbn [fold_left] in F;
        [discriminate|].
      unfold Spec.pickLarger in F at 2.
      destruct (Qltb (snd a) (snd y)); eapply IH; exact F.
Qed.

Example dominant_pollutant_tie :
  getDominantPollutant Examples.cityAir = Some "PM2.5"%string.
Proof. reflexivity. Qed.

Variable Date_parse : string -> option Z.


End AirQualityFacts.

Section AirQualityExamples.

Import AirQuality.


End AirQualityExamples.

(** ** The place-name tool *)

Section PlaceTool.

Import Places PlacesResolve.

Variable JSON_parse : string -> option (list string).
Variable normalizeNorwegian : string -> string.

Lemma mergeCandidates_nil_iff (exactPrimary exactAlt : list PlaceRecord)
  (ftsResults : list (PlaceRecord * Q)) :
  mergeCandidates exactPrimary exactAlt ftsResults = []
  <-> exactPrimary = [] /\ exactAlt = [] /\ ftsResults = [].
Proof.
  split.
  - intro H. destruct exactPrimary as [|r rest].
    + split; [reflexivity|].
      destruct exactAlt as [|r rest].
      * split; [reflexivity|].
        destruct ftsResults as [|row rest]; [reflexivity|].
        exfalso. revert H. unfold mergeCandidates.
        cbn [pushUnseen seen_has existsb app].
        match goal with
        | |- context [pushUnseen ?f ?g rest ?sn ?c] =>
            destruct (pushUnseen_extends f g rest sn c) as [n3 E3];
            destruct (pushUnseen f g rest sn c) as [seen3 c3]
        end.
        cbn [snd] in E3. subst c3. discriminate.
      * exfalso. revert H. unfold mergeCandidates.
        cbn [pushUnseen seen_has existsb app].
        match goal with
        | |- context [pushUnseen ?f ?g rest ?sn ?c] =>
            destruct (pushUnseen_extends f g rest sn c) as [n2 E2];
            destruct (pushUnseen f g rest sn c) as [seen2 c2]
        end.
        cbn [snd] in E2. subst c2.
        match goal with
        | |- context [pushUnseen ?f ?g ftsResults seen2 ?c] =>
            destruct (pushUnseen_extends f g ftsResults seen2 c) as [n3 E3];
            destruct (pushUnseen f g ftsResults seen2 c) as [seen3 c3]
        end.
        cbn [snd] in E3. subst c3. discriminate.
    + exfalso.
      destruct (mergeCandidates_head r rest exactAlt ftsResults) as [tl E].
      congruence.
  - intros (-> & -> & ->). reflexivity.
Qed.

Lemma slice0_nil_iff (A : Type) (xs : list A) (e : Z) :
  (1 <= e)%Z -> (slice0 xs e = [] <-> xs = []).
Proof.
  intro H. split.
  - destruct xs as [|x r]; [reflexivity|].
    destruct (slice0_cons x r H) as [tl E]. rewrite E. discriminate.
  - intros ->. unfold slice0. destruct (e <? 0)%Z; apply firstn_nil.
Qed.

Lemma applyFilters_nil_iff (candidates : list PlaceCandidate)
  (options : ResolveOptions) :
  (1 <= limit options)%Z ->
  (applyFilters candidates options = [] <-> candidates = []).
Proof.
  intro H. unfold applyFilters.
  rewrite slice0_nil_iff by lia.
  set (filtered1 := match preferredPlaceClasses options with
                    | Some _ => _
                    | None => _
                    end).
  assert (F1 : filtered1 = [] <-> candidates = []).
  { subst filtered1. destruct (preferredPlaceClasses options) as [cl|];
      [|reflexivity].
    destruct (0 <? List.length cl)%nat; [|reflexivity].
    destruct (filter _ candidates) as [|p ps] eqn:Ef.
    - reflexivity.
    - cbn [List.length Nat.ltb Nat.leb]. split; [discriminate|].
      intros ->. discriminate. }
  rewrite <- F1.
  destruct (preferredMunicipalityCode options) as [code|]; [|reflexivity].
  destruct (truthy_string code); [|reflexivity].
  split.
  - intro E. pose proof (Array_sort_perm
                           (fun a b => (inMunicipality code b
                                        - inMunicipality code a)%Z)
                           filtered1) as P.
    rewrite E in P. apply Permutation_nil. exact P.
  - intros ->. reflexivity.
Qed.

Lemma mapWithIndex_nil_iff (cs : list PlaceCandidate) (index : Z) :
  mapWithIndex JSON_parse cs index = [] <-> cs = [].
Proof.
  destruct cs; cbn [mapWithIndex]; split; intro; try reflexivity;
    discriminate.
Qed.

Lemma resolveName_nil_iff (db : PlacesDB) (options : ResolveOptions) :
  (1 <= limit options)%Z ->
  (resolveName JSON_parse normalizeNorwegian db options = []
   <-> findExactPrimary db (normalizeNorwegian (query options)) = []
       /\ findExactAlt db (normalizeNorwegian (query options)) = []
       /\ findFTS db (normalizeNorwegian (query options))
                  (limit options * 3) = []).
Proof.
  intro H. unfold resolveName, assignConfidence.
  rewrite slice0_nil_iff by exact H.
  rewrite mapWithIndex_nil_iff.
  rewrite applyFilters_nil_iff by exact H.
  apply mergeCandidates_nil_iff.
Qed.

Lemma copy_matches (ms : list PlaceMatch) :
  map (fun m =>
         mkMatch (match_id m) (match_name m) (match_alt_names m)
           (match_lat m) (match_lon m) (match_municipality_name m)
           (match_municipality_code m) (match_county_name m)
           (match_place_class m) (confidence m) (match_source m)) ms
  = ms.
Proof.
  induction ms as [|m r IH]; [reflexivity|].
  cbn [map]. rewrite IH. destruct m; reflexivity.
Qed.

(** X29.  With a limit of at least 1, the tool answers with an error exactly
    when none of the three searches of the store finds a row for the
    normalised query; the error carries no payload.  Otherwise the payload
    holds the resolver's matches, at least one and at most [limit], is
    marked as cached, and the text is the summary of a non-empty list. *)
Theorem handlePlaceResolve_error_iff_nothing_found :
  forall (input : PlaceResolveInput) (db : PlacesDB),
    (1 <= input_limit input)%Z ->
    let normalized := normalizeNorwegian (input_query input) in
    let response :=
      handlePlaceResolve JSON_parse normalizeNorwegian input db in
    (isError response = Some true
     <-> findExactPrimary db normalized = []
         /\ findExactAlt db normalized = []
         /\ findFTS db normalized (input_limit input * 3) = [])
    /\ (isError response = Some true -> structuredContent response = None)
    /\ (isError response <> Some true ->
        exists out,
          structuredContent response = Some out
          /\ out_query out = input_query input
          /\ matches out
             = resolveName JSON_parse normalizeNorwegian db
                 (mkOptions (input_query input) (input_limit input)
                    (input_preferredPlaceClasses input)
                    (input_preferredMunicipalityCode input))
          /\ (1 <= List.length (matches out))%nat
          /\ (Z.of_nat (List.length (matches out)) <= input_limit input)%Z
          /\ cached (source out) = true
          /\ text response
             = generateSummary (input_query input) (matches out)
                 (input_language input)).
Proof.
  intros input db H normalized response.
  set (options := mkOptions (input_query input) (input_limit input)
                    (input_preferredPlaceClasses input)
                    (input_preferredMunicipalityCode input)).
  pose proof (@resolveName_nil_iff db options H) as N.
  cbn [query limit options] in N. fold normalized in N.
  subst response. unfold handlePlaceResolve. fold options.
  destruct (resolveName JSON_parse normalizeNorwegian db options)
    as [|m ms] eqn:E.
  - cbn [List.length Nat.eqb isError structuredContent].
    split; [|split].
    + split; [intros _; apply N; reflexivity | reflexivity].
    + reflexivity.
    + intro K. exfalso. apply K. reflexivity.
  - cbn [List.length Nat.eqb isError structuredContent text].
    split; [|split].
    + split; [discriminate|]. intro K. apply N in K. discriminate.
    + discriminate.
    + intros _. eexists. split; [reflexivity|].
      cbn [out_query matches source cached].
      rewrite (copy_matches (m :: ms)).
      split; [reflexivity|]. split; [reflexivity|].
      split; [cbn [List.length]; lia|].
      split; [|split; reflexivity].
      rewrite <- E. unfold resolveName. apply slice0_length. lia.
Qed.

End PlaceTool.

Section PlaceToolExamples.

Import Places PlacesResolve Examples.

Lemma handlePlaceResolve_error_iff_nothing_found_witness :
  exists out,
    structuredContent
      (handlePlaceResolve (fun _ => None) (fun q => q) vikInput vikStore)
    = Some out
    /\ List.length (matches out) = 2%nat.
Proof.
  destruct (@handlePlaceResolve_error_iff_nothing_found (fun _ => None)
              (fun q => q) vikInput vikStore ltac:(cbn; lia))
    as (_ & _ & H3).
  destruct (H3 ltac:(vm_compute; discriminate))
    as (out & E & _ & Em & _).
  exists out. split; [exact E|]. rewrite Em. vm_compute. reflexivity.
Defined.

End PlaceToolExamples.

(** ** Metrics of the wrapped tools *)

Section WrappedTools.

Import ResponseBuilder Metrics ToolWrapper.
Local Open Scope Z_scope.

Lemma Map_get_set (V : Type) (m : Map V) (k k' : string) (v : V) :
  Map_get (Map_set m k v) k'
  = if String.eqb k k' then Some v else Map_get m k'.
Proof.
  induction m as [|[a w] r IH]; cbn [Map_set Map_get]; [reflexivity|].
  destruct (String.eqb_spec a k) as [->|Hak]; cbn [Map_get].
  - destruct (String.eqb k k'); reflexivity.
  - rewrite IH. destruct (String.eqb_spec a k') as [->|Hak'].
    + destruct (String.eqb_spec k k') as [->|]; [contradiction|reflexivity].
    + reflexivity.
Qed.

Lemma increment_get (m : Map Z) (k k' : string) :
  Map_get (increment m k) k'
  = if String.eqb k k' then Some (orZero (Map_get m k) + 1)
    else Map_get m k'.
Proof.
  unfold increment, Map_has. destruct (Map_get m k) as [c|] eqn:G.
  - rewrite G. rewrite Map_get_set. reflexivity.
  - rewrite Map_get_set, String.eqb_refl. rewrite !Map_get_set.
    destruct (String.eqb k k'); reflexivity.
Qed.

Lemma callCount_incrementToolCall (s : MetricsCollector)
  (t o tool oc : string) :
  Spec.callCount (incrementToolCall t o s) tool oc
  = Spec.callCount s tool oc
    + (if String.eqb t tool && String.eqb o oc then 1 else 0).
Proof.
  unfold Spec.callCount, incrementToolCall, Map_has.
  destruct (Map_get (toolCalls s) t) as [m|] eqn:G.
  - rewrite G. cbn [toolCalls]. rewrite Map_get_set.
    destruct (String.eqb_spec t tool) as [<-|]; cbn [andb]; [|lia].
    rewrite G, increment_get.
    destruct (String.eqb_spec o oc) as [<-|]; cbn [orZero]; lia.
  - rewrite Map_get_set, String.eqb_refl. cbn [toolCalls].
    rewrite !Map_get_set.
    destruct (String.eqb_spec t tool) as [<-|]; cbn [andb]; [|lia].
    rewrite G, increment_get. cbn [Map_get orZero].
    destruct (String.eqb_spec o oc) as [<-|]; cbn [orZero]; lia.
Qed.

Lemma latency_recordLatency (s : MetricsCollector) (t tool : string)
  (ms : Z) :
  Spec.latencyCount (recordLatency t ms s) tool
  = Spec.latencyCount s tool + (if String.eqb t tool then 1 else 0)
  /\ Spec.latencySum (recordLatency t ms s) tool
     = Spec.latencySum s tool + (if String.eqb t tool then ms else 0).
Proof.
  unfold Spec.latencyCount, Spec.latencySum, recordLatency, Map_has.
  destruct (Map_get (latencies s) t) as [l|] eqn:G.
  - rewrite G. cbn [latencies]. rewrite Map_get_set.
    destruct (String.eqb_spec t tool) as [<-|]; [|lia].
    rewrite G. cbn [count sum]. lia.
  - rewrite Map_get_set, String.eqb_refl. cbn [latencies].
    rewrite !Map_get_set.
    destruct (String.eqb_spec t tool) as [<-|]; [|lia].
    rewrite G. cbn [count sum]. lia.
Qed.

Lemma recordLatency_frame (s : MetricsCollector) (t : string) (ms : Z) :
  toolCalls (recordLatency t ms s) = toolCalls s
  /\ cacheStatuses (recordLatency t ms s) = cacheStatuses s.
Proof.
  unfold recordLatency. destruct (Map_get _ t); split; reflexivity.
Qed.

Lemma incrementToolCall_frame (s : MetricsCollector) (t o : string) :
  latencies (incrementToolCall t o s) = latencies s
  /\ cacheStatuses (incrementToolCall t o s) = cacheStatuses s.
Proof.
  unfold incrementToolCall. destruct (Map_get _ t); split; reflexivity.
Qed.

(** What one wrapped call does to the readings. *)
Lemma wrapTool_step (T : Type) (cachedOf : T -> option bool)
  (t : string) (handled : option (CallToolResult T)) (ms : Z)
  (s : MetricsCollector) (tool : string) :
  let s' := fst (wrapTool cachedOf t handled ms s) in
  Spec.callCount s' tool "success" + Spec.callCount s' tool "error"
  = Spec.callCount s tool "success" + Spec.callCount s tool "error"
    + (if String.eqb t tool then 1 else 0)
  /\ Spec.latencyCount s' tool
     = Spec.latencyCount s tool + (if String.eqb t tool then 1 else 0)
  /\ Spec.latencySum s' tool
     = Spec.latencySum s tool + (if String.eqb t tool then ms else 0)
  /\ (cacheStatuses s' = cacheStatuses s
      \/ cacheStatuses s' = increment (cacheStatuses s) "HIT"
      \/ cacheStatuses s' = increment (cacheStatuses s) "MISS").
Proof.
  assert (Base : forall o,
             (o = "success"%string \/ o = "error"%string) ->
             let s2 := recordLatency t ms (incrementToolCall t o s) in
             Spec.callCount s2 tool "success" + Spec.callCount s2 tool "error"
             = Spec.callCount s tool "success" + Spec.callCount s tool "error"
               + (if String.eqb t tool then 1 else 0)
             /\ Spec.latencyCount s2 tool
                = Spec.latencyCount s tool
                  + (if String.eqb t tool then 1 else 0)
             /\ Spec.latencySum s2 tool
                = Spec.latencySum s tool
                  + (if String.eqb t tool then ms else 0)
             /\ cacheStatuses s2 = cacheStatuses s).
  { intros o Ho s2. subst s2.
    destruct (latency_recordLatency (incrementToolCall t o s) t tool ms)
      as [Lc Ls].
    destruct (recordLatency_frame (incrementToolCall t o s) t ms)
      as [Ft Fc].
    destruct (incrementToolCall_frame s t o) as [Fl Fc'].
    split; [|split; [|split]].
    - unfold Spec.callCount at 1 2. rewrite Ft.
      fold (Spec.callCount (incrementToolCall t o s) tool "success").
      fold (Spec.callCount (incrementToolCall t o s) tool "error").
      rewrite !callCount_incrementToolCall.
      destruct (String.eqb t tool); cbn [andb]; [|lia].
      destruct Ho as [-> | ->]; cbn; lia.
    - rewrite Lc. unfold Spec.latencyCount. rewrite Fl. reflexivity.
    - rewrite Ls. unfold Spec.latencySum. rewrite Fl. reflexivity.
    - rewrite Fc, Fc'. reflexivity. }
  intro s'. subst s'. destruct handled as [result|]; cbn [wrapTool fst].
  - set (o := if isError_truthy result then "error"%string
              else "success"%string).
    assert (Ho : o = "success"%string \/ o = "error"%string).
    { subst o. destruct (isError_truthy result); [right | left]; reflexivity. }
    destruct (Base o Ho) as (B1 & B2 & B3 & B4).
    destruct (negb (isError_truthy result));
      [|repeat split; try assumption; left; exact B4].
    unfold extractCacheStatus.
    destruct (structuredContent result) as [data|e];
      [|repeat split; try assumption; left; exact B4].
    destruct (cachedOf data) as [[|]|];
      [| |repeat split; try assumption; left; exact B4].
    + unfold incrementCacheStatus.
      split; [exact B1|]. split; [exact B2|]. split; [exact B3|].
      right. left. cbn [cacheStatuses]. rewrite B4. reflexivity.
    + unfold incrementCacheStatus.
      split; [exact B1|]. split; [exact B2|]. split; [exact B3|].
      right. right. cbn [cacheStatuses]. rewrite B4. reflexivity.
  - destruct (Base "error"%string (or_intror eq_refl)) as (B1 & B2 & B3 & B4).
    repeat split; try assumption. left. exact B4.
Qed.

Lemma runCalls_snoc (T : Type) (cachedOf : T -> option bool)
  (calls : list (Spec.Call T)) (c : Spec.Call T) (s : MetricsCollector) :
  Spec.runCalls cachedOf (calls ++ [c]) s
  = fst (wrapTool cachedOf (Spec.call_tool c) (Spec.call_handled c)
           (Spec.call_latency c) (Spec.runCalls cachedOf calls s)).
Proof.
  unfold Spec.runCalls. rewrite fold_left_app. reflexivity.
Qed.

Lemma callsTo_snoc (T : Type) (tool : string) (calls : list (Spec.Call T))
  (c : Spec.Call T) :
  Z.of_nat (List.length (Spec.callsTo tool (calls ++ [c])))
  = Z.of_nat (List.length (Spec.callsTo tool calls))
    + (if String.eqb (Spec.call_tool c) tool then 1 else 0)
  /\ Spec.totalLatency (Spec.callsTo tool (calls ++ [c]))
     = Spec.totalLatency (Spec.callsTo tool calls)
       + (if String.eqb (Spec.call_tool c) tool
          then Spec.call_latency c else 0).
Proof.
  unfold Spec.callsTo. rewrite filter_app. cbn [filter].
  destruct (String.eqb (Spec.call_tool c) tool).
  - split; [rewrite length_app; cbn [List.length]; lia|].
    induction (filter _ calls) as [|x r IH]; cbn [app Spec.totalLatency fold_right].
    + lia.
    + unfold Spec.totalLatency in IH. rewrite IH. lia.
  - rewrite app_nil_r. split; lia.
Qed.

Lemma cacheHitRatio_range (s : MetricsCollector) :
  0 <= orZero (Map_get (cacheStatuses s) "HIT") ->
  0 <= orZero (Map_get (cacheStatuses s) "MISS") ->
  (0 <= cacheHitRatio s /\ cacheHitRatio s <= 1)%Q.
Proof.
  intros Hh Hm. unfold cacheHitRatio.
  set (hits := orZero (Map_get (cacheStatuses s) "HIT")) in *.
  set (misses := orZero (Map_get (cacheStatuses s) "MISS")) in *.
  destruct (Z.ltb_spec 0 (hits + misses)) as [Hp|]; [|split; lra].
  assert (Qp : (0 < inject_Z (hits + misses))%Q).
  { change 0%Q with (inject_Z 0). rewrite <- Zlt_Qlt. exact Hp. }
  split.
  - apply Qle_shift_div_l; [exact Qp|]. rewrite Qmult_0_l.
    change 0%Q with (inject_Z 0). rewrite <- Zle_Qle. exact Hh.
  - apply Qle_shift_div_r; [exact Qp|]. rewrite Qmult_1_l.
    rewrite <- Zle_Qle. lia.
Qed.

(** X30.  Whatever calls the wrapper has seen since the collector was empty:
    for every tool the success and error counters add up to the number of
    latency measurements, which is the number of calls to that tool, and
    the latency sum is the sum of their latencies; no cache status
    EXPIRED is ever counted; and the cache hit ratio lies in [0, 1]. *)
Theorem wrapTool_counters_agree :
  forall (T : Type) (cachedOf : T -> option bool)
         (calls : list (Spec.Call T)) (tool : string),
    let s := Spec.runCalls cachedOf calls empty in
    Spec.callCount s tool "success" + Spec.callCount s tool "error"
    = Spec.latencyCount s tool
    /\ Spec.latencyCount s tool
       = Z.of_nat (List.length (Spec.callsTo tool calls))
    /\ Spec.latencySum s tool = Spec.totalLatency (Spec.callsTo tool calls)
    /\ Map_get (cacheStatuses s) "EXPIRED" = None
    /\ (0 <= cacheHitRatio s /\ cacheHitRatio s <= 1)%Q.
Proof.
  intros T cachedOf calls tool s.
  assert (G : (Spec.callCount s tool "success"
               + Spec.callCount s tool "error"
               = Spec.latencyCount s tool
               /\ Spec.latencyCount s tool
                  = Z.of_nat (List.length (Spec.callsTo tool calls))
               /\ Spec.latencySum s tool
                  = Spec.totalLatency (Spec.callsTo tool calls))
              /\ Map_get (cacheStatuses s) "EXPIRED" = None
              /\ 0 <= orZero (Map_get (cacheStatuses s) "HIT")
              /\ 0 <= orZero (Map_get (cacheStatuses s) "MISS")).
  { subst s. induction calls as [|c calls IH] using rev_ind.
    - cbn. repeat split; lia.
    - rewrite runCalls_snoc.
      destruct IH as ((I1 & I2 & I3) & I4 & I5 & I6).
      destruct (wrapTool_step cachedOf (Spec.call_tool c)
                  (Spec.call_handled c) (Spec.call_latency c)
                  (Spec.runCalls cachedOf calls empty) tool)
        as (S1 & S2 & S3 & S4).
      destruct (callsTo_snoc tool calls c) as [C1 C2].
      split; [split; [|split]; lia|].
      destruct S4 as [-> | [-> | ->]]; rewrite ?increment_get; cbn;
        repeat split; try assumption; lia. }
  destruct G as ((G1 & G2 & G3) & G4 & G5 & G6).
  split; [exact G1|]. split; [exact G2|]. split; [exact G3|].
  split; [exact G4|]. apply cacheHitRatio_range; assumption.
Qed.

End WrappedTools.
